(** * kivy.uix.vkeyboard: the layout-to-geometry engine, the hit-tester and
      the multi-touch key-state machine of [VKeyboard]

    A shallow embedding of [src/kivy/uix/vkeyboard.py] (Python 2).

    - Python floats are reached through the interface [PyFloat], which has
      two instances: [Q] (exact arithmetic, used for the general theorems)
      and [PrimFloat.float] (IEEE binary64 with round-to-nearest-even, which
      is what CPython computes with; used to run the code on concrete
      inputs).
    - A method that mutates [self] is a state transformer [M A]; the state
      is kept when an exception is raised, as Python keeps every mutation
      made before a [raise].
    - Canvas instructions, textures, labels and the [Clock] triggers are not
      part of the state; the dictionary and list lookups that the drawing
      methods perform are kept, because they can raise. *)

From Stdlib Require Import ZArith QArith Qround Lia Lqa.
From Stdlib Require Import Floats.
From stdpp Require Import gmap strings list.

(** ** Exceptions and results *)

(** [LookupError] stands for its two subclasses, KeyError and IndexError. *)
Inductive exn : Type :=
| LookupError
| ZeroDivisionError
| OverflowError
| ValueError
| AssertionError.

Inductive res (A : Type) : Type :=
| Ok (a : A)
| Raise (e : exn).
Arguments Ok {A} a.
Arguments Raise {A} e.

Definition res_bind {A B} (r : res A) (k : A → res B) : res B :=
  match r with
  | Ok a => k a
  | Raise e => Raise e
  end.

Declare Scope py_scope.
Delimit Scope py_scope with py.
Open Scope py_scope.

Notation "'try' x <- r ; k" := (res_bind r (fun x => k))
  (at level 10, x name, r at level 100, k at level 200) : py_scope.

(** [d[k]] on a dict and [l[i]] on a list. *)
Definition getitem `{Countable K} {V} (d : gmap K V) (k : K) : res V :=
  match d !! k with
  | Some v => Ok v
  | None => Raise LookupError
  end.

Definition getindex {A} (l : list A) (i : nat) : res A :=
  match l !! i with
  | Some a => Ok a
  | None => Raise LookupError
  end.

(** ** Python floats *)

Class PyFloat (F : Type) : Type := {
  of_int : Z → F;                (* float(n) for an int n *)
  fadd : F → F → F;
  fsub : F → F → F;
  fmul : F → F → F;
  fdiv : F → F → res F;          (* raises ZeroDivisionError *)
  flt : F → F → bool;            (* a < b *)
  fle : F → F → bool;            (* a <= b *)
  int : F → res Z                (* int(x): truncation toward zero *)
}.

Infix "⊕" := fadd (at level 50, left associativity) : py_scope.
Infix "⊖" := fsub (at level 50, left associativity) : py_scope.
Infix "⊗" := fmul (at level 40, left associativity) : py_scope.
Infix "⊘" := fdiv (at level 40, left associativity) : py_scope.
Infix "≺?" := flt (at level 70, no associativity) : py_scope.
Infix "≼?" := fle (at level 70, no associativity) : py_scope.

(** [a == b], and [sum(l)] (which adds from the left, starting at 0). *)
Definition feq `{PyFloat F} (a b : F) : bool := (a ≼? b) && (b ≼? a).
Definition fsum `{PyFloat F} (l : list F) : F := foldl fadd (of_int 0) l.

Infix "=?." := feq (at level 70, no associativity) : py_scope.

(** *** Exact arithmetic *)

Definition Qtrunc (q : Q) : Z := Z.quot (Qnum q) (Zpos (Qden q)).

Definition Qdiv_py (a b : Q) : res Q :=
  if Qeq_bool b 0 then Raise ZeroDivisionError else Ok (a / b)%Q.

Definition Qlt_bool (a b : Q) : bool := negb (Qle_bool b a).

#[export] Instance Q_float : PyFloat Q := {|
  of_int := inject_Z;
  fadd := Qplus;
  fsub := Qminus;
  fmul := Qmult;
  fdiv := Qdiv_py;
  flt := Qlt_bool;
  fle := Qle_bool;
  int := fun q => Ok (Qtrunc q)
|}.

(** *** IEEE binary64 *)

Definition float_of_Z (z : Z) : float :=
  SF2Prim (binary_normalize prec emax z 0 false).

Definition float_div_py (a b : float) : res float :=
  if PrimFloat.eqb b PrimFloat.zero then Raise ZeroDivisionError
  else Ok (PrimFloat.div a b).

(** [int(x)]: the integer part of a finite float; [int(inf)] raises
    OverflowError and [int(nan)] raises ValueError. *)
Definition float_int (x : float) : res Z :=
  match Prim2SF x with
  | S754_zero _ => Ok 0%Z
  | S754_infinity _ => Raise OverflowError
  | S754_nan => Raise ValueError
  | S754_finite s m e =>
      let m := if s then Zneg m else Zpos m in
      Ok (match e with
          | Z0 => m
          | Zpos p => m * 2 ^ Zpos p
          | Zneg p => Z.quot m (2 ^ Zpos p)
          end)%Z
  end.

#[export] Instance binary64_float : PyFloat float := {|
  of_int := float_of_Z;
  fadd := PrimFloat.add;
  fsub := PrimFloat.sub;
  fmul := PrimFloat.mul;
  fdiv := float_div_py;
  flt := PrimFloat.ltb;
  fle := PrimFloat.leb;
  int := float_int
|}.

(** *** [floor], for the row formula of the specification

    The code never calls [floor]; the specification states the row under a
    point with it.  An arithmetic has a [floor] when [int] and [floor] fail
    together and, where they return, differ only by the rounding of a
    negative fraction. *)

Definition int_floor_agree (t f : res Z) : Prop :=
  match t, f with
  | Ok t, Ok f => t = f ∨ (t = f + 1 ∧ t ≤ 0)%Z
  | Raise e1, Raise e2 => e1 = e2
  | _, _ => False
  end.

Class PyFloor (F : Type) `{PyFloat F} : Type := {
  floor : F → res Z;
  int_floor : ∀ x, int_floor_agree (int x) (floor x)
}.

Lemma quot_div_agree (a b : Z) :
  (0 < b)%Z →
  (Z.quot a b = a / b ∨ (Z.quot a b = a / b + 1 ∧ Z.quot a b ≤ 0))%Z.
Proof.
  intros Hb. destruct (Z_le_gt_dec 0 a) as [Ha|Ha].
  - left. apply Z.quot_div_nonneg; lia.
  - assert (Z.quot a b = - (- a / b))%Z as Hq.
    { rewrite <- (Z.opp_involutive a) at 1.
      rewrite Z.quot_opp_l by lia.
      rewrite Z.quot_div_nonneg by lia. reflexivity. }
    pose proof (Z.div_mod a b ltac:(lia)) as H1.
    pose proof (Z.mod_pos_bound a b Hb) as H2.
    pose proof (Z.div_mod (- a) b ltac:(lia)) as H3.
    pose proof (Z.mod_pos_bound (- a) b Hb) as H4.
    rewrite Hq. nia.
Qed.

#[export, refine] Instance Q_floor : PyFloor Q := {|
  floor := fun q => Ok (Qfloor q)
|}.
Proof.
  intros [n d]. simpl. unfold Qtrunc. simpl.
  apply quot_div_agree. lia.
Defined.

Definition float_floor (x : float) : res Z :=
  match Prim2SF x with
  | S754_zero _ => Ok 0%Z
  | S754_infinity _ => Raise OverflowError
  | S754_nan => Raise ValueError
  | S754_finite s m e =>
      let m := if s then Zneg m else Zpos m in
      Ok (match e with
          | Z0 => m
          | Zpos p => m * 2 ^ Zpos p
          | Zneg p => m / 2 ^ Zpos p
          end)%Z
  end.

#[export, refine] Instance binary64_floor : PyFloor float := {|
  floor := float_floor
|}.
Proof.
  intros x. simpl. unfold float_int, float_floor.
  destruct (Prim2SF x) as [| | |s m [|p|p]]; simpl; try done; try by left.
  apply quot_div_agree. lia.
Defined.

(** ** State transformers *)

Definition M (S A : Type) : Type := S → S * res A.

Definition ret {S A} (a : A) : M S A := fun s => (s, Ok a).
Definition raise {S A} (e : exn) : M S A := fun s => (s, Raise e).
Definition bind {S A B} (m : M S A) (k : A → M S B) : M S B :=
  fun s =>
    match m s with
    | (s', Ok a) => k a s'
    | (s', Raise e) => (s', Raise e)
    end.
Definition lift {S A} (r : res A) : M S A := fun s => (s, r).
Definition gets {S A} (f : S → A) : M S A := fun s => (s, Ok (f s)).
Definition modify {S} (f : S → S) : M S unit := fun s => (f s, Ok tt).

Notation "'do' x <- m ; k" := (bind m (fun x => k))
  (at level 10, x name, m at level 100, k at level 200) : py_scope.
Notation "'do' ' x <- m ; k" := (bind m (fun x => k))
  (at level 10, x strict pattern, m at level 100, k at level 200) : py_scope.
Notation "m ;; k" := (bind m (fun _ => k))
  (at level 100, k at level 200, right associativity) : py_scope.

(** [for a in l: acc = body(a, acc)] *)
Fixpoint for_each {S A B} (l : list A) (body : A → B → M S B) (acc : B)
  : M S B :=
  match l with
  | [] => ret acc
  | a :: l' => do acc' <- body a acc; for_each l' body acc'
  end.

(** ** Data model *)

Inductive Mode : Type := normal | shift.

#[export] Instance Mode_eq_dec : EqDecision Mode.
Proof. solve_decision. Defined.

#[export] Instance Mode_countable : Countable Mode.
Proof.
  refine (inj_countable' (fun m => match m with normal => false | shift => true end)
                         (fun b => if b then shift else normal) _).
  by intros [].
Defined.

Section VKeyboard.
Context {F : Type} `{PyFloat F}.

(** A key of a layout file: [(displayed_char, internal, special_char, size)]. *)
Record KeyDef : Type := mkKey {
  displayed_char : string;
  internal : string;
  special_char : option string;
  key_size : F
}.

(** A parsed layout file.  The rows are stored under ['%s_%d' % (mode, n)],
    which is one key for each pair [(mode, n)]. *)
Record Layout : Type := mkLayout {
  cols : Z;
  rows : Z;
  lines : gmap (Mode * Z) (list KeyDef)
}.

(** [[(x_hint, y_hint), (w_hint, h_hint)]] and [((kx, ky), (kw, kh))]. *)
Definition HintKey : Type := (F * F) * (F * F).
Definition PixKey : Type := (Z * Z) * (Z * Z).

(** [layout_geometry]: the dict with the keys ['U_HINT'], ['LINE_HINT_%d']
    and ['LINE_%d']. *)
Record Geometry : Type := mkGeometry {
  U_HINT : option (F * F);
  LINE_HINT : gmap Z (list HintKey);
  LINE : gmap Z (list PixKey)
}.

(** What [get_key_at_pos] returns: [[key, (line_nb, key_index)]]. *)
Definition KeyHit : Type := KeyDef * (Z * nat).

Record VKeyboard : Type := mkVKeyboard {
  layout : string;
  available_layouts : gmap string Layout;
  layout_mode : Mode;
  layout_geometry : Geometry;
  have_capslock : bool;
  have_shift : bool;
  active_keys : gmap Z (Z * nat);
  margin_hint : F * F * F * F;           (* mtop, mright, mbottom, mleft *)
  key_margin : F * F * F * F;            (* kmtop, kmright, kmbottom, kmleft *)
  widget_size : F * F;                   (* self.size *)
  log : list string;                     (* Logger.error calls *)
  sent : list KeyDef                     (* self.send calls *)
}.

Definition set_layout (v : string) (self : VKeyboard) : VKeyboard :=
  mkVKeyboard v (available_layouts self) (layout_mode self)
    (layout_geometry self) (have_capslock self) (have_shift self)
    (active_keys self) (margin_hint self) (key_margin self)
    (widget_size self) (log self) (sent self).

Definition set_layout_mode (v : Mode) (self : VKeyboard) : VKeyboard :=
  mkVKeyboard (layout self) (available_layouts self) v
    (layout_geometry self) (have_capslock self) (have_shift self)
    (active_keys self) (margin_hint self) (key_margin self)
    (widget_size self) (log self) (sent self).

Definition set_layout_geometry (v : Geometry) (self : VKeyboard) : VKeyboard :=
  mkVKeyboard (layout self) (available_layouts self) (layout_mode self)
    v (have_capslock self) (have_shift self)
    (active_keys self) (margin_hint self) (key_margin self)
    (widget_size self) (log self) (sent self).

Definition set_have_capslock (v : bool) (self : VKeyboard) : VKeyboard :=
  mkVKeyboard (layout self) (available_layouts self) (layout_mode self)
    (layout_geometry self) v (have_shift self)
    (active_keys self) (margin_hint self) (key_margin self)
    (widget_size self) (log self) (sent self).

Definition set_have_shift (v : bool) (self : VKeyboard) : VKeyboard :=
  mkVKeyboard (layout self) (available_layouts self) (layout_mode self)
    (layout_geometry self) (have_capslock self) v
    (active_keys self) (margin_hint self) (key_margin self)
    (widget_size self) (log self) (sent self).

Definition set_active_keys (v : gmap Z (Z * nat)) (self : VKeyboard)
  : VKeyboard :=
  mkVKeyboard (layout self) (available_layouts self) (layout_mode self)
    (layout_geometry self) (have_capslock self) (have_shift self)
    v (margin_hint self) (key_margin self)
    (widget_size self) (log self) (sent self).

Definition set_margin_hint (v : F * F * F * F) (self : VKeyboard)
  : VKeyboard :=
  mkVKeyboard (layout self) (available_layouts self) (layout_mode self)
    (layout_geometry self) (have_capslock self) (have_shift self)
    (active_keys self) v (key_margin self)
    (widget_size self) (log self) (sent self).

Definition add_log (msg : string) (self : VKeyboard) : VKeyboard :=
  mkVKeyboard (layout self) (available_layouts self) (layout_mode self)
    (layout_geometry self) (have_capslock self) (have_shift self)
    (active_keys self) (margin_hint self) (key_margin self)
    (widget_size self) (log self ++ [msg]) (sent self).

Definition add_sent (k : KeyDef) (self : VKeyboard) : VKeyboard :=
  mkVKeyboard (layout self) (available_layouts self) (layout_mode self)
    (layout_geometry self) (have_capslock self) (have_shift self)
    (active_keys self) (margin_hint self) (key_margin self)
    (widget_size self) (log self) (sent self ++ [k]).

(** In-place updates of the [layout_geometry] dict. *)
Definition set_U_HINT (v : F * F) (self : VKeyboard) : VKeyboard :=
  let g := layout_geometry self in
  set_layout_geometry (mkGeometry (Some v) (LINE_HINT g) (LINE g)) self.

Definition set_LINE_HINT (n : Z) (v : list HintKey) (self : VKeyboard)
  : VKeyboard :=
  let g := layout_geometry self in
  set_layout_geometry (mkGeometry (U_HINT g) (<[n := v]> (LINE_HINT g)) (LINE g))
    self.

Definition set_LINE (n : Z) (v : list PixKey) (self : VKeyboard)
  : VKeyboard :=
  let g := layout_geometry self in
  set_layout_geometry (mkGeometry (U_HINT g) (LINE_HINT g) (<[n := v]> (LINE g)))
    self.

(** [self.available_layouts[self.layout]] *)
Definition current_layout (self : VKeyboard) : res Layout :=
  getitem (available_layouts self) (layout self).

(** [xrange(1, layout_rows + 1)] *)
Definition line_numbers (layout_rows : Z) : list Z :=
  seqZ 1 layout_rows.

(** ** GeometryCompiler *)

(** The inner loop of [refresh_keys_hint] (lines 237-242): the list that
    [layout_geometry[line_hint]] holds once every key is appended. *)
Fixpoint line_hints (uw_hint uh_hint current_y_hint : F)
    (keys : list KeyDef) (current_x_hint : F) : list HintKey :=
  match keys with
  | [] => []
  | key :: keys' =>
      ((current_x_hint, current_y_hint), (key_size key ⊗ uw_hint, uh_hint))
      :: line_hints uw_hint uh_hint current_y_hint keys'
           (current_x_hint ⊕ key_size key ⊗ uw_hint)
  end.

(** Lines 217-220: [(el_hint, eh_hint, ex_hint, ey_hint)], the surface of
    the layout without the external margins. *)
Definition efficient_surface (margin_hint : F * F * F * F) : F * F * F * F :=
  let '(mtop, mright, mbottom, mleft) := margin_hint in
  let el_hint := of_int 1 ⊖ mleft ⊖ mright in
  let eh_hint := of_int 1 ⊖ mtop ⊖ mbottom in
  let ex_hint := of_int 0 ⊕ mleft in
  let ey_hint := of_int 0 ⊕ mbottom in
  (el_hint, eh_hint, ex_hint, ey_hint).

(** The body of the loop over the lines (lines 230-242); the accumulator
    is [current_y_hint]. *)
Definition refresh_keys_hint_line (layout : Layout)
    (ex_hint uw_hint uh_hint : F) (line_nb : Z) (current_y_hint : F)
  : M VKeyboard F :=
  let current_y_hint := current_y_hint ⊖ uh_hint in
  do mode <- gets layout_mode;
  modify (set_LINE_HINT line_nb []) ;;
  let current_x_hint := ex_hint in
  do keys <- lift (getitem (lines layout) (mode, line_nb));
  modify (set_LINE_HINT line_nb
            (line_hints uw_hint uh_hint current_y_hint keys current_x_hint)) ;;
  ret current_y_hint.

Definition refresh_keys_hint : M VKeyboard unit :=
  do layout <- (fun self => lift (current_layout self) self);
  let layout_cols := cols layout in
  let layout_rows := rows layout in
  do margin_hint <- gets margin_hint;
  let '(el_hint, eh_hint, ex_hint, ey_hint) := efficient_surface margin_hint in
  do uw <- lift (of_int 1 ⊘ of_int layout_cols);
  let uw_hint := uw ⊗ el_hint in
  do uh <- lift (of_int 1 ⊘ of_int layout_rows);
  let uh_hint := uh ⊗ eh_hint in
  modify (set_U_HINT (uw_hint, uh_hint)) ;;
  let current_y_hint := ey_hint ⊕ eh_hint in
  for_each (line_numbers layout_rows)
    (refresh_keys_hint_line layout ex_hint uw_hint uh_hint)
    current_y_hint ;;
  ret tt.

(** The body of the inner loop of [refresh_keys] (lines 258-273). *)
Definition pixel_key (w h kmtop kmright kmbottom kmleft : F) (key : HintKey)
  : res PixKey :=
  let '((x_hint, y_hint), (w_hint, h_hint)) := key in
  let kx := x_hint ⊗ w in
  let ky := y_hint ⊗ h in
  let kw := w_hint ⊗ w in
  let kh := h_hint ⊗ h in
  try kx <- int (kx ⊕ kmleft);
  try ky <- int (ky ⊕ kmbottom);
  try kw <- int (kw ⊖ kmleft ⊖ kmright);
  try kh <- int (kh ⊖ kmbottom ⊖ kmtop);
  Ok ((kx, ky), (kw, kh)).

(** The inner loop of [refresh_keys], appending to [llg] in place: the
    keys converted before an exception stay in the list. *)
Fixpoint pixel_line (w h kmtop kmright kmbottom kmleft : F)
    (line_nb : Z) (llg : list PixKey) (keys : list HintKey)
  : M VKeyboard unit :=
  match keys with
  | [] => ret tt
  | key :: keys' =>
      do k <- lift (pixel_key w h kmtop kmright kmbottom kmleft key);
      modify (set_LINE line_nb (llg ++ [k])) ;;
      pixel_line w h kmtop kmright kmbottom kmleft line_nb (llg ++ [k]) keys'
  end.

(** The lookups of [draw_keys]; the canvas and the labels are not kept. *)
Definition draw_keys : M VKeyboard unit :=
  do layout <- (fun self => lift (current_layout self) self);
  let layout_rows := rows layout in
  do layout_geometry <- gets layout_geometry;
  do layout_mode <- gets layout_mode;
  do '(w, h) <- gets widget_size;
  for_each (line_numbers layout_rows)
    (fun line_nb (_ : unit) =>
       lift (getitem (LINE layout_geometry) line_nb) ;; ret tt) tt ;;
  lift (int w) ;;
  for_each (line_numbers layout_rows)
    (fun line_nb (_ : unit) =>
       do llg <- lift (getitem (LINE layout_geometry) line_nb);
       for_each (seq 0 (length llg))
         (fun key_nb (_ : unit) =>
            do line <- lift (getitem (lines layout) (layout_mode, line_nb));
            lift (getindex line key_nb) ;;
            ret tt) tt) tt.

(** The body of the loop over the lines of [refresh_keys] (lines 255-273). *)
Definition refresh_keys_line (w h kmtop kmright kmbottom kmleft : F)
    (line_nb : Z) (_ : unit) : M VKeyboard unit :=
  modify (set_LINE line_nb []) ;;
  do keys <- (fun self =>
                lift (getitem (LINE_HINT (layout_geometry self)) line_nb) self);
  pixel_line w h kmtop kmright kmbottom kmleft line_nb [] keys.

Definition refresh_keys : M VKeyboard unit :=
  do layout <- (fun self => lift (current_layout self) self);
  let layout_rows := rows layout in
  do '(w, h) <- gets widget_size;
  do '(kmtop, kmright, kmbottom, kmleft) <- gets key_margin;
  do '(uw_hint, uh_hint) <-
    (fun self => lift (match U_HINT (layout_geometry self) with
                       | Some u => Ok u
                       | None => Raise LookupError
                       end) self);
  for_each (line_numbers layout_rows)
    (refresh_keys_line w h kmtop kmright kmbottom kmleft) tt ;;
  draw_keys.

(** The lookups of [refresh_active_keys_layer]:
    [layout_geometry['LINE_%d' % line_nb][index]] for every active key. *)
Definition active_key_drawable (g : Geometry) (k : Z * nat) : bool :=
  match LINE g !! k.1 with
  | Some llg => bool_decide (k.2 < length llg)%nat
  | None => false
  end.

Definition refresh_active_keys_layer : M VKeyboard unit :=
  fun self =>
    if forallb (active_key_drawable (layout_geometry self))
         (map_to_list (active_keys self)).*2
    then (self, Ok tt)
    else (self, Raise LookupError).

Definition refresh (force : bool) : M VKeyboard unit :=
  (if force then refresh_keys_hint else ret tt) ;;
  refresh_keys ;;
  refresh_active_keys_layer.

(** ** ModeResolver *)

(** Lines 120-121 of [_update_layout_mode]. *)
Definition layout_mode_of (have_shift have_capslock : bool) : Mode :=
  let mode := negb (Bool.eqb have_capslock have_shift) in
  if mode then shift else normal.

Definition _update_layout_mode : M VKeyboard unit :=
  do have_capslock <- gets have_capslock;
  do have_shift <- gets have_shift;
  let mode := layout_mode_of have_shift have_capslock in
  do layout_mode <- gets layout_mode;
  if bool_decide (mode ≠ layout_mode)
  then modify (set_layout_mode mode) ;; refresh false
  else ret tt.

(** ** LayoutCatalog *)

Definition not_found_message (value : string) : string :=
  "Vkeyboard: <" +:+ value +:+
  "> keyboard layout mentionned in conf file was not found, fallback on qwerty".

Definition _load_layout : M VKeyboard unit :=
  do available_layouts <- gets available_layouts;
  if bool_decide (available_layouts = ∅) then ret tt else
  do value <- gets layout;
  (if bool_decide (value ∉ dom available_layouts)
      && bool_decide (value ≠ "qwerty")
   then modify (add_log (not_found_message value)) ;;
        modify (set_layout "qwerty")
   else ret tt) ;;
  refresh true.

(** [_load_layouts] (lines 139-152).  The directory is given as the list
    that [listdir] returns, each name with what [open] and [loads] give for
    it (a parsed layout, or the exception they raise); [splitext] is
    [os.path.splitext]. *)
Definition set_available_layouts (v : gmap string Layout) (self : VKeyboard)
  : VKeyboard :=
  mkVKeyboard (layout self) v (layout_mode self)
    (layout_geometry self) (have_capslock self) (have_shift self)
    (active_keys self) (margin_hint self) (key_margin self)
    (widget_size self) (log self) (sent self).

Definition _load_layouts (splitext : string → string * string)
    (listdir : list (string * res Layout)) : M VKeyboard unit :=
  for_each listdir
    (fun file (_ : unit) =>
       let '(basename, extension) := splitext file.1 in
       if bool_decide (extension ≠ ".json") then ret tt else
       do layout <- lift file.2;
       modify (fun self =>
                 set_available_layouts
                   (<[basename := layout]> (available_layouts self)) self))
    tt.

(** ** HitTester *)

(** Lines 343-351 of [get_key_at_pos]: the line under [y]. *)
Definition line_at (layout_rows : Z) (mtop mbottom h y : F) : res Z :=
  let e_height := h ⊖ (mbottom ⊕ mtop) ⊗ h in
  try line_height <- e_height ⊘ of_int layout_rows;
  let y := y ⊖ mbottom ⊗ h in
  try q <- y ⊘ line_height;
  try n <- int q;
  let line_nb := (layout_rows - n)%Z in
  let line_nb := if (layout_rows <? line_nb)%Z then layout_rows else line_nb in
  let line_nb := if (line_nb <? 1)%Z then 1%Z else line_nb in
  Ok line_nb.

(** Lines 354-361: the index of the first key of the line whose interval
    holds [x_hint]; [None] stands for [key_index == '']. *)
Fixpoint find_key (x_hint : F) (keys : list HintKey) (current_key_index : nat)
  : option nat :=
  match keys with
  | [] => None
  | key :: keys' =>
      if (key.1.1 ≼? x_hint) && (x_hint ≺? key.1.1 ⊕ key.2.1)
      then Some current_key_index
      else find_key x_hint keys' (S current_key_index)
  end.

Definition get_key_at_pos (self : VKeyboard) (x y : F) : res (option KeyHit) :=
  let '(w, h) := widget_size self in
  try x_hint <- x ⊘ w;
  let layout_geometry := layout_geometry self in
  try layout <- current_layout self;
  let layout_rows := rows layout in
  let '(mtop, mright, mbottom, mleft) := margin_hint self in
  try line_nb <- line_at layout_rows mtop mbottom h y;
  try keys <- getitem (LINE_HINT layout_geometry) line_nb;
  match find_key x_hint keys 0 with
  | None => Ok None
  | Some key_index =>
      try line <- getitem (lines layout) (layout_mode self, line_nb);
      try key <- getindex line key_index;
      Ok (Some (key, (line_nb, key_index)))
  end.

Definition touch_is_in_margin (self : VKeyboard) (x y : F) : res bool :=
  let '(w, h) := widget_size self in
  let '(mtop, mright, mbottom, mleft) := margin_hint self in
  try x_hint <- x ⊘ w;
  try y_hint <- y ⊘ h;
  if (mleft ≺? x_hint) && (x_hint ≺? of_int 1 ⊖ mright)
     && (mbottom ≺? y_hint) && (y_hint ≺? of_int 1 ⊖ mtop)
  then Ok false
  else Ok true.

(** ** KeyStateMachine *)

(** A touch, as far as the keyboard reads and writes it.  [Scatter], the
    base class, is not part of this file: whether its [on_touch_down]
    grabs a touch that the keyboard passes on to it is taken as given with
    the touch, like the result of [collide_point]. *)
Record Touch : Type := mkTouch {
  uid : Z;                       (* touch.uid *)
  pos : F * F;                   (* touch.pos through self.to_local *)
  collides : bool;               (* self.collide_point at touch.pos *)
  ud : option KeyHit;            (* touch.ud[self.uid]['key'], when set *)
  grab_list : bool;              (* self in touch.grab_list *)
  grab_current : bool;           (* touch.grab_current is self *)
  scatter_grabs : bool           (* Scatter.on_touch_down grabs the touch *)
}.

Definition set_ud (key : KeyHit) (touch : Touch) : Touch :=
  mkTouch (uid touch) (pos touch) (collides touch) (Some key)
    (grab_list touch) (grab_current touch) (scatter_grabs touch).

Definition grab (touch : Touch) : Touch :=
  mkTouch (uid touch) (pos touch) (collides touch) (ud touch)
    true (grab_current touch) (scatter_grabs touch).

(** [super(VKeyboard, self).on_touch_down(touch)] (line 454), as far as
    the fields kept here go: the base class knows none of the keyboard's
    own fields and records no key on the touch; it may grab the touch for
    the widget.  The value it returns is dropped by the caller. *)
Definition scatter_on_touch_down (touch : Touch) : M VKeyboard Touch :=
  ret (if scatter_grabs touch then grab touch else touch).

(** [special_char in (...)]; [None] is in no tuple of strings. *)
Definition special_in (special_char : option string) (names : list string)
  : bool :=
  match special_char with
  | Some c => bool_decide (c ∈ names)
  | None => false
  end.

(** [special_char == name] *)
Definition special_is (special_char : option string) (name : string) : bool :=
  bool_decide (special_char = Some name).

(** [send] hands the key to the target widget; the call is recorded. *)
Definition send (key_data : KeyDef) : M VKeyboard unit :=
  modify (add_sent key_data).

(** [change_layout] is [assert(0)]. *)
Definition change_layout : M VKeyboard unit := raise AssertionError.

Definition process_key_on (touch : Touch) : M VKeyboard Touch :=
  let '(x, y) := pos touch in
  do key <- (fun self => lift (get_key_at_pos self x y) self);
  match key with
  | None => ret touch
  | Some key =>
      let key_data := key.1 in
      let special_char := special_char key_data in
      let touch := set_ud key touch in
      (if negb (special_in special_char
                  ["shift_L"; "shift_R"; "capslock"; "layout"])
       then send key_data else ret tt) ;;
      let uid := uid touch in
      do uid <-
        (if special_is special_char "capslock" then
           do have_capslock <- gets have_capslock;
           modify (set_have_capslock (negb have_capslock)) ;;
           ret (-1)%Z
         else if special_in special_char ["shift_L"; "shift_R"] then
           modify (set_have_shift true) ;; ret uid
         else if special_is special_char "layout" then
           change_layout ;; ret uid
         else ret uid);
      modify (fun self =>
                set_active_keys (<[uid := key.2]> (active_keys self)) self) ;;
      refresh_active_keys_layer ;;
      ret touch
  end.

Definition process_key_up (touch : Touch) : M VKeyboard unit :=
  let uid := uid touch in
  match ud touch with
  | None => ret tt
  | Some (key_data, key) =>
      let special_char := special_char key_data in
      let uid := if special_is special_char "capslock" then (-1)%Z else uid in
      do held <- gets (fun self => bool_decide (uid ∈ dom (active_keys self)));
      if held then
        modify (fun self => set_active_keys (delete uid (active_keys self)) self) ;;
        (if special_in special_char ["shift_L"; "shift_R"]
         then modify (set_have_shift false) else ret tt) ;;
        do have_capslock <- gets have_capslock;
        (if special_is special_char "capslock" && have_capslock
         then modify (fun self =>
                        set_active_keys (<[(-1)%Z := key]> (active_keys self))
                          self)
         else ret tt) ;;
        refresh_active_keys_layer
      else ret tt
  end.

(** [on_touch_down]; the result is the touch and whether the handler
    returned [True].  On a margin the touch goes to Scatter's own handler
    (line 454). *)
Definition on_touch_down (touch : Touch) : M VKeyboard (Touch * bool) :=
  let '(x, y) := pos touch in
  if negb (collides touch) then ret (touch, false) else
  do in_margin <- (fun self => lift (touch_is_in_margin self x y) self);
  if negb in_margin then
    do touch <- process_key_on touch;
    ret (grab touch, true)
  else
    do touch <- scatter_on_touch_down touch;
    ret (touch, true).

(** [on_touch_up]; Scatter's own handler (line 460) runs last and writes
    none of the fields kept here. *)
Definition on_touch_up (touch : Touch) : M VKeyboard unit :=
  if grab_current touch then process_key_up touch else ret tt.

(** ** The event loop

    Touch events arrive one at a time.  A touch exists from its touch-down
    to its touch-up; its id is fresh and is never the reserved id [-1].  A
    touch-down comes with the point, with what [collide_point] says of it
    and with whether Scatter's handler would grab the touch.  The [Clock]
    trigger bound to [have_shift] and [have_capslock] runs
    [_update_layout_mode] between two events. *)

Record World : Type := mkWorld {
  keyboard : VKeyboard;
  touches : gmap Z Touch
}.

Inductive Event : Type :=
| TouchDown (id : Z) (p : F * F) (inside : bool) (grabbed : bool)
| TouchUp (id : Z)
| Frame.

(** One event whose handler returns; [None] when the event cannot happen
    in this world or the handler raises. *)
Definition step (w : World) (ev : Event) : option World :=
  match ev with
  | TouchDown id p inside grabbed =>
      if bool_decide (id ≠ (-1)%Z) && bool_decide (touches w !! id = None)
      then
        match on_touch_down (mkTouch id p inside None false false grabbed)
                (keyboard w) with
        | (self, Ok (touch, _)) =>
            Some (mkWorld self (<[id := touch]> (touches w)))
        | (_, Raise _) => None
        end
      else None
  | TouchUp id =>
      match touches w !! id with
      | Some touch =>
          let touch := mkTouch (uid touch) (pos touch) (collides touch)
                         (ud touch) (grab_list touch) (grab_list touch)
                         (scatter_grabs touch) in
          match on_touch_up touch (keyboard w) with
          | (self, Ok _) => Some (mkWorld self (delete id (touches w)))
          | (_, Raise _) => None
          end
      | None => None
      end
  | Frame =>
      match _update_layout_mode (keyboard w) with
      | (self, Ok _) => Some (mkWorld self (touches w))
      | (_, Raise _) => None
      end
  end.

Fixpoint run (w : World) (evs : list Event) : option World :=
  match evs with
  | [] => Some w
  | ev :: evs' =>
      match step w ev with
      | Some w' => run w' evs'
      | None => None
      end
  end.

End VKeyboard.

(** ** The specification's words, for comparison with the code *)

(** The row formula of the specification (HitTester, step 3):
    [row = rows - floor((y - margin_bottom*height) / row_height_px)],
    clamped into [1, rows]; the row height in pixels is the drawable
    height over [rows]. *)
Definition clamp (lo hi v : Z) : Z := Z.max lo (Z.min hi v).

Definition spec_row {F} `{PyFloor F} (rows : Z)
    (margin_top margin_bottom height y : F) : res Z :=
  try row_height_px <-
    (height ⊖ (margin_bottom ⊕ margin_top) ⊗ height) ⊘ of_int rows;
  try q <- (y ⊖ margin_bottom ⊗ height) ⊘ row_height_px;
  try f <- floor q;
  Ok (clamp 1 rows (rows - f)).

(** The centre of a key's pixel rectangle. *)
Definition rect_center (key : (Z * Z) * (Z * Z)) : Q * Q :=
  let '((kx, ky), (kw, kh)) := key in
  (inject_Z kx + inject_Z kw / 2, inject_Z ky + inject_Z kh / 2)%Q.

(** * Predicates and sample keyboards of the statements *)

(** ** Runs of state transformers *)

(** [m] moves the state along [R], whether it returns or raises. *)
Definition preserves {S A} (R : S → S → Prop) (m : M S A) : Prop :=
  ∀ s, R s (m s).1.

(** Two results are both values, or both the same exception. *)
Definition same_outcome {A B} (r1 : res A) (r2 : res B) : Prop :=
  match r1, r2 with
  | Ok _, Ok _ => True
  | Raise e1, Raise e2 => e1 = e2
  | _, _ => False
  end.

(** Two runs end in related states, both with related values or both with
    the same exception. *)
Definition rel_run {S A B} (R : S → S → Prop) (Q : A → B → Prop)
    (p1 : S * res A) (p2 : S * res B) : Prop :=
  R p1.1 p2.1 ∧
  match p1.2, p2.2 with
  | Ok a, Ok b => Q a b
  | Raise e1, Raise e2 => e1 = e2
  | _, _ => False
  end.

(** The relation that holds of any two values. *)
Definition any {A B} (_ : A) (_ : B) : Prop := True.

(** ** States of the keyboard *)

Section Predicates.
Context {F : Type} `{PyFloat F}.
Implicit Types (self : @VKeyboard F) (touch : @Touch F) (w : @World F).

(** Every field but [layout_geometry] is the same. *)
Definition geometry_only self self' : Prop :=
  self' = set_layout_geometry (layout_geometry self') self.

(** The same layouts, the same selected layout and the same mode. *)
Definition same_layout self1 self2 : Prop :=
  available_layouts self1 = available_layouts self2
  ∧ layout self1 = layout self2
  ∧ layout_mode self1 = layout_mode self2.

(** [current_y_hint] after [n] turns of the loop over the lines. *)
Fixpoint line_y (uh_hint current_y_hint : F) (n : nat) : F :=
  match n with
  | O => current_y_hint
  | S n' => line_y uh_hint (current_y_hint ⊖ uh_hint) n'
  end.

(** The id under which a key is stored in [active_keys]. *)
Definition active_id (touch : @Touch F) (key_data : @KeyDef F) : Z :=
  if special_is (special_char key_data) "capslock" then (-1)%Z else uid touch.

(** The state that [process_key_up] leaves for a touch that holds [key]. *)
Definition released (touch : @Touch F) (key : @KeyHit F) self : VKeyboard :=
  let special_char := special_char key.1 in
  let uid := active_id touch key.1 in
  if bool_decide (uid ∈ dom (active_keys self)) then
    let self := set_active_keys (delete uid (active_keys self)) self in
    let self :=
      if special_in special_char ["shift_L"; "shift_R"]
      then set_have_shift false self else self in
    if special_is special_char "capslock" && have_capslock self
    then set_active_keys (<[(-1)%Z := key.2]> (active_keys self)) self
    else self
  else self.

(** The touch went down on a capslock key, or on a shift key. *)
Definition is_capslock_touch touch : bool :=
  match ud touch with
  | Some key => special_is (special_char key.1) "capslock"
  | None => false
  end.

Definition is_shift_touch touch : bool :=
  match ud touch with
  | Some key => special_in (special_char key.1) ["shift_L"; "shift_R"]
  | None => false
  end.

(** The keyboard of a program that has just started: no key is down. *)
Definition quiet self : Prop :=
  active_keys self = ∅ ∧ have_capslock self = false ∧ have_shift self = false.

Record key_state_inv w : Prop := {
  inv_uid : ∀ id touch,
    touches w !! id = Some touch → uid touch = id ∧ id ≠ (-1)%Z;
  inv_held : ∀ id touch key,
    touches w !! id = Some touch → ud touch = Some key →
    grab_list touch = true ∧
    (is_capslock_touch touch = false →
     active_keys (keyboard w) !! id = Some key.2);
  inv_owner : ∀ id,
    is_Some (active_keys (keyboard w) !! id) → id ≠ (-1)%Z →
    ∃ touch, touches w !! id = Some touch ∧ is_Some (ud touch)
             ∧ is_capslock_touch touch = false;
  inv_capslock_on :
    have_capslock (keyboard w) = true →
    is_Some (active_keys (keyboard w) !! (-1)%Z);
  inv_capslock_off :
    is_Some (active_keys (keyboard w) !! (-1)%Z) →
    have_capslock (keyboard w) = false →
    ∃ id touch, touches w !! id = Some touch ∧ is_capslock_touch touch = true;
  inv_shift :
    have_shift (keyboard w) = true →
    ∃ id touch, touches w !! id = Some touch ∧ is_shift_touch touch = true
}.

End Predicates.

(** The widths of the keys of a line of hints. *)
Definition hint_widths {F} (hints : list (@HintKey F)) : list F :=
  (λ key, key.2.1) <$> hints.

(** [pixel_key] in exact arithmetic, where [int] never raises. *)
Definition pixel_of (w h kmtop kmright kmbottom kmleft : Q)
    (key : @HintKey Q) : PixKey :=
  ((Qtrunc (key.1.1 * w + kmleft), Qtrunc (key.1.2 * h + kmbottom)),
   (Qtrunc (key.2.1 * w - kmleft - kmright),
    Qtrunc (key.2.2 * h - kmbottom - kmtop))).

(** ** Sample keyboards *)

Section Samples.
Context {F : Type} `{PyFloat F}.

Definition key (text : string) (special : option string) (width : Z)
  : @KeyDef F :=
  mkKey text text special (of_int width).

(** Two lines of four columns: [a b capslock] above [shift_L c shift_R]. *)
Definition demo_layout : @Layout F :=
  mkLayout 4 2
    {[ (normal, 1%Z) := [key "a" None 1; key "b" None 1;
                         key "caps" (Some "capslock") 2];
       (normal, 2%Z) := [key "shift" (Some "shift_L") 1; key "c" None 2;
                         key "shift" (Some "shift_R") 1];
       (shift, 1%Z) := [key "A" None 1; key "B" None 1;
                        key "caps" (Some "capslock") 2];
       (shift, 2%Z) := [key "shift" (Some "shift_L") 1; key "C" None 2;
                        key "shift" (Some "shift_R") 1] ]}.

(** A keyboard before its first refresh. *)
Definition new_keyboard (name : string) (layouts : gmap string (@Layout F))
    (margin_hint key_margin : F * F * F * F) (size : F * F) : @VKeyboard F :=
  mkVKeyboard name layouts normal (mkGeometry None ∅ ∅) false false ∅
    margin_hint key_margin size [] [].

Definition no_margin : F * F * F * F :=
  (of_int 0, of_int 0, of_int 0, of_int 0).

(** The demo layout on 8 by 8 pixels, without margins, once refreshed. *)
Definition demo : @VKeyboard F :=
  (refresh true
     (new_keyboard "qwerty" {[ "qwerty" := demo_layout ]} no_margin no_margin
        (of_int 8, of_int 8))).1.

Definition at_point (x y : Z) : F * F := (of_int x, of_int y).

End Samples.

(** One line of ten keys of width 1 in a layout of ten columns. *)
Definition ten_keys_layout {F} `{PyFloat F} : @Layout F :=
  mkLayout 10 1 {[ (normal, 1%Z) := replicate 10 (key "k" None 1) ]}.

Definition ten_keys_keyboard : @VKeyboard float :=
  new_keyboard "qwerty" {[ "qwerty" := ten_keys_layout ]}
    no_margin no_margin (at_point 700 200).

(** The demo layout with a top margin of 2 (twice the widget height). *)
Definition top_margin_two_keyboard : @VKeyboard float :=
  new_keyboard "qwerty" {[ "qwerty" := demo_layout ]}
    (2, 0, 0, 0)%float no_margin (at_point 8 8).

(** One line of four keys of width 1 on 7 by 8 pixels, without margins:
    every key is 1.75 pixels wide. *)
Definition four_keys_layout {F} `{PyFloat F} : @Layout F :=
  mkLayout 4 1 {[ (normal, 1%Z) := [key "a" None 1; key "b" None 1;
                                    key "c" None 1; key "d" None 1] ]}.

Definition narrow_keyboard {F} `{PyFloat F} : @VKeyboard F :=
  (refresh true
     (new_keyboard "qwerty" {[ "qwerty" := four_keys_layout ]}
        no_margin no_margin (at_point 7 8))).1.

(** The demo layout with a margin of a quarter on every side. *)
Definition quarter_margin_demo : @VKeyboard float :=
  (refresh true
     (new_keyboard "qwerty" {[ "qwerty" := demo_layout ]}
        (0.25, 0.25, 0.25, 0.25)%float no_margin (at_point 8 8))).1.

(** A keyboard that found no layout file. *)
Definition no_layout_keyboard : @VKeyboard float :=
  new_keyboard "doesnotexist" ∅ no_margin no_margin (at_point 8 8).

(** A keyboard that found [qwerty.json] only and is asked for another. *)
Definition qwerty_only_keyboard : @VKeyboard float :=
  new_keyboard "doesnotexist" {[ "qwerty" := demo_layout ]}
    no_margin no_margin (at_point 8 8).

(** Capslock pressed, released and pressed again. *)
Definition capslock_twice : list (@Event float) :=
  [TouchDown 1 (at_point 5 6) true true; TouchUp 1;
   TouchDown 2 (at_point 5 6) true true].

(** shift_L and shift_R pressed one after the other. *)
Definition two_shifts : list (@Event float) :=
  [TouchDown 1 (at_point 1 1) true true;
   TouchDown 2 (at_point 7 1) true true].

(** ** Further predicates and samples *)

Section Predicates_more.
Context {F : Type} `{PyFloat F}.
Implicit Types (self : @VKeyboard F) (touch : @Touch F).

(** The fields that the two key handlers never write. *)
Definition keys_only self self' : Prop :=
  layout self' = layout self
  ∧ available_layouts self' = available_layouts self
  ∧ layout_mode self' = layout_mode self
  ∧ layout_geometry self' = layout_geometry self
  ∧ margin_hint self' = margin_hint self
  ∧ key_margin self' = key_margin self
  ∧ widget_size self' = widget_size self
  ∧ log self' = log self.

(** The test of line 357: [x_hint] lies in the interval of the key. *)
Definition holds_x (x_hint : F) (key : @HintKey F) : bool :=
  (key.1.1 ≼? x_hint) && (x_hint ≺? key.1.1 ⊕ key.2.1).

(** Every field but the pixel rectangles [LINE_n] is the same. *)
Definition hints_kept self self' : Prop :=
  geometry_only self self'
  ∧ U_HINT (layout_geometry self') = U_HINT (layout_geometry self)
  ∧ LINE_HINT (layout_geometry self') = LINE_HINT (layout_geometry self).

(** The lines that the loop of [refresh_keys] has converted. *)
Definition converted (w h kt kr kb kl : F) (l : list Z) self : Prop :=
  ∀ n, n ∈ l →
    ∃ hints pix,
      LINE_HINT (layout_geometry self) !! n = Some hints
      ∧ Forall2 (λ key p, pixel_key w h kt kr kb kl key = Ok p) hints pix
      ∧ LINE (layout_geometry self) !! n = Some pix.

End Predicates_more.

(** A line with a character key and a "layout" key, on 8 by 8 pixels. *)
Definition menu_keyboard : @VKeyboard float :=
  (refresh true
     (new_keyboard "qwerty"
        {[ "qwerty" := mkLayout 2 1
             {[ (normal, 1%Z) := [key "a" None 1;
                                  key "layouts" (Some "layout") 1] ]} ]}
        no_margin no_margin (at_point 8 8))).1.

(** A directory listing for [_load_layouts], with two files that are no
    layouts, and [os.path.splitext] on the names used here. *)
Definition sample_splitext (fname : string) : string * string :=
  if bool_decide (fname = "qwerty.json") then ("qwerty", ".json")
  else if bool_decide (fname = "broken.json") then ("broken", ".json")
  else if bool_decide (fname = "azerty.json") then ("azerty", ".json")
  else if bool_decide (fname = "notes.txt") then ("notes", ".txt")
  else (fname, "").

Definition sample_listdir : list (string * res (@Layout float)) :=
  [("notes.txt", Raise ValueError);
   ("azerty.json", Ok demo_layout);
   ("qwerty.json", Ok four_keys_layout);
   ("README", Raise LookupError)].

(** A layout file with no column, and one that announces two rows and
    holds the first only. *)
Definition zero_cols_keyboard : @VKeyboard float :=
  new_keyboard "qwerty" {[ "qwerty" := mkLayout 0 1 ∅ ]}
    no_margin no_margin (at_point 8 8).

Definition missing_line_keyboard : @VKeyboard float :=
  new_keyboard "qwerty"
    {[ "qwerty" := mkLayout 2 2 {[ (normal, 1%Z) := [key "a" None 1;
                                                     key "b" None 1] ]} ]}
    no_margin no_margin (at_point 8 8).

Section Drawable.
Context {F : Type} `{PyFloat F}.
Implicit Types (self : @VKeyboard F) (w : @World F).

(** Every pixel line has a hint line of the same length. *)
Definition aligned (g : @Geometry F) : Prop :=
  ∀ n llg, LINE g !! n = Some llg →
    ∃ hints, LINE_HINT g !! n = Some hints ∧ length hints = length llg.

(** The keys that [refresh_active_keys_layer] may have to draw, now or
    after a touch-up, all have a rectangle. *)
Record drawable_inv w : Prop := {
  inv_aligned : aligned (layout_geometry (keyboard w));
  inv_active : ∀ id k,
    active_keys (keyboard w) !! id = Some k →
    active_key_drawable (layout_geometry (keyboard w)) k = true;
  inv_recorded : ∀ id touch key,
    touches w !! id = Some touch → ud touch = Some key →
    active_key_drawable (layout_geometry (keyboard w)) key.2 = true
}.

End Drawable.

(** [aligned], as a test on the pixel lines of a geometry. *)
Definition aligned_check {F} (g : @Geometry F) : bool :=
  forallb (λ line : Z * list PixKey,
             match LINE_HINT g !! line.1 with
             | Some hints => bool_decide (length hints = length line.2)
             | None => false
             end)
    (map_to_list (LINE g)).

(** * Theorems *)

(** ** Reasoning about state transformers *)

Section Transformers.
Context {S : Type}.

Lemma bind_Ok {A B} (m : M S A) (k : A → M S B) s s' b :
  bind m k s = (s', Ok b) →
  ∃ s1 a, m s = (s1, Ok a) ∧ k a s1 = (s', Ok b).
Proof.
  unfold bind. destruct (m s) as [s1 [a|e]]; [eauto | discriminate].
Qed.

Context (R : S → S → Prop) `{!Reflexive R} `{!Transitive R}.

Lemma preserves_ret {A} (a : A) : preserves R (ret a).
Proof. intros s. simpl. reflexivity. Qed.

Lemma preserves_raise {A} e : preserves R (raise (A := A) e).
Proof. intros s. simpl. reflexivity. Qed.

Lemma preserves_lift {A} (r : res A) : preserves R (lift r).
Proof. intros s. simpl. reflexivity. Qed.

Lemma preserves_gets {A} (f : S → A) : preserves R (gets f).
Proof. intros s. simpl. reflexivity. Qed.

Lemma preserves_read {A} (f : S → res A) :
  preserves R (fun s => lift (f s) s).
Proof. intros s. simpl. reflexivity. Qed.

Lemma preserves_modify (f : S → S) :
  (∀ s, R s (f s)) → preserves R (modify f).
Proof. intros Hf s. apply Hf. Qed.

Lemma preserves_bind {A B} (m : M S A) (k : A → M S B) :
  preserves R m → (∀ a, preserves R (k a)) → preserves R (bind m k).
Proof.
  intros Hm Hk s. unfold bind. specialize (Hm s).
  destruct (m s) as [s1 [a|e]]; simpl in *; [|done].
  etrans; [exact Hm | apply Hk].
Qed.

Lemma preserves_for_each {A B} (l : list A) (body : A → B → M S B) acc :
  (∀ a b, preserves R (body a b)) → preserves R (for_each l body acc).
Proof.
  intros Hbody. revert acc.
  induction l as [|a l IH]; intros acc; simpl.
  - apply preserves_ret.
  - apply preserves_bind; [apply Hbody | intros b; apply IH].
Qed.

Lemma preserves_if {A} (c : bool) (m1 m2 : M S A) :
  preserves R m1 → preserves R m2 → preserves R (if c then m1 else m2).
Proof. by destruct c. Qed.

End Transformers.

(** ** What the geometry compiler leaves alone *)

Section Frame.
Context {F : Type} `{PyFloat F}.
Implicit Types self : @VKeyboard F.

#[export] Instance geometry_only_refl : Reflexive (geometry_only (F := F)).
Proof. by intros []. Qed.

#[export] Instance geometry_only_trans : Transitive (geometry_only (F := F)).
Proof.
  intros s1 s2 s3 H1 H2. unfold geometry_only in *.
  rewrite H2, H1. by destruct s1.
Qed.

Lemma geometry_only_set g self : geometry_only self (set_layout_geometry g self).
Proof. by destruct self. Qed.

Ltac preserves_tac :=
  repeat first
    [ progress intros
    | apply preserves_bind
    | apply preserves_for_each
    | apply preserves_if
    | apply preserves_ret
    | apply preserves_raise
    | apply preserves_lift
    | apply preserves_gets
    | apply (preserves_read geometry_only)
    | apply preserves_modify; intros; apply geometry_only_set
    | apply _
    | match goal with |- preserves _ (let '(_, _) := ?p in _) =>
        destruct p end
    | match goal with |- preserves _ (match ?p with _ => _ end) =>
        destruct p end ].

Lemma pixel_line_frame w h kt kr kb kl n llg keys :
  preserves geometry_only (pixel_line w h kt kr kb kl n llg keys).
Proof.
  revert llg. induction keys as [|k keys IH]; intros llg; simpl.
  - preserves_tac.
  - preserves_tac. apply IH.
Qed.

Lemma refresh_keys_hint_frame : preserves geometry_only refresh_keys_hint.
Proof. unfold refresh_keys_hint. preserves_tac. Qed.

Lemma draw_keys_frame : preserves geometry_only draw_keys.
Proof. unfold draw_keys. preserves_tac. Qed.

Lemma refresh_keys_frame : preserves geometry_only refresh_keys.
Proof.
  unfold refresh_keys. preserves_tac. apply pixel_line_frame.
Qed.

Lemma refresh_active_keys_layer_state self :
  (refresh_active_keys_layer self).1 = self.
Proof. unfold refresh_active_keys_layer. by case_match. Qed.

Lemma refresh_active_keys_layer_frame :
  preserves (geometry_only (F := F)) refresh_active_keys_layer.
Proof. intros self. rewrite refresh_active_keys_layer_state. reflexivity. Qed.

Lemma refresh_frame force : preserves geometry_only (refresh force).
Proof.
  unfold refresh.
  apply preserves_bind; [apply _ | |intros _; apply preserves_bind; [apply _ | |]].
  - destruct force; [apply refresh_keys_hint_frame | preserves_tac].
  - apply refresh_keys_frame.
  - intros _. apply refresh_active_keys_layer_frame.
Qed.

End Frame.

Section Frame_fields.
Context {F : Type} `{PyFloat F}.
Implicit Types self : @VKeyboard F.

Lemma geometry_only_fields self self' :
  geometry_only self self' →
  layout self' = layout self ∧
  available_layouts self' = available_layouts self ∧
  layout_mode self' = layout_mode self ∧
  have_capslock self' = have_capslock self ∧
  have_shift self' = have_shift self ∧
  active_keys self' = active_keys self ∧
  margin_hint self' = margin_hint self ∧
  key_margin self' = key_margin self ∧
  widget_size self' = widget_size self ∧
  log self' = log self ∧
  sent self' = sent self.
Proof. intros ->. by destruct self. Qed.

Lemma _update_layout_mode_sets self :
  layout_mode (_update_layout_mode self).1
  = layout_mode_of (have_shift self) (have_capslock self).
Proof.
  unfold _update_layout_mode, bind, gets. simpl.
  case_bool_decide as Hne; simpl.
  - pose proof (refresh_frame false
      (set_layout_mode (layout_mode_of (have_shift self) (have_capslock self))
         self)) as Hfr.
    apply geometry_only_fields in Hfr as (_ & _ & Hm & _).
    unfold modify. simpl.
    destruct (refresh false _) as [s' [[]|e]]; simpl in *; by rewrite Hm.
  - unfold ret. simpl. congruence.
Qed.

Lemma _load_layout_empty self :
  available_layouts self = ∅ → _load_layout self = (self, Ok tt).
Proof.
  intros He. unfold _load_layout, bind, gets. simpl.
  by rewrite bool_decide_eq_true_2.
Qed.

Lemma _load_layout_state self :
  available_layouts self ≠ ∅ →
  geometry_only
    (if bool_decide (layout self ∉ dom (available_layouts self))
        && bool_decide (layout self ≠ "qwerty")
     then set_layout "qwerty" (add_log (not_found_message (layout self)) self)
     else self)
    (_load_layout self).1.
Proof.
  intros Hne. unfold _load_layout, bind at 1, gets at 1. simpl.
  rewrite (bool_decide_eq_false_2 (available_layouts self = ∅)) by done.
  unfold bind at 1, gets at 1. simpl.
  destruct (_ && _); unfold bind, modify, ret; simpl.
  - pose proof (refresh_frame true
      (set_layout "qwerty" (add_log (not_found_message (layout self)) self))) as Hfr.
    by destruct (refresh true _) as [s' [[]|e]].
  - pose proof (refresh_frame true self) as Hfr.
    by destruct (refresh true _) as [s' [[]|e]].
Qed.

End Frame_fields.

(** ** KeyStateMachine: what the two handlers do to the state *)

Section Key_state.
Context {F : Type} `{PyFloat F}.
Implicit Types (self : @VKeyboard F) (touch : @Touch F) (w : @World F).

Lemma refresh_active_keys_layer_cases self :
  refresh_active_keys_layer self = (self, Ok tt)
  ∨ refresh_active_keys_layer self = (self, Raise LookupError).
Proof. unfold refresh_active_keys_layer. case_match; auto. Qed.

Lemma process_key_on_None touch self :
  get_key_at_pos self (pos touch).1 (pos touch).2 = Ok None →
  process_key_on touch self = (self, Ok touch).
Proof.
  intros Hk. unfold process_key_on. destruct (pos touch) as [x y].
  unfold bind, lift. simpl in *. by rewrite Hk.
Qed.

Lemma process_key_on_Raise touch self e :
  get_key_at_pos self (pos touch).1 (pos touch).2 = Raise e →
  process_key_on touch self = (self, Raise e).
Proof.
  intros Hk. unfold process_key_on. destruct (pos touch) as [x y].
  unfold bind, lift. simpl in *. by rewrite Hk.
Qed.

Lemma process_key_on_Some touch self key self' touch' :
  get_key_at_pos self (pos touch).1 (pos touch).2 = Ok (Some key) →
  process_key_on touch self = (self', Ok touch') →
  touch' = set_ud key touch ∧
  active_keys self'
  = <[active_id touch key.1 := key.2]> (active_keys self) ∧
  have_capslock self'
  = (if special_is (special_char key.1) "capslock"
     then negb (have_capslock self) else have_capslock self) ∧
  have_shift self'
  = (if special_is (special_char key.1) "capslock" then have_shift self
     else if special_in (special_char key.1) ["shift_L"; "shift_R"]
          then true else have_shift self).
Proof.
  intros Hk. unfold process_key_on, active_id.
  destruct (pos touch) as [x y]. simpl in Hk.
  unfold bind at 1, lift at 1. rewrite Hk.
  destruct key as [key_data place]. simpl.
  unfold send, change_layout, bind, modify, gets, ret, raise.
  destruct (negb (special_in _ _)); simpl;
    destruct (special_is (special_char key_data) "capslock"); simpl;
    try destruct (special_in (special_char key_data) ["shift_L"; "shift_R"]);
    simpl;
    try destruct (special_is (special_char key_data) "layout"); simpl;
    try discriminate;
    match goal with
    | |- context [refresh_active_keys_layer ?s] =>
        destruct (refresh_active_keys_layer_cases s) as [-> | ->]
    end;
    intros [= <- <-]; by destruct self.
Qed.

Lemma process_key_up_state touch self :
  (process_key_up touch self).1
  = match ud touch with
    | Some key => released touch key self
    | None => self
    end.
Proof.
  unfold process_key_up, released, active_id.
  destruct (ud touch) as [[key_data place]|]; [|done]. simpl.
  unfold bind, modify, gets, ret. simpl.
  case_bool_decide; [|done]. simpl.
  destruct (special_in _ _); simpl;
    destruct (special_is _ _ && _); simpl;
    apply refresh_active_keys_layer_state.
Qed.

Lemma process_key_up_no_key touch self :
  ud touch = None → process_key_up touch self = (self, Ok tt).
Proof. unfold process_key_up. by intros ->. Qed.

End Key_state.

(** ** The event loop: invariants of the key state *)

Section Event_loop.
Context {F : Type} `{PyFloat F}.
Implicit Types (self : @VKeyboard F) (touch : @Touch F) (w : @World F).

Lemma key_state_inv_init self :
  quiet self → key_state_inv (mkWorld self ∅).
Proof.
  intros (Ha & Hc & Hs). split; simpl.
  - intros ?? Hl. by rewrite lookup_empty in Hl.
  - intros ??? Hl. by rewrite lookup_empty in Hl.
  - intros id [? Hl]. by rewrite Ha, lookup_empty in Hl.
  - by rewrite Hc.
  - intros [? Hl]. by rewrite Ha, lookup_empty in Hl.
  - by rewrite Hs.
Qed.

(** *** What one event does *)

Lemma on_touch_down_cases touch self self' touch' ret_val :
  on_touch_down touch self = (self', Ok (touch', ret_val)) →
  (self' = self ∧ ud touch' = ud touch ∧ uid touch' = uid touch)
  ∨ (self' = self ∧ ud touch' = ud touch ∧ uid touch' = uid touch
     ∧ get_key_at_pos self (pos touch).1 (pos touch).2 = Ok None)
  ∨ ∃ key self1 touch1,
      get_key_at_pos self (pos touch).1 (pos touch).2 = Ok (Some key)
      ∧ process_key_on touch self = (self1, Ok touch1)
      ∧ self' = self1 ∧ touch' = grab touch1.
Proof.
  unfold on_touch_down. destruct (pos touch) as [x y] eqn:Hpos. simpl.
  destruct (collides touch); simpl; [|intros [= <- <- <-]; by left].
  unfold bind at 1, lift at 1.
  destruct (touch_is_in_margin self x y) as [[]|e]; simpl;
    [intros [= <- <- <-]; left; by destruct (scatter_grabs touch)
    | | discriminate].
  unfold bind.
  assert (get_key_at_pos self (pos touch).1 (pos touch).2
          = get_key_at_pos self x y) as Hxy by by rewrite Hpos.
  destruct (get_key_at_pos self x y) as [[key|]|e] eqn:Hk.
  - destruct (process_key_on touch self) as [self1 [touch1|e]] eqn:Hon;
      [|discriminate].
    intros [= <- <- <-]. right. right. by exists key, self1, touch1.
  - rewrite (process_key_on_None _ _ Hxy). intros [= <- <- <-].
    by right; left.
  - by rewrite (process_key_on_Raise _ _ _ Hxy).
Qed.

Lemma _update_layout_mode_key_state self :
  let self' := (_update_layout_mode self).1 in
  active_keys self' = active_keys self
  ∧ have_capslock self' = have_capslock self
  ∧ have_shift self' = have_shift self.
Proof.
  unfold _update_layout_mode, bind, gets. simpl.
  case_bool_decide; simpl; [|done].
  unfold modify. simpl.
  pose proof (refresh_frame false
    (set_layout_mode (layout_mode_of (have_shift self) (have_capslock self))
       self)) as Hfr.
  apply geometry_only_fields in Hfr as (_ & _ & _ & Hc & Hs & Ha & _).
  destruct (refresh false _) as [s' [[]|e]]; simpl in *;
    by rewrite Hc, Hs, Ha.
Qed.

Lemma step_TouchDown w id p inside grabbed w' :
  step w (TouchDown id p inside grabbed) = Some w' →
  id ≠ (-1)%Z ∧ touches w !! id = None ∧
  ∃ touch', touches w' = <[id := touch']> (touches w) ∧ uid touch' = id ∧
    ((ud touch' = None ∧ keyboard w' = keyboard w)
     ∨ ∃ key, ud touch' = Some key ∧ grab_list touch' = true ∧
         get_key_at_pos (keyboard w) p.1 p.2 = Ok (Some key) ∧
         active_keys (keyboard w')
         = <[(if special_is (special_char key.1) "capslock"
              then (-1)%Z else id) := key.2]> (active_keys (keyboard w)) ∧
         have_capslock (keyboard w')
         = (if special_is (special_char key.1) "capslock"
            then negb (have_capslock (keyboard w))
            else have_capslock (keyboard w)) ∧
         have_shift (keyboard w')
         = (if special_is (special_char key.1) "capslock"
            then have_shift (keyboard w)
            else if special_in (special_char key.1) ["shift_L"; "shift_R"]
                 then true else have_shift (keyboard w))).
Proof.
  unfold step.
  destruct (bool_decide (id ≠ (-1)%Z)) eqn:Hid; simpl; [|discriminate].
  destruct (bool_decide (touches w !! id = None)) eqn:Hfresh; simpl;
    [|discriminate].
  apply bool_decide_eq_true_1 in Hid, Hfresh.
  destruct (on_touch_down _ _) as [self' [[touch' b]|e]] eqn:Hdown;
    [|discriminate].
  intros [= <-]. do 2 (split; [done|]). exists touch'. simpl.
  apply on_touch_down_cases in Hdown
    as [(-> & Hud & Huid)
       | [(-> & Hud & Huid & _) | (key & s1 & t1 & Hk & Hon & -> & ->)]].
  - split; [done|]. split; [done|]. by left.
  - split; [done|]. split; [done|]. by left.
  - split; [done|].
    destruct (process_key_on_Some _ _ _ _ _ Hk Hon) as (-> & Ha & Hc & Hs).
    split; [done|]. right. exists key. by repeat split.
Qed.

Lemma step_TouchUp w id w' :
  key_state_inv w →
  step w (TouchUp id) = Some w' →
  ∃ touch, touches w !! id = Some touch ∧ uid touch = id ∧
    touches w' = delete id (touches w) ∧
    keyboard w' = match ud touch with
                  | Some key => released touch key (keyboard w)
                  | None => keyboard w
                  end.
Proof.
  intros Hinv. unfold step.
  destruct (touches w !! id) as [touch|] eqn:Hl; [|discriminate].
  set (touch_up := mkTouch _ _ _ _ _ _ _).
  destruct (on_touch_up touch_up (keyboard w)) as [self' [[]|e]] eqn:Hup;
    [|discriminate].
  intros [= <-]. exists touch. simpl.
  destruct (inv_uid _ Hinv _ _ Hl) as [Hu _].
  do 3 (split; [done|]).
  assert (self' = (on_touch_up touch_up (keyboard w)).1) as -> by by rewrite Hup.
  unfold on_touch_up. subst touch_up. simpl.
  destruct (ud touch) as [key|] eqn:Hud.
  - destruct (inv_held _ Hinv _ _ _ Hl Hud) as [-> _].
    by rewrite process_key_up_state.
  - destruct (grab_list touch); [|done].
    by rewrite process_key_up_state.
Qed.

Lemma step_Frame w w' :
  step w Frame = Some w' →
  touches w' = touches w
  ∧ active_keys (keyboard w') = active_keys (keyboard w)
  ∧ have_capslock (keyboard w') = have_capslock (keyboard w)
  ∧ have_shift (keyboard w') = have_shift (keyboard w).
Proof.
  unfold step.
  pose proof (_update_layout_mode_key_state (keyboard w)) as Hks.
  destruct (_update_layout_mode (keyboard w)) as [self' [[]|e]];
    [|discriminate].
  by intros [= <-].
Qed.

Lemma capslock_is_no_shift (special_char : option string) :
  special_is special_char "capslock" = true →
  special_in special_char ["shift_L"; "shift_R"] = false.
Proof.
  unfold special_is. intros ->%bool_decide_eq_true_1. reflexivity.
Qed.

Lemma key_state_inv_TouchDown w id p inside grabbed w' :
  key_state_inv w → step w (TouchDown id p inside grabbed) = Some w' →
  key_state_inv w'.
Proof.
  intros Hinv Hstep.
  destruct (step_TouchDown _ _ _ _ _ _ Hstep)
    as (Hid & Hfresh & touch' & Ht & Hu & Hcases).
  assert (∀ id' t, touches w !! id' = Some t → touches w' !! id' = Some t)
    as Hkeep.
  { intros id' t Hl. rewrite Ht, lookup_insert_ne; [done|congruence]. }
  destruct Hcases as [[Hud Hk] | (key & Hud & Hg & _ & Ha & Hc & Hs)].
  - (* no key under the touch *)
    split; rewrite ?Hk.
    + intros id' t. rewrite Ht, lookup_insert.
      case_decide; [intros [= <-]; by subst | apply (inv_uid _ Hinv)].
    + intros id' t k. rewrite Ht, lookup_insert.
      case_decide; [intros [= <-]; congruence | apply (inv_held _ Hinv)].
    + intros id' Hs Hne.
      destruct (inv_owner _ Hinv _ Hs Hne) as (t & Hl & Hr). eauto.
    + apply (inv_capslock_on _ Hinv).
    + intros Hs Hc.
      destruct (inv_capslock_off _ Hinv Hs Hc) as (i & t & Hl & Hr). eauto.
    + intros Hs.
      destruct (inv_shift _ Hinv Hs) as (i & t & Hl & Hr). eauto.
  - (* a key under the touch *)
    assert (is_capslock_touch touch'
            = special_is (special_char key.1) "capslock") as Hcaps
      by (unfold is_capslock_touch; by rewrite Hud).
    assert (is_shift_touch touch'
            = special_in (special_char key.1) ["shift_L"; "shift_R"]) as Hsh
      by (unfold is_shift_touch; by rewrite Hud).
    assert (touches w' !! id = Some touch') as Hnew
      by (by rewrite Ht, lookup_insert_eq).
    split.
    + intros id' t. rewrite Ht, lookup_insert.
      case_decide; [intros [= <-]; by subst | apply (inv_uid _ Hinv)].
    + intros id' t k. rewrite Ht, lookup_insert.
      case_decide as Hi.
      * intros [= <-] Hk. subst id'. split; [done|].
        rewrite Hcaps. intros Hno. rewrite Ha, Hno, lookup_insert_eq.
        congruence.
      * intros Hl Hk.
        destruct (inv_held _ Hinv _ _ _ Hl Hk) as [Hgl Hact].
        split; [done|]. intros Hno. rewrite Ha.
        destruct (inv_uid _ Hinv _ _ Hl) as [_ Hm].
        rewrite lookup_insert_ne; [by apply Hact|].
        by destruct (special_is _ _).
    + intros id' Hsome Hne. rewrite Ha in Hsome.
      destruct (decide (id' = id)) as [->|Hi].
      * exists touch'. split; [done|]. split; [by rewrite Hud|].
        rewrite Hcaps. destruct (special_is _ _) eqn:Hsp; [|done].
        rewrite lookup_insert_ne in Hsome by done.
        destruct (inv_owner _ Hinv _ Hsome Hne) as (t & Hl & _). congruence.
      * rewrite lookup_insert_ne in Hsome
          by (destruct (special_is _ _); congruence).
        destruct (inv_owner _ Hinv _ Hsome Hne) as (t & Hl & Hr). eauto.
    + rewrite Ha, Hc. destruct (special_is _ _).
      * intros _. by rewrite lookup_insert_eq.
      * rewrite lookup_insert_ne by done. apply (inv_capslock_on _ Hinv).
    + rewrite Ha, Hc. destruct (special_is _ _) eqn:Hsp.
      * intros _ _. exists id, touch'. by rewrite Hcaps.
      * rewrite lookup_insert_ne by done. intros Hsome Hoff.
        destruct (inv_capslock_off _ Hinv Hsome Hoff) as (i & t & Hl & Hr).
        eauto.
    + rewrite Hs. intros Hon.
      destruct (special_is _ _) eqn:Hsp;
        [|destruct (special_in _ _) eqn:Hshift].
      * destruct (inv_shift _ Hinv Hon) as (i & t & Hl & Hr). eauto.
      * exists id, touch'. by rewrite Hsh.
      * destruct (inv_shift _ Hinv Hon) as (i & t & Hl & Hr). eauto.
Qed.

Lemma released_capslock touch key self :
  special_is (special_char key.1) "capslock" = true →
  have_capslock (released touch key self) = have_capslock self
  ∧ have_shift (released touch key self) = have_shift self
  ∧ (∀ id, id ≠ (-1)%Z →
       active_keys (released touch key self) !! id = active_keys self !! id)
  ∧ (is_Some (active_keys self !! (-1)%Z) →
     is_Some (active_keys (released touch key self) !! (-1)%Z)
     ↔ have_capslock self = true)
  ∧ (active_keys self !! (-1)%Z = None → released touch key self = self).
Proof.
  intros Hsp. unfold released, active_id.
  rewrite Hsp, (capslock_is_no_shift _ Hsp). simpl.
  case_bool_decide as Hin.
  - destruct (have_capslock self) eqn:Hc; simpl; rewrite ?Hc.
    + repeat split; try done.
      * intros id Hne. by rewrite lookup_insert_ne, lookup_delete_ne.
      * by rewrite lookup_insert_eq.
      * intros Hno. apply elem_of_dom in Hin as [? Hin]. congruence.
    + repeat split; try done.
      * intros id Hne. by rewrite lookup_delete_ne.
      * rewrite lookup_delete_eq. by intros [].
      * intros Hno. apply elem_of_dom in Hin as [? Hin]. congruence.
  - repeat split; try done.
    intros Hsome. by apply elem_of_dom in Hsome.
Qed.

Lemma released_other touch key self :
  special_is (special_char key.1) "capslock" = false →
  is_Some (active_keys self !! uid touch) →
  have_capslock (released touch key self) = have_capslock self
  ∧ have_shift (released touch key self)
    = (if special_in (special_char key.1) ["shift_L"; "shift_R"]
       then false else have_shift self)
  ∧ active_keys (released touch key self)
    = delete (uid touch) (active_keys self).
Proof.
  intros Hsp Hin. unfold released, active_id. rewrite Hsp. simpl.
  rewrite bool_decide_eq_true_2 by by apply elem_of_dom.
  by destruct (special_in _ _).
Qed.

Lemma key_state_inv_TouchUp w id w' :
  key_state_inv w → step w (TouchUp id) = Some w' → key_state_inv w'.
Proof.
  intros Hinv Hstep.
  destruct (step_TouchUp _ _ _ Hinv Hstep) as (touch & Hl & Hu & Ht & Hk).
  assert (∀ id' t, touches w !! id' = Some t → id' ≠ id →
                   touches w' !! id' = Some t) as Hkeep.
  { intros id' t Hl' Hne. by rewrite Ht, lookup_delete_ne. }
  assert (∀ id' t, touches w' !! id' = Some t →
                   touches w !! id' = Some t ∧ id' ≠ id) as Hold.
  { intros id' t. rewrite Ht, lookup_delete.
    case_decide; [done|]. intros Hl'. split; [done|congruence]. }
  destruct (ud touch) as [key|] eqn:Hud;
    [destruct (special_is (special_char key.1) "capslock") eqn:Hsp|].
  - (* the touch of a capslock key *)
    destruct (released_capslock touch key (keyboard w) Hsp)
      as (Hc & Hs & Ha & Hon & Hoff).
    assert (is_capslock_touch touch = true) as Hcaps
      by (unfold is_capslock_touch; by rewrite Hud).
    assert (is_shift_touch touch = false) as Hsh.
    { unfold is_shift_touch. rewrite Hud. by apply capslock_is_no_shift. }
    split; rewrite ?Hk.
    + intros id' t [Hl' _]%Hold. apply (inv_uid _ Hinv _ _ Hl').
    + intros id' t k [Hl' Hne]%Hold Hud'.
      destruct (inv_held _ Hinv _ _ _ Hl' Hud') as [Hg Hact].
      split; [done|]. intros Hno.
      destruct (inv_uid _ Hinv _ _ Hl') as [_ Hm]. rewrite Ha by done.
      by apply Hact.
    + intros id' Hsome Hne. rewrite Ha in Hsome by done.
      destruct (inv_owner _ Hinv _ Hsome Hne) as (t & Hl' & Hr & Hno).
      exists t. split; [|done]. apply Hkeep; [done|].
      intros ->. congruence.
    + rewrite Hc. intros Hcap.
      pose proof (inv_capslock_on _ Hinv Hcap) as Hsome.
      by apply Hon.
    + rewrite Hc. intros Hsome Hcap.
      destruct (active_keys (keyboard w) !! (-1)%Z) as [k|] eqn:Hm.
      * apply Hon in Hsome; [congruence|done].
      * rewrite Hoff in Hsome by done. rewrite Hm in Hsome. by destruct Hsome.
    + rewrite Hs. intros Hshift.
      destruct (inv_shift _ Hinv Hshift) as (i & t & Hl' & Hr).
      exists i, t. split; [|done]. apply Hkeep; [done|].
      intros ->. congruence.
  - (* the touch of another key *)
    destruct (inv_held _ Hinv _ _ _ Hl Hud) as [_ Hact].
    assert (is_capslock_touch touch = false) as Hcaps
      by (unfold is_capslock_touch; by rewrite Hud).
    specialize (Hact Hcaps).
    destruct (released_other touch key (keyboard w) Hsp) as (Hc & Hs & Ha).
    { rewrite Hu. by rewrite Hact. }
    rewrite Hu in Ha.
    destruct (inv_uid _ Hinv _ _ Hl) as [_ Hm].
    split; rewrite ?Hk.
    + intros id' t [Hl' _]%Hold. apply (inv_uid _ Hinv _ _ Hl').
    + intros id' t k [Hl' Hne]%Hold Hud'.
      destruct (inv_held _ Hinv _ _ _ Hl' Hud') as [Hg Hact'].
      split; [done|]. intros Hno. rewrite Ha, lookup_delete_ne by done.
      by apply Hact'.
    + intros id' Hsome Hne. rewrite Ha in Hsome.
      rewrite lookup_delete in Hsome. case_decide as Hi.
      { by destruct Hsome. }
      destruct (inv_owner _ Hinv _ Hsome Hne) as (t & Hl' & Hr).
      exists t. split; [|done]. apply Hkeep; [done|congruence].
    + rewrite Hc, Ha, lookup_delete_ne by done.
      apply (inv_capslock_on _ Hinv).
    + rewrite Hc, Ha, lookup_delete_ne by done. intros Hsome Hoff.
      destruct (inv_capslock_off _ Hinv Hsome Hoff) as (i & t & Hl' & Hr).
      exists i, t. split; [|done]. apply Hkeep; [done|].
      intros ->. congruence.
    + rewrite Hs.
      destruct (special_in (special_char key.1) ["shift_L"; "shift_R"])
        eqn:Hshift; [done|].
      intros Hon.
      destruct (inv_shift _ Hinv Hon) as (i & t & Hl' & Hr).
      exists i, t. split; [|done]. apply Hkeep; [done|].
      intros ->. unfold is_shift_touch in Hr. rewrite Hl in Hl'.
      injection Hl' as <-. rewrite Hud in Hr. congruence.
  - (* a touch that holds no key *)
    split; rewrite ?Hk.
    + intros id' t [Hl' _]%Hold. apply (inv_uid _ Hinv _ _ Hl').
    + intros id' t k [Hl' Hne]%Hold. apply (inv_held _ Hinv _ _ _ Hl').
    + intros id' Hsome Hne.
      destruct (inv_owner _ Hinv _ Hsome Hne) as (t & Hl' & [k Hr] & Hno).
      exists t. split; [|by eauto]. apply Hkeep; [done|].
      intros ->. congruence.
    + apply (inv_capslock_on _ Hinv).
    + intros Hsome Hoff.
      destruct (inv_capslock_off _ Hinv Hsome Hoff) as (i & t & Hl' & Hr).
      exists i, t. split; [|done]. apply Hkeep; [done|].
      intros ->. unfold is_capslock_touch in Hr. rewrite Hl in Hl'.
      injection Hl' as <-. by rewrite Hud in Hr.
    + intros Hon.
      destruct (inv_shift _ Hinv Hon) as (i & t & Hl' & Hr).
      exists i, t. split; [|done]. apply Hkeep; [done|].
      intros ->. unfold is_shift_touch in Hr. rewrite Hl in Hl'.
      injection Hl' as <-. by rewrite Hud in Hr.
Qed.

Lemma key_state_inv_Frame w w' :
  key_state_inv w → step w Frame = Some w' → key_state_inv w'.
Proof.
  intros Hinv (Ht & Ha & Hc & Hs)%step_Frame.
  split; rewrite ?Ht, ?Ha, ?Hc, ?Hs; apply Hinv.
Qed.

Lemma key_state_inv_step w ev w' :
  key_state_inv w → step w ev = Some w' → key_state_inv w'.
Proof.
  destruct ev; eauto using key_state_inv_TouchDown, key_state_inv_TouchUp,
    key_state_inv_Frame.
Qed.

Lemma key_state_inv_run evs : ∀ w w',
  key_state_inv w → run w evs = Some w' → key_state_inv w'.
Proof.
  induction evs as [|ev evs IH]; intros w w' Hinv; simpl.
  - by intros [= <-].
  - destruct (step w ev) as [w1|] eqn:Hstep; [|discriminate].
    apply IH. by eapply key_state_inv_step.
Qed.

End Event_loop.

(** ** GeometryCompiler: the geometry that a refresh leaves *)

Section Compiled.
Context {F : Type} `{PyFloat F}.
Implicit Types (self : @VKeyboard F) (layout : @Layout F).

Lemma set_LINE_HINT_frame n v self : geometry_only self (set_LINE_HINT n v self).
Proof. apply geometry_only_set. Qed.

Lemma refresh_keys_hint_line_Ok layout ex uw uh n y self self' y' :
  refresh_keys_hint_line layout ex uw uh n y self = (self', Ok y') →
  ∃ keys,
    lines layout !! (layout_mode self, n) = Some keys
    ∧ y' = y ⊖ uh
    ∧ self' = set_LINE_HINT n (line_hints uw uh (y ⊖ uh) keys ex) self.
Proof.
  unfold refresh_keys_hint_line, bind, gets, modify, lift, ret, getitem.
  simpl.
  destruct (lines layout !! (layout_mode self, n)) as [keys|];
    [|discriminate].
  intros [= <- <-]. exists keys. repeat split.
  unfold set_LINE_HINT. simpl. by rewrite insert_insert_eq.
Qed.

Lemma refresh_keys_hint_lines_Ok layout ex uw uh l :
  NoDup l → ∀ y self self' y',
  for_each l (refresh_keys_hint_line layout ex uw uh) y self = (self', Ok y') →
  geometry_only self self'
  ∧ U_HINT (layout_geometry self') = U_HINT (layout_geometry self)
  ∧ LINE (layout_geometry self') = LINE (layout_geometry self)
  ∧ (∀ n, n ∉ l →
       LINE_HINT (layout_geometry self') !! n
       = LINE_HINT (layout_geometry self) !! n)
  ∧ (∀ i n, l !! i = Some n →
       ∃ keys, lines layout !! (layout_mode self, n) = Some keys
               ∧ LINE_HINT (layout_geometry self') !! n
                 = Some (line_hints uw uh (line_y uh y (S i)) keys ex)).
Proof.
  induction 1 as [|a l Ha Hnd IH]; intros y self self' y'; simpl.
  - intros [= <- <-]. split; [apply geometry_only_refl|].
    do 3 (split; [reflexivity|]).
    intros i n Hl. by rewrite lookup_nil in Hl.
  - intros (s1 & y1 & Hline & Hrest)%bind_Ok.
    apply refresh_keys_hint_line_Ok in Hline as (keys & Hkeys & -> & ->).
    destruct (IH _ _ _ _ Hrest) as (Hfr & Hu & Hl & Hout & Hin).
    split; [|split; [|split; [|split]]].
    + etrans; [apply set_LINE_HINT_frame | exact Hfr].
    + by rewrite Hu.
    + by rewrite Hl.
    + intros n Hn. apply not_elem_of_cons in Hn as [Hne Hn].
      rewrite (Hout _ Hn). simpl. by rewrite lookup_insert_ne.
    + intros [|i] n; simpl.
      * intros [= <-]. exists keys. split; [done|].
        rewrite (Hout _ Ha). simpl. by rewrite lookup_insert_eq.
      * intros Hi. destruct (Hin _ _ Hi) as (keys' & Hk' & Hh').
        exists keys'. split; [exact Hk' | exact Hh'].
Qed.

Lemma lookup_line_numbers layout_rows (n : Z) :
  (1 ≤ n ≤ layout_rows)%Z →
  line_numbers layout_rows !! Z.to_nat (n - 1) = Some n.
Proof.
  intros Hn. unfold line_numbers. apply lookup_seqZ. lia.
Qed.

Lemma elem_of_line_numbers layout_rows (n : Z) :
  n ∈ line_numbers layout_rows ↔ (1 ≤ n ≤ layout_rows)%Z.
Proof. unfold line_numbers. rewrite elem_of_seqZ. lia. Qed.

(** What a call of [refresh_keys_hint] that returns has done. *)
Lemma refresh_keys_hint_Ok self self' :
  refresh_keys_hint self = (self', Ok tt) →
  ∃ layout uw uh,
    let '(el_hint, eh_hint, ex_hint, ey_hint) :=
      efficient_surface (margin_hint self) in
    current_layout self = Ok layout
    ∧ of_int 1 ⊘ of_int (cols layout) = Ok uw
    ∧ of_int 1 ⊘ of_int (rows layout) = Ok uh
    ∧ geometry_only self self'
    ∧ U_HINT (layout_geometry self') = Some (uw ⊗ el_hint, uh ⊗ eh_hint)
    ∧ LINE (layout_geometry self') = LINE (layout_geometry self)
    ∧ (∀ n, ¬ (1 ≤ n ≤ rows layout)%Z →
         LINE_HINT (layout_geometry self') !! n
         = LINE_HINT (layout_geometry self) !! n)
    ∧ (∀ n, (1 ≤ n ≤ rows layout)%Z →
         ∃ keys, lines layout !! (layout_mode self, n) = Some keys
           ∧ LINE_HINT (layout_geometry self') !! n
             = Some (line_hints (uw ⊗ el_hint) (uh ⊗ eh_hint)
                       (line_y (uh ⊗ eh_hint) (ey_hint ⊕ eh_hint)
                          (Z.to_nat n))
                       keys ex_hint)).
Proof.
  unfold refresh_keys_hint.
  intros (s1 & layout & Hlay & Hrest)%bind_Ok.
  unfold lift in Hlay. injection Hlay as <- Hlay.
  apply bind_Ok in Hrest as (s1 & m & Hm & Hrest).
  unfold gets in Hm. injection Hm as <- <-.
  destruct (efficient_surface (margin_hint self)) as [[[el eh] ex] ey] eqn:Hs.
  apply bind_Ok in Hrest as (s1 & uw & Huw & Hrest).
  unfold lift in Huw. injection Huw as <- Huw.
  apply bind_Ok in Hrest as (s1 & uh & Huh & Hrest).
  unfold lift in Huh. injection Huh as <- Huh.
  apply bind_Ok in Hrest as (s1 & [] & Hu & Hrest).
  unfold modify in Hu. injection Hu as <-.
  apply bind_Ok in Hrest as (s2 & y' & Hloop & Hret).
  unfold ret in Hret. injection Hret as <-.
  exists layout, uw, uh.
  destruct (refresh_keys_hint_lines_Ok _ _ _ _ _ (NoDup_seqZ _ _) _ _ _ _ Hloop)
    as (Hfr & HU & HL & Hout & Hin).
  do 3 (split; [done|]). split; [|split; [done|split; [done|split]]].
  - etrans; [|exact Hfr]. apply geometry_only_set.
  - intros n Hn. rewrite Hout; [done|]. by rewrite elem_of_line_numbers.
  - intros n Hn.
    destruct (Hin _ _ (lookup_line_numbers _ _ Hn)) as (keys & Hk & Hh).
    exists keys. split; [exact Hk|].
    rewrite Hh. by replace (S (Z.to_nat (n - 1))) with (Z.to_nat n) by lia.
Qed.

End Compiled.

(** *** No exception of [refresh_keys_hint] depends on the margins *)

Section Relational.
Context {S : Type} (R : S → S → Prop).

Lemma rel_bind {A1 A2 B1 B2} (Q : A1 → A2 → Prop) (Q' : B1 → B2 → Prop)
    (m1 : M S A1) (m2 : M S A2) (k1 : A1 → M S B1) (k2 : A2 → M S B2) s1 s2 :
  rel_run R Q (m1 s1) (m2 s2) →
  (∀ a1 a2 t1 t2, R t1 t2 → Q a1 a2 → rel_run R Q' (k1 a1 t1) (k2 a2 t2)) →
  rel_run R Q' (bind m1 k1 s1) (bind m2 k2 s2).
Proof.
  unfold bind, rel_run.
  destruct (m1 s1) as [t1 [a1|e1]], (m2 s2) as [t2 [a2|e2]]; simpl;
    intros [HR HQ] Hk; try done.
  by apply Hk.
Qed.

Lemma rel_for_each {A B1 B2} (Q : B1 → B2 → Prop) (l : list A)
    (body1 : A → B1 → M S B1) (body2 : A → B2 → M S B2) :
  (∀ a b1 b2 s1 s2, R s1 s2 → Q b1 b2 →
     rel_run R Q (body1 a b1 s1) (body2 a b2 s2)) →
  ∀ b1 b2 s1 s2, R s1 s2 → Q b1 b2 →
    rel_run R Q (for_each l body1 b1 s1) (for_each l body2 b2 s2).
Proof.
  intros Hbody. induction l as [|a l IH]; intros b1 b2 s1 s2 HR HQ; simpl.
  - by split.
  - eapply rel_bind; [by apply Hbody | by intros; apply IH].
Qed.

Lemma rel_run_outcome {A B} (Q : A → B → Prop) (p1 : S * res A) (p2 : S * res B) :
  rel_run R Q p1 p2 → same_outcome p1.2 p2.2.
Proof.
  unfold rel_run, same_outcome. intros [_ HQ].
  by destruct p1.2, p2.2.
Qed.

End Relational.

Section Margins.
Context {F : Type} `{PyFloat F}.
Implicit Types (self : @VKeyboard F) (layout : @Layout F).

Lemma refresh_keys_hint_line_rel layout ex1 uw1 uh1 ex2 uw2 uh2 n y1 y2
    self1 self2 :
  same_layout self1 self2 →
  rel_run same_layout any
    (refresh_keys_hint_line layout ex1 uw1 uh1 n y1 self1)
    (refresh_keys_hint_line layout ex2 uw2 uh2 n y2 self2).
Proof.
  intros (Ha & Hl & Hm).
  unfold refresh_keys_hint_line, bind, gets, modify, lift, ret, getitem.
  simpl. rewrite Hm.
  by destruct (lines layout !! (layout_mode self2, n)).
Qed.

Lemma refresh_keys_hint_rel self1 self2 :
  same_layout self1 self2 →
  rel_run same_layout any (refresh_keys_hint self1) (refresh_keys_hint self2).
Proof.
  intros Hsame. unfold refresh_keys_hint.
  eapply (rel_bind _ eq).
  { unfold lift, current_layout. destruct Hsame as (Ha & Hl & Hm).
    split; [done|]. simpl. rewrite Ha, Hl. by destruct (getitem _ _). }
  intros layout ? s1 s2 Hs <-.
  eapply (rel_bind _ any); [by split|].
  intros m1 m2 t1 t2 Ht _.
  destruct (efficient_surface m1) as [[[el1 eh1] ex1] ey1].
  destruct (efficient_surface m2) as [[[el2 eh2] ex2] ey2].
  eapply (rel_bind _ eq).
  { unfold lift. split; [done|]. simpl. by destruct (_ ⊘ _). }
  intros uw ? u1 u2 Hu <-.
  eapply (rel_bind _ eq).
  { unfold lift. split; [done|]. simpl. by destruct (_ ⊘ _). }
  intros uh ? v1 v2 Hv <-.
  eapply (rel_bind _ any); [by split|].
  intros _ _ x1 x2 Hx _.
  eapply (rel_bind _ any); [|by intros; split].
  apply rel_for_each; [|done..].
  intros. by apply refresh_keys_hint_line_rel.
Qed.

Lemma refresh_keys_hint_outcome self margin_hint :
  same_outcome (refresh_keys_hint (set_margin_hint margin_hint self)).2
               (refresh_keys_hint self).2.
Proof.
  eapply rel_run_outcome, refresh_keys_hint_rel. by destruct self.
Qed.

End Margins.

(** *** When [refresh_keys_hint] returns *)

Section Compiled_total.
Context {F : Type} `{PyFloat F}.
Implicit Types (self : @VKeyboard F) (layout : @Layout F).

Lemma refresh_keys_hint_lines_total layout ex uw uh l :
  ∀ y self,
    (∀ n, n ∈ l → is_Some (lines layout !! (layout_mode self, n))) →
    ∃ self' y',
      for_each l (refresh_keys_hint_line layout ex uw uh) y self
      = (self', Ok y').
Proof.
  induction l as [|n l IH]; intros y self Hlines; simpl.
  - by eexists _, _.
  - destruct (Hlines n) as [keys Hkeys]; [by left|].
    destruct (IH (y ⊖ uh)
                (set_LINE_HINT n (line_hints uw uh (y ⊖ uh) keys ex) self))
      as (self' & y' & Hrest).
    { intros m Hm. apply Hlines. by right. }
    exists self', y'. rewrite <- Hrest.
    unfold bind at 1.
    unfold refresh_keys_hint_line, bind, gets, modify, lift, ret, getitem.
    simpl. rewrite Hkeys. unfold set_LINE_HINT. simpl.
    by rewrite insert_insert_eq.
Qed.

Lemma refresh_keys_hint_total self layout uw uh :
  current_layout self = Ok layout →
  of_int 1 ⊘ of_int (cols layout) = Ok uw →
  of_int 1 ⊘ of_int (rows layout) = Ok uh →
  (∀ n, (1 ≤ n ≤ rows layout)%Z →
        is_Some (lines layout !! (layout_mode self, n))) →
  ∃ self', refresh_keys_hint self = (self', Ok tt).
Proof.
  intros Hlay Huw Huh Hlines. unfold refresh_keys_hint.
  unfold bind at 1, lift at 1. rewrite Hlay.
  unfold bind at 1, gets at 1.
  destruct (efficient_surface (margin_hint self)) as [[[el eh] ex] ey].
  unfold bind at 1, lift at 1. rewrite Huw.
  unfold bind at 1, lift at 1. rewrite Huh.
  unfold bind at 1, modify at 1.
  destruct (refresh_keys_hint_lines_total layout ex (uw ⊗ el) (uh ⊗ eh)
              (line_numbers (rows layout)) (ey ⊕ eh)
              (set_U_HINT (uw ⊗ el, uh ⊗ eh) self))
    as (self' & y' & Hloop).
  { intros n Hn%elem_of_line_numbers. by apply Hlines. }
  exists self'. unfold bind, ret. by rewrite Hloop.
Qed.

End Compiled_total.

(** ** Exact arithmetic *)

Section Exact.
Implicit Types (self : @VKeyboard Q) (layout : @Layout Q).
Open Scope Q_scope.

Lemma Q_feq (a b : Q) : (a =?. b) = true ↔ a == b.
Proof.
  unfold feq. simpl. rewrite andb_true_iff, !Qle_bool_iff.
  split; [intros []; by apply Qle_antisym | intros ->; split; apply Qle_refl].
Qed.

Lemma Q_flt (a b : Q) : (a ≺? b) = true ↔ a < b.
Proof.
  simpl. unfold Qlt_bool. rewrite negb_true_iff.
  rewrite <- not_true_iff_false, Qle_bool_iff. split.
  - apply Qnot_le_lt.
  - apply Qlt_not_le.
Qed.

Lemma Q_fle (a b : Q) : (a ≼? b) = true ↔ a <= b.
Proof. simpl. apply Qle_bool_iff. Qed.

Lemma Q_fdiv (a b : Q) : ¬ b == 0 → a ⊘ b = Ok (a / b).
Proof.
  intros Hb. simpl. unfold Qdiv_py.
  destruct (Qeq_bool b 0) eqn:Hz; [|done].
  by apply Qeq_bool_iff in Hz.
Qed.

Lemma Q_of_int_nonzero (n : Z) : n ≠ 0%Z → ¬ inject_Z n == 0.
Proof.
  intros Hn Hz. apply Hn. unfold Qeq in Hz. simpl in Hz. lia.
Qed.

Lemma foldl_Qplus_proper (l : list Q) : ∀ u v,
  u == v → foldl Qplus u l == foldl Qplus v l.
Proof.
  induction l as [|z l IH]; intros u v Huv; simpl; [done|].
  apply IH. by rewrite Huv.
Qed.

Lemma foldl_Qplus_acc (l : list Q) : ∀ a c,
  foldl Qplus (a + c) l == c + foldl Qplus a l.
Proof.
  induction l as [|x l IH]; intros a c; simpl; [ring|].
  rewrite <- IH. apply foldl_Qplus_proper. ring.
Qed.

Lemma fsum_line_hints (uw uh y : Q) keys : ∀ a x,
  foldl Qplus a (hint_widths (line_hints uw uh y keys x))
  == a + uw * foldl Qplus 0 (key_size <$> keys).
Proof.
  induction keys as [|key keys IH]; intros a x; simpl; [ring|].
  rewrite IH.
  pose proof (foldl_Qplus_acc (key_size <$> keys) 0 (key_size key)) as Hacc.
  rewrite Hacc. ring.
Qed.

End Exact.

(** ** HitTester: the line under a point *)

Section Row_formula.
Context {F : Type} `{PyFloor F}.

(** The code's [int] and two tests give the row of the specification's
    formula, in any arithmetic that has a [floor]. *)
Lemma line_at_is_spec_row (layout_rows : Z) (mtop mbottom h y : F) :
  line_at layout_rows mtop mbottom h y
  = spec_row layout_rows mtop mbottom h y.
Proof.
  unfold line_at, spec_row, res_bind.
  destruct (_ ⊘ of_int layout_rows) as [line_height|e]; [|done].
  destruct (_ ⊘ line_height) as [q|e]; [|done].
  pose proof (int_floor q) as Hq. unfold int_floor_agree in Hq.
  destruct (int q) as [t|e1], (floor q) as [f|e2]; try done; [|by subst].
  f_equal. unfold clamp.
  destruct (Z.ltb_spec layout_rows (layout_rows - t));
    match goal with
    | |- context [(?a <? 1)%Z] => destruct (Z.ltb_spec a 1)
    end; lia.
Qed.

End Row_formula.

(** ** Exact arithmetic: lines and bands *)

Section Lines.
Context {F : Type} `{PyFloat F}.

Lemma line_hints_fields (uw uh y : F) keys : ∀ x key,
  key ∈ line_hints uw uh y keys x → key.1.2 = y ∧ key.2.2 = uh.
Proof.
  induction keys as [|k keys IH]; intros x key; simpl.
  - by intros ?%elem_of_nil.
  - intros [->|Hin]%elem_of_cons; [done|]. by eapply IH.
Qed.

Lemma length_line_hints (uw uh y : F) keys : ∀ x,
  length (line_hints uw uh y keys x) = length keys.
Proof. induction keys as [|k keys IH]; intros x; simpl; [done|]. by rewrite IH. Qed.

End Lines.

Section Bands.
Open Scope Q_scope.

Lemma line_y_exact (uh : Q) (n : nat) : ∀ y,
  line_y uh y n == y - inject_Z (Z.of_nat n) * uh.
Proof.
  induction n as [|n IH]; intros y.
  - simpl. ring.
  - cbn [line_y]. rewrite IH. rewrite Nat2Z.inj_succ. unfold Z.succ.
    rewrite inject_Z_plus. simpl. ring.
Qed.

Lemma Qtrunc_nonneg (q : Q) : 0 <= q → Qtrunc q = Qfloor q.
Proof.
  destruct q as [n d]. unfold Qle, Qtrunc. simpl. intros Hn.
  apply Z.quot_div_nonneg; lia.
Qed.

Lemma Qtrunc_unique (q : Q) (z : Z) :
  (0 ≤ z)%Z → inject_Z z <= q → q < inject_Z (z + 1) → Qtrunc q = z.
Proof.
  intros Hz Hlo Hhi.
  rewrite Qtrunc_nonneg.
  - apply Z.le_antisymm.
    + apply Z.lt_succ_r. unfold Z.succ. rewrite Zlt_Qlt.
      eapply Qle_lt_trans; [apply Qfloor_le | exact Hhi].
    + rewrite <- (Qfloor_Z z). by apply Qfloor_resp_le.
  - apply (Qle_trans _ (inject_Z z)); [|exact Hlo].
    change 0 with (inject_Z 0). by rewrite <- Zle_Qle.
Qed.

(** The band of line [n]: from [y_n * h] up to [(y_n + uh) * h], where
    [y_n] is the [y_hint] that [refresh_keys_hint] gives to line [n]. *)
Lemma line_at_band (layout_rows n : Z) (mtop mbottom h y y_n uh : Q) :
  (1 ≤ n ≤ layout_rows)%Z → 0 < h → mtop + mbottom < 1 →
  uh == 1 / inject_Z layout_rows * (1 - mtop - mbottom) →
  y_n == 0 + mbottom + (1 - mtop - mbottom) - inject_Z n * uh →
  y_n * h <= y → y < (y_n + uh) * h →
  line_at layout_rows mtop mbottom h y = Ok n.
Proof.
  intros Hn Hh Hm Huh Hyn Hlo Hhi.
  assert (0 < inject_Z layout_rows) as Hr.
  { rewrite <- (Zlt_Qlt 0). lia. }
  set (r := inject_Z layout_rows) in *.
  set (e_height := h - (mbottom + mtop) * h).
  assert (0 < e_height) as He.
  { unfold e_height.
    assert (0 < h * (1 - mtop - mbottom)) as Hp
      by (apply Qmult_lt_0_compat; lra).
    lra. }
  assert (0 < e_height / r) as HL.
  { apply Qlt_shift_div_l; [done|]. lra. }
  unfold line_at. cbn [fdiv fsub fadd fmul of_int int Q_float res_bind].
  fold e_height. fold r.
  unfold Qdiv_py at 1.
  destruct (Qeq_bool r 0) eqn:Hz; [apply Qeq_bool_iff in Hz; lra|].
  cbn [res_bind]. unfold Qdiv_py.
  destruct (Qeq_bool (e_height / r) 0) eqn:Hz2;
    [apply Qeq_bool_iff in Hz2; lra|].
  cbn [res_bind].
  assert (y_n * h == mbottom * h + (r - inject_Z n) * (e_height / r)) as Hband.
  { rewrite Hyn, Huh. unfold e_height. fold r. field. lra. }
  assert (uh * h == e_height / r) as Hstep.
  { rewrite Huh. unfold e_height. fold r. field. lra. }
  rewrite (Qtrunc_unique _ (layout_rows - n)).
  - f_equal.
    replace (layout_rows - (layout_rows - n))%Z with n by lia.
    destruct (Z.ltb_spec layout_rows n); [lia|].
    destruct (Z.ltb_spec n 1); [lia|done].
  - lia.
  - apply Qle_shift_div_l; [done|].
    unfold Zminus. rewrite inject_Z_plus, inject_Z_opp. fold r. lra.
  - apply Qlt_shift_div_r; [done|].
    replace (layout_rows - n + 1)%Z with (layout_rows + (- n + 1))%Z by lia.
    rewrite !inject_Z_plus, inject_Z_opp. fold r.
    change (inject_Z 1) with 1. lra.
Qed.

End Bands.

Section Compiled_exact.
Implicit Types (self : @VKeyboard Q) (layout : @Layout Q).
Open Scope Q_scope.

Lemma Q_fdiv_Ok (a b c : Q) : a ⊘ b = Ok c → ¬ b == 0 ∧ c = a / b.
Proof.
  simpl. unfold Qdiv_py. destruct (Qeq_bool b 0) eqn:Hz; [discriminate|].
  intros [= <-]. split; [|done]. intros Hb. apply Qeq_bool_iff in Hb.
  congruence.
Qed.

(** The hints that [refresh_keys_hint] leaves, in exact arithmetic. *)
Lemma refresh_keys_hint_exact self self' layout mtop mright mbottom mleft :
  refresh_keys_hint self = (self', Ok tt) →
  current_layout self = Ok layout →
  margin_hint self = (mtop, mright, mbottom, mleft) →
  let uw_hint := 1 / inject_Z (cols layout) * (1 - mleft - mright) in
  let uh_hint := 1 / inject_Z (rows layout) * (1 - mtop - mbottom) in
  cols layout ≠ 0%Z ∧ rows layout ≠ 0%Z
  ∧ geometry_only self self'
  ∧ LINE (layout_geometry self') = LINE (layout_geometry self)
  ∧ U_HINT (layout_geometry self') = Some (uw_hint, uh_hint)
  ∧ ∀ n, (1 ≤ n ≤ rows layout)%Z →
      ∃ keys y_n,
        lines layout !! (layout_mode self, n) = Some keys
        ∧ y_n == 0 + mbottom + (1 - mtop - mbottom) - inject_Z n * uh_hint
        ∧ LINE_HINT (layout_geometry self') !! n
          = Some (line_hints uw_hint uh_hint y_n keys (0 + mleft)).
Proof.
  intros Hok Hlay Hm.
  destruct (refresh_keys_hint_Ok _ _ Hok) as (layout' & uw & uh & Hspec).
  rewrite Hm in Hspec. cbn [efficient_surface] in Hspec.
  destruct Hspec as (Hlay' & Huw & Huh & Hfr & HU & HL & _ & Hin).
  rewrite Hlay in Hlay'. injection Hlay' as <-.
  apply Q_fdiv_Ok in Huw as [Hc ->], Huh as [Hr ->].
  cbn [of_int fsub fadd fmul Q_float] in *.
  change (inject_Z 1) with 1 in *. change (inject_Z 0) with 0 in *.
  split; [by intros Hz; rewrite Hz in Hc|].
  split; [by intros Hz; rewrite Hz in Hr|].
  do 3 (split; [done|]).
  intros n Hn. destruct (Hin n Hn) as (keys & Hkeys & Hhints).
  eexists keys, _. split; [exact Hkeys|]. split; [|exact Hhints].
  rewrite line_y_exact. rewrite Z2Nat.id by lia. reflexivity.
Qed.

End Compiled_exact.

(** ** Exact arithmetic: the pixel geometry *)

Section Pixels_exact.
Implicit Types (self : @VKeyboard Q) (layout : @Layout Q).
Open Scope Q_scope.

Lemma pixel_key_exact w h kt kr kb kl (key : @HintKey Q) :
  pixel_key w h kt kr kb kl key = Ok (pixel_of w h kt kr kb kl key).
Proof. by destruct key as [[x y] [kw kh]]. Qed.

Lemma set_LINE_set_LINE n (v1 v2 : list PixKey) self :
  set_LINE n v2 (set_LINE n v1 self) = set_LINE n v2 self.
Proof.
  unfold set_LINE, set_layout_geometry. simpl. by rewrite insert_insert_eq.
Qed.

Lemma set_LINE_id n (v : list PixKey) self :
  LINE (layout_geometry self) !! n = Some v → set_LINE n v self = self.
Proof.
  intros Hl. unfold set_LINE, set_layout_geometry.
  rewrite insert_id by done. by destruct self as [? ? ? [] ? ? ? ? ? ? ? ?].
Qed.

Lemma pixel_line_exact w h kt kr kb kl n keys : ∀ llg self,
  LINE (layout_geometry self) !! n = Some llg →
  pixel_line w h kt kr kb kl n llg keys self
  = (set_LINE n (llg ++ (pixel_of w h kt kr kb kl <$> keys)) self, Ok tt).
Proof.
  induction keys as [|key keys IH]; intros llg self Hl; simpl.
  - rewrite app_nil_r. by rewrite set_LINE_id.
  - unfold bind at 1, lift. rewrite pixel_key_exact.
    unfold bind, modify.
    rewrite IH by (simpl; by rewrite lookup_insert_eq).
    rewrite set_LINE_set_LINE. by rewrite <- app_assoc.
Qed.

Lemma refresh_keys_line_exact w h kt kr kb kl n hints self :
  LINE_HINT (layout_geometry self) !! n = Some hints →
  refresh_keys_line w h kt kr kb kl n tt self
  = (set_LINE n (pixel_of w h kt kr kb kl <$> hints) self, Ok tt).
Proof.
  intros Hh. unfold refresh_keys_line, bind, modify, lift, getitem. simpl.
  rewrite Hh. rewrite pixel_line_exact by (simpl; by rewrite lookup_insert_eq).
  by rewrite set_LINE_set_LINE.
Qed.

Lemma refresh_keys_line_Ok w h kt kr kb kl n self self' :
  refresh_keys_line w h kt kr kb kl n tt self = (self', Ok tt) →
  ∃ hints, LINE_HINT (layout_geometry self) !! n = Some hints
           ∧ self' = set_LINE n (pixel_of w h kt kr kb kl <$> hints) self.
Proof.
  destruct (LINE_HINT (layout_geometry self) !! n) as [hints|] eqn:Hh.
  - rewrite (refresh_keys_line_exact _ _ _ _ _ _ _ _ _ Hh).
    intros [= <-]. by exists hints.
  - unfold refresh_keys_line, bind, modify, lift, getitem. simpl.
    by rewrite Hh.
Qed.

Lemma refresh_keys_lines_Ok w h kt kr kb kl l :
  NoDup l → ∀ self self',
  for_each l (refresh_keys_line w h kt kr kb kl) tt self = (self', Ok tt) →
  geometry_only self self'
  ∧ LINE_HINT (layout_geometry self') = LINE_HINT (layout_geometry self)
  ∧ ∀ n, n ∈ l →
      ∃ hints, LINE_HINT (layout_geometry self) !! n = Some hints
               ∧ LINE (layout_geometry self') !! n
                 = Some (pixel_of w h kt kr kb kl <$> hints).
Proof.
  induction 1 as [|a l Ha Hnd IH]; intros self self'; simpl.
  - intros [= <-]. split; [reflexivity|]. split; [done|].
    by intros n ?%elem_of_nil.
  - intros (s1 & [] & Hline & Hrest)%bind_Ok.
    apply refresh_keys_line_Ok in Hline as (hints & Hh & ->).
    destruct (IH _ _ Hrest) as (Hfr & HLH & Hin).
    split; [|split].
    + etrans; [|exact Hfr]. apply geometry_only_set.
    + by rewrite HLH.
    + intros n [->|Hn]%elem_of_cons.
      * exists hints. split; [done|].
        assert (∀ l' self1 self2,
                  a ∉ l' →
                  for_each l' (refresh_keys_line w h kt kr kb kl) tt self1
                  = (self2, Ok tt) →
                  LINE (layout_geometry self2) !! a
                  = LINE (layout_geometry self1) !! a) as Hkeep.
        { clear. induction l' as [|b l' IHl]; intros self1 self2 Hnot; simpl.
          - by intros [= <-].
          - intros (s1 & [] & Hline & Hrest)%bind_Ok.
            apply refresh_keys_line_Ok in Hline as (hints & Hh & ->).
            apply not_elem_of_cons in Hnot as [Hne Hnot].
            rewrite (IHl _ _ Hnot Hrest). simpl.
            by rewrite lookup_insert_ne. }
        rewrite (Hkeep _ _ _ Ha Hrest). simpl. by rewrite lookup_insert_eq.
      * destruct (Hin n Hn) as (hints' & Hh' & Hl'). by exists hints'.
Qed.

Lemma draw_keys_state self : (draw_keys self).1 = self.
Proof.
  symmetry. revert self.
  change (preserves eq (draw_keys (F := Q))).
  unfold draw_keys.
  repeat first
    [ progress intros
    | apply preserves_bind
    | apply preserves_for_each
    | apply preserves_ret
    | apply preserves_lift
    | apply preserves_gets
    | apply (preserves_read eq)
    | apply _
    | match goal with |- preserves _ (let '(_, _) := ?p in _) =>
        destruct p end ].
Qed.

(** The geometry that [refresh(True)] leaves, in exact arithmetic. *)
Lemma refresh_exact self self' layout mtop mright mbottom mleft
    kmtop kmright kmbottom kmleft w h :
  refresh true self = (self', Ok tt) →
  current_layout self = Ok layout →
  margin_hint self = (mtop, mright, mbottom, mleft) →
  key_margin self = (kmtop, kmright, kmbottom, kmleft) →
  widget_size self = (w, h) →
  let uw_hint := 1 / inject_Z (cols layout) * (1 - mleft - mright) in
  let uh_hint := 1 / inject_Z (rows layout) * (1 - mtop - mbottom) in
  geometry_only self self'
  ∧ ∀ n, (1 ≤ n ≤ rows layout)%Z →
      ∃ keys y_n,
        lines layout !! (layout_mode self, n) = Some keys
        ∧ y_n == 0 + mbottom + (1 - mtop - mbottom) - inject_Z n * uh_hint
        ∧ LINE_HINT (layout_geometry self') !! n
          = Some (line_hints uw_hint uh_hint y_n keys (0 + mleft))
        ∧ LINE (layout_geometry self') !! n
          = Some (pixel_of w h kmtop kmright kmbottom kmleft
                    <$> line_hints uw_hint uh_hint y_n keys (0 + mleft)).
Proof.
  intros Hok Hlay Hm Hkm Hsize. unfold refresh in Hok.
  apply bind_Ok in Hok as (s1 & [] & Hhint & Hok).
  apply bind_Ok in Hok as (s2 & [] & Hkeys & Hok).
  assert (self' = s2) as ->.
  { pose proof (refresh_active_keys_layer_state s2) as Hst.
    by rewrite Hok in Hst. }
  destruct (refresh_keys_hint_exact _ _ _ _ _ _ _ Hhint Hlay Hm)
    as (_ & _ & Hfr1 & _ & _ & Hin).
  apply geometry_only_fields in Hfr1 as Hf1.
  destruct Hf1 as (Hl1 & Ha1 & _ & _ & _ & _ & _ & Hkm1 & Hsz1 & _).
  unfold refresh_keys in Hkeys.
  apply bind_Ok in Hkeys as (t1 & layout' & Hlay' & Hkeys).
  unfold lift, current_layout in Hlay'. injection Hlay' as <- Hlay'.
  rewrite Hl1, Ha1 in Hlay'. unfold current_layout in Hlay.
  rewrite Hlay in Hlay'. injection Hlay' as <-.
  apply bind_Ok in Hkeys as (t1 & sz & Hsz & Hkeys).
  unfold gets in Hsz. injection Hsz as <- <-.
  rewrite Hsz1, Hsize in Hkeys.
  apply bind_Ok in Hkeys as (t1 & km & Hk & Hkeys).
  unfold gets in Hk. injection Hk as <- <-.
  rewrite Hkm1, Hkm in Hkeys.
  apply bind_Ok in Hkeys as (t1 & [uw' uh'] & Hu & Hkeys).
  unfold lift in Hu. injection Hu as <- _.
  apply bind_Ok in Hkeys as (t2 & [] & Hloop & Hdraw).
  assert (s2 = t2) as ->.
  { pose proof (draw_keys_state t2) as Hst. by rewrite Hdraw in Hst. }
  destruct (refresh_keys_lines_Ok _ _ _ _ _ _ _ (NoDup_seqZ _ _) _ _ Hloop)
    as (Hfr2 & HLH & Hpix).
  split; [by etrans|].
  intros n Hn. destruct (Hin n Hn) as (keys & y_n & Hkeys & Hyn & Hh).
  exists keys, y_n. split; [done|]. split; [done|].
  split; [by rewrite HLH|].
  destruct (Hpix n) as (hints & Hh' & Hl); [by apply elem_of_line_numbers|].
  rewrite Hh in Hh'. by injection Hh' as <-.
Qed.

End Pixels_exact.

(** ** Exact arithmetic: the key under a point *)

Section Hit_exact.
Open Scope Q_scope.

Lemma line_hints_lookup (uw uh y : Q) keys : ∀ x0 i hint,
  line_hints uw uh y keys x0 !! i = Some hint →
  ∃ key, keys !! i = Some key
         ∧ hint.1.2 = y ∧ hint.2.2 = uh ∧ hint.2.1 = key_size key * uw.
Proof.
  induction keys as [|k keys IH]; intros x0 [|i] hint; simpl; try done.
  - intros [= <-]. by exists k.
  - apply IH.
Qed.

Lemma line_hints_x_lower (uw uh y : Q) keys : ∀ x0 i hint,
  Forall (λ key, 0 <= key_size key * uw) keys →
  line_hints uw uh y keys x0 !! i = Some hint →
  x0 <= hint.1.1.
Proof.
  induction keys as [|k keys IH]; intros x0 [|i] hint Hpos; simpl; try done.
  - intros [= <-]. simpl. lra.
  - intros Hl. apply Forall_cons in Hpos as [Hk Hpos].
    pose proof (IH _ _ _ Hpos Hl) as Hle. lra.
Qed.

Lemma find_key_exact (uw uh y x_hint : Q) keys : ∀ x0 c i hint,
  Forall (λ key, 0 <= key_size key * uw) keys →
  line_hints uw uh y keys x0 !! i = Some hint →
  hint.1.1 <= x_hint → x_hint < hint.1.1 + hint.2.1 →
  find_key x_hint (line_hints uw uh y keys x0) c = Some (c + i)%nat.
Proof.
  induction keys as [|k keys IH]; intros x0 c [|i] hint Hpos; simpl; try done.
  - intros [= <-] Hlo Hhi. simpl in *.
    apply Qle_bool_iff in Hlo. rewrite Hlo.
    assert (Qlt_bool x_hint (x0 + key_size k * uw) = true) as ->
      by by apply (Q_flt x_hint).
    simpl. f_equal. lia.
  - intros Hl Hlo Hhi. apply Forall_cons in Hpos as [Hk Hpos].
    pose proof (line_hints_x_lower _ _ _ _ _ _ _ Hpos Hl) as Hle.
    assert (Qlt_bool x_hint (x0 + key_size k * uw) = false) as ->.
    { apply not_true_iff_false. intros Hlt%(Q_flt x_hint). lra. }
    rewrite andb_false_r.
    rewrite (IH _ (S c) i hint Hpos Hl Hlo Hhi). f_equal. lia.
Qed.

Lemma Qtrunc_floor (q : Q) :
  Qtrunc q = Qfloor q ∨ (Qtrunc q = (Qfloor q + 1)%Z ∧ (Qtrunc q ≤ 0)%Z).
Proof. exact (int_floor (F := Q) q). Qed.

Lemma Qtrunc_lower (q : Q) : q - 1 < inject_Z (Qtrunc q).
Proof.
  pose proof (Qlt_floor q) as Hfl. rewrite inject_Z_plus in Hfl.
  change (inject_Z 1) with 1 in Hfl.
  destruct (Qtrunc_floor q) as [-> | [-> _]]; [lra|].
  rewrite inject_Z_plus. change (inject_Z 1) with 1. lra.
Qed.

Lemma Qtrunc_upper (q : Q) : (0 < Qtrunc q)%Z → inject_Z (Qtrunc q) <= q.
Proof.
  intros Hpos. destruct (Qtrunc_floor q) as [-> | [_ Hneg]]; [|lia].
  apply Qfloor_le.
Qed.

Lemma Qtrunc_upper_nonneg (q : Q) : 0 <= q → inject_Z (Qtrunc q) <= q.
Proof.
  intros Hq. rewrite Qtrunc_nonneg by done. apply Qfloor_le.
Qed.

(** In one dimension: the middle of a pixel interval of length 2 or more
    lies inside the interval of its hint. *)
Lemma center_in_interval (a len km_lo km_hi scale : Q) (k klen : Z) :
  0 < scale → 0 <= a → 0 <= km_lo → 0 <= km_hi →
  k = Qtrunc (a * scale + km_lo) →
  klen = Qtrunc (len * scale - km_lo - km_hi) →
  (2 ≤ klen)%Z →
  a * scale <= inject_Z k + inject_Z klen / 2
  ∧ inject_Z k + inject_Z klen / 2 < (a + len) * scale.
Proof.
  intros Hs Ha Hlo Hhi -> -> Hlen.
  assert (0 <= a * scale) as Has by (apply Qmult_le_0_compat; lra).
  pose proof (Qtrunc_lower (a * scale + km_lo)) as H1.
  pose proof (Qtrunc_upper_nonneg (a * scale + km_lo) ltac:(lra)) as H2.
  pose proof (Qtrunc_upper (len * scale - km_lo - km_hi) ltac:(lia)) as H3.
  assert (2 <= inject_Z (Qtrunc (len * scale - km_lo - km_hi))) as H4.
  { change 2 with (inject_Z 2). by rewrite <- Zle_Qle. }
  clear Hlen.
  set (t1 := inject_Z (Qtrunc (a * scale + km_lo))) in *.
  set (t2 := inject_Z (Qtrunc (len * scale - km_lo - km_hi))) in *.
  clearbody t1 t2.
  unfold Qdiv. change (/ 2) with (1 # 2).
  split; lra.
Qed.

End Hit_exact.

(** * The claims *)

(** C2: the mode computed from the modifier flags is the exclusive or of
    [have_shift] and [have_capslock]: shift held while capslock is on
    gives [normal], exactly one of the two gives [shift], none gives
    [normal]; and this is the mode [_update_layout_mode] leaves in
    [layout_mode]. *)
Theorem C2_layout_mode_is_xor :
  layout_mode_of true true = normal ∧
  layout_mode_of true false = shift ∧
  layout_mode_of false true = shift ∧
  layout_mode_of false false = normal ∧
  (∀ have_shift have_capslock,
     layout_mode_of have_shift have_capslock
     = if xorb have_shift have_capslock then shift else normal) ∧
  (∀ F (HF : PyFloat F) (self : @VKeyboard F),
     layout_mode (_update_layout_mode self).1
     = layout_mode_of (have_shift self) (have_capslock self)).
Proof.
  repeat split; try reflexivity.
  - by intros [] [].
  - intros F HF self. apply _update_layout_mode_sets.
Qed.

(** C8, as the code has it: when at least one layout is registered,
    [_load_layout] keeps a registered name and writes nothing to the log,
    and replaces a name that is neither registered nor ["qwerty"] by
    ["qwerty"] after logging one error that names it.  (When no layout is
    registered it returns at once: [_load_layout_empty].) *)
Theorem C8_load_layout_resolves :
  ∀ F (HF : PyFloat F) (self : @VKeyboard F),
    available_layouts self ≠ ∅ →
    (layout self ∈ dom (available_layouts self) →
     layout (_load_layout self).1 = layout self
     ∧ log (_load_layout self).1 = log self)
    ∧ (layout self ∉ dom (available_layouts self) →
       layout self ≠ "qwerty" →
       layout (_load_layout self).1 = "qwerty"
       ∧ log (_load_layout self).1
         = log self ++ [not_found_message (layout self)]).
Proof.
  intros F HF self Hne.
  pose proof (_load_layout_state self Hne) as Hst.
  apply geometry_only_fields in Hst as (Hl & _ & _ & _ & _ & _ & _ & _ & _ & Hlog & _).
  split.
  - intros Hin. rewrite Hl, Hlog.
    by rewrite (bool_decide_eq_false_2 (layout self ∉ _)) by auto.
  - intros Hout Hq. rewrite Hl, Hlog.
    rewrite (bool_decide_eq_true_2 (layout self ∉ _)) by done.
    by rewrite (bool_decide_eq_true_2 (layout self ≠ _)) by done.
Qed.

Lemma C8_fallback_scenario :
  available_layouts qwerty_only_keyboard ≠ ∅
  ∧ layout (_load_layout qwerty_only_keyboard).1 = "qwerty"
  ∧ log (_load_layout qwerty_only_keyboard).1
    = [not_found_message "doesnotexist"].
Proof.
  assert (available_layouts qwerty_only_keyboard ≠ ∅) as Hne
    by apply insert_non_empty.
  split; [exact Hne|].
  apply (C8_load_layout_resolves _ _ qwerty_only_keyboard Hne).
  - simpl. rewrite dom_singleton_L. intros Hin%elem_of_singleton.
    discriminate Hin.
  - discriminate.
Defined.

(** With no layout registered, a name that is absent and is not ["qwerty"]
    is neither reported nor replaced. *)
Lemma C8_no_layout_counterexample :
  (layout no_layout_keyboard ∉ dom (available_layouts no_layout_keyboard))
  ∧ layout no_layout_keyboard ≠ "qwerty"
  ∧ _load_layout no_layout_keyboard = (no_layout_keyboard, Ok tt)
  ∧ layout (_load_layout no_layout_keyboard).1 = "doesnotexist"
  ∧ log (_load_layout no_layout_keyboard).1 = [].
Proof.
  split; [simpl; rewrite dom_empty_L; apply not_elem_of_empty|].
  split; [discriminate|].
  by rewrite (_load_layout_empty no_layout_keyboard).
Qed.

(** C10: for a touch that recorded no key on touch-down, [process_key_up]
    (and so [on_touch_up], and the touch-up event as a whole) returns
    without an exception and leaves the whole keyboard state as it was,
    [active_keys], [have_shift] and [have_capslock] included. *)
Theorem C10_touch_up_without_key :
  ∀ F (HF : PyFloat F) (self : @VKeyboard F) (touch : @Touch F),
    ud touch = None →
    process_key_up touch self = (self, Ok tt)
    ∧ on_touch_up touch self = (self, Ok tt)
    ∧ ∀ (w : @World F) id,
        keyboard w = self → touches w !! id = Some touch →
        step w (TouchUp id) = Some (mkWorld self (delete id (touches w))).
Proof.
  intros F HF self touch Hud. split; [|split].
  - by apply process_key_up_no_key.
  - unfold on_touch_up. destruct (grab_current touch); [|done].
    by apply process_key_up_no_key.
  - intros w id <- Hl. unfold step. rewrite Hl.
    unfold on_touch_up. simpl.
    destruct (grab_list touch); [|done].
    by rewrite process_key_up_no_key.
Qed.

Lemma C10_witness :
  let touch := mkTouch 1 (at_point 6 4) true None true true true in
  process_key_up touch (demo (F := float)) = (demo, Ok tt)
  ∧ on_touch_up touch (demo (F := float)) = (demo, Ok tt).
Proof.
  intros touch.
  destruct (C10_touch_up_without_key float _ demo touch eq_refl)
    as (Hup & Hon & _).
  by split.
Defined.

(** C4, as the code has it: the margin test is made by [on_touch_down], not
    by the hit-tester.  For a point that [touch_is_in_margin] places on a
    margin, [on_touch_down] does not look for a key: the keyboard state is
    left as it was and no key is recorded on the touch.  A touch on the
    widget is handed to Scatter's own handler (line 454), and is grabbed
    exactly when that handler grabs it; the keyboard's own
    [touch.grab(self)] (line 453) is not reached. *)
Theorem C4_margin_touch_is_not_hit_tested :
  ∀ F (HF : PyFloat F) (self : @VKeyboard F) (touch : @Touch F),
    touch_is_in_margin self (pos touch).1 (pos touch).2 = Ok true →
    let touch' :=
      if collides touch && scatter_grabs touch then grab touch else touch in
    on_touch_down touch self = (self, Ok (touch', collides touch))
    ∧ ud touch' = ud touch
    ∧ grab_list touch'
      = grab_list touch || (collides touch && scatter_grabs touch).
Proof.
  intros F HF self touch Hm. unfold on_touch_down.
  destruct (pos touch) as [x y]. simpl in Hm.
  destruct (collides touch); simpl.
  - unfold bind at 1, lift. rewrite Hm. simpl.
    unfold scatter_on_touch_down, bind, ret.
    destruct (scatter_grabs touch); simpl; [|by rewrite orb_false_r].
    by rewrite orb_true_r.
  - by rewrite orb_false_r.
Qed.

Lemma C4_witness :
  let touch := mkTouch 1 (at_point 4 1) true None false false true in
  touch_is_in_margin quarter_margin_demo (pos touch).1 (pos touch).2 = Ok true
  ∧ on_touch_down touch quarter_margin_demo
    = (quarter_margin_demo, Ok (grab touch, true))
  ∧ ud (grab touch) = None.
Proof.
  intros touch.
  assert (touch_is_in_margin quarter_margin_demo (pos touch).1 (pos touch).2
          = Ok true) as Hm by (vm_compute; reflexivity).
  split; [exact Hm|].
  destruct (C4_margin_touch_is_not_hit_tested float _ quarter_margin_demo
              touch Hm) as (Hdown & Hud & _).
  split; [exact Hdown | exact Hud].
Defined.

(** The point (4, 1) of the 8 by 8 keyboard lies in the bottom margin
    (y/h = 0.125 < 0.25), and [get_key_at_pos] returns the key "c" of the
    bottom line for it. *)
Lemma C4_counterexample :
  touch_is_in_margin quarter_margin_demo 4%float 1%float = Ok true
  ∧ get_key_at_pos quarter_margin_demo 4%float 1%float
    = Ok (Some (key "c" None 2, (2%Z, 1%nat))).
Proof. split; vm_compute; reflexivity. Qed.

(** C1, as the code has it.  After every handler that returns, starting
    from a keyboard with no key down:
    - if [have_capslock] is true, the reserved id -1 is a key of
      [active_keys];
    - if -1 is a key of [active_keys], then [have_capslock] is true or a
      touch that went down on a capslock key is still held (a press that
      turns capslock off keeps the entry until its release);
    - a held touch that went down on shift_L or shift_R has its entry under
      its own id, which is not -1;
    - an id other than -1 with no held touch has no entry (the entry of a
      touch is removed on its release);
    - a touch-down that does not resolve to a capslock key leaves the entry
      of -1 as it was. *)
Theorem C1_sentinel_and_shift_entries :
  ∀ F (HF : PyFloat F) (self : @VKeyboard F) (evs : list Event)
    (w : @World F),
    quiet self →
    run (mkWorld self ∅) evs = Some w →
    (have_capslock (keyboard w) = true →
     is_Some (active_keys (keyboard w) !! (-1)%Z))
    ∧ (is_Some (active_keys (keyboard w) !! (-1)%Z) →
       have_capslock (keyboard w) = true
       ∨ ∃ id touch, touches w !! id = Some touch
                     ∧ is_capslock_touch touch = true)
    ∧ (∀ id touch key,
         touches w !! id = Some touch → ud touch = Some key →
         special_in (special_char key.1) ["shift_L"; "shift_R"] = true →
         id ≠ (-1)%Z ∧ active_keys (keyboard w) !! id = Some key.2)
    ∧ (∀ id, id ≠ (-1)%Z → touches w !! id = None →
             active_keys (keyboard w) !! id = None)
    ∧ (∀ id p inside grabbed w',
         step w (TouchDown id p inside grabbed) = Some w' →
         (∀ key, get_key_at_pos (keyboard w) p.1 p.2 = Ok (Some key) →
                 special_is (special_char key.1) "capslock" = false) →
         active_keys (keyboard w') !! (-1)%Z
         = active_keys (keyboard w) !! (-1)%Z).
Proof.
  intros F HF self evs w Hq Hrun.
  pose proof (key_state_inv_run evs _ _ (key_state_inv_init self Hq) Hrun)
    as Hinv.
  split; [|split; [|split; [|split]]].
  - apply (inv_capslock_on _ Hinv).
  - intros Hsome. destruct (have_capslock (keyboard w)) eqn:Hc; [by left|].
    right. by apply (inv_capslock_off _ Hinv).
  - intros id touch key Hl Hud Hshift. split.
    + by destruct (inv_uid _ Hinv _ _ Hl).
    + destruct (inv_held _ Hinv _ _ _ Hl Hud) as [_ Hact]. apply Hact.
      unfold is_capslock_touch. rewrite Hud.
      destruct (special_is _ _) eqn:Hsp; [|done].
      apply capslock_is_no_shift in Hsp. congruence.
  - intros id Hne Hnone.
    destruct (active_keys (keyboard w) !! id) as [k|] eqn:Hl; [|done].
    destruct (inv_owner _ Hinv id) as (t & Ht & _); [by rewrite Hl|done|].
    congruence.
  - intros id p inside grabbed w' Hstep Hkey.
    destruct (step_TouchDown _ _ _ _ _ _ Hstep)
      as (Hid & _ & touch' & _ & _ & [[_ ->] | (key & _ & _ & Hk & -> & _)]);
      [done|].
    rewrite (Hkey _ Hk). by rewrite lookup_insert_ne.
Qed.

Lemma C1_witness :
  ∃ w, quiet (demo (F := float))
       ∧ run (mkWorld demo ∅) capslock_twice = Some w
       ∧ (have_capslock (keyboard w) = true →
          is_Some (active_keys (keyboard w) !! (-1)%Z)).
Proof.
  destruct (run (mkWorld demo ∅) capslock_twice) as [w|] eqn:Hrun;
    [|vm_compute in Hrun; discriminate Hrun].
  assert (quiet (demo (F := float))) as Hq
    by (repeat split; vm_compute; reflexivity).
  exists w. split; [exact Hq|]. split; [reflexivity|].
  exact (proj1 (C1_sentinel_and_shift_entries float _ demo capslock_twice w
                  Hq Hrun)).
Defined.

(** Capslock pressed, released and pressed again: when the second
    touch-down handler returns, [have_capslock] is false and the reserved
    id is still a key of [active_keys]. *)
Lemma C1_counterexample :
  ∃ w, run (mkWorld (demo (F := float)) ∅) capslock_twice = Some w
       ∧ have_capslock (keyboard w) = false
       ∧ active_keys (keyboard w) !! (-1)%Z = Some (1%Z, 2%nat).
Proof.
  eexists. split; [vm_compute; reflexivity|].
  split; vm_compute; reflexivity.
Qed.

(** C5, as the code has it.  [have_shift] is one flag, not a count of the
    held shift keys.  After every handler that returns, starting from a
    keyboard with no key down:
    - if [have_shift] is true, a touch that went down on shift_L or shift_R
      is held;
    - a touch-down that records a shift_L or shift_R key sets [have_shift];
    - the release of any held shift touch clears [have_shift], whether or
      not another shift touch is still held. *)
Theorem C5_have_shift_follows_last_shift_event :
  ∀ F (HF : PyFloat F) (self : @VKeyboard F) (evs : list Event)
    (w : @World F),
    quiet self →
    run (mkWorld self ∅) evs = Some w →
    (have_shift (keyboard w) = true →
     ∃ id touch, touches w !! id = Some touch ∧ is_shift_touch touch = true)
    ∧ (∀ id p inside grabbed w' touch,
         step w (TouchDown id p inside grabbed) = Some w' →
         touches w' !! id = Some touch → is_shift_touch touch = true →
         have_shift (keyboard w') = true)
    ∧ (∀ id touch w',
         touches w !! id = Some touch → is_shift_touch touch = true →
         step w (TouchUp id) = Some w' →
         have_shift (keyboard w') = false).
Proof.
  intros F HF self evs w Hq Hrun.
  pose proof (key_state_inv_run evs _ _ (key_state_inv_init self Hq) Hrun)
    as Hinv.
  split; [|split].
  - apply (inv_shift _ Hinv).
  - intros id p inside grabbed w' touch Hstep Hl Hshift.
    destruct (step_TouchDown _ _ _ _ _ _ Hstep)
      as (_ & _ & touch' & Ht & _ & Hcases).
    rewrite Ht, lookup_insert_eq in Hl. injection Hl as ->.
    unfold is_shift_touch in Hshift.
    destruct Hcases as [[Hud _] | (key & Hud & _ & _ & _ & _ & ->)];
      rewrite Hud in Hshift; [done|].
    rewrite Hshift.
    destruct (special_is _ _) eqn:Hsp; [|done].
    apply capslock_is_no_shift in Hsp. congruence.
  - intros id touch w' Hl Hshift Hstep.
    destruct (step_TouchUp _ _ _ Hinv Hstep) as (t & Hl' & Hu & _ & ->).
    rewrite Hl in Hl'. injection Hl' as <-.
    unfold is_shift_touch in Hshift.
    destruct (ud touch) as [key|] eqn:Hud; [|done].
    assert (special_is (special_char key.1) "capslock" = false) as Hsp.
    { destruct (special_is _ _) eqn:Hsp; [|done].
      apply capslock_is_no_shift in Hsp. congruence. }
    destruct (inv_held _ Hinv _ _ _ Hl Hud) as [_ Hact].
    destruct (released_other touch key (keyboard w) Hsp) as (_ & -> & _).
    + rewrite Hu, Hact; [done|]. unfold is_capslock_touch. by rewrite Hud.
    + by rewrite Hshift.
Qed.

Lemma C5_witness :
  ∃ w, quiet (demo (F := float))
       ∧ run (mkWorld demo ∅) two_shifts = Some w
       ∧ (have_shift (keyboard w) = true →
          ∃ id touch, touches w !! id = Some touch
                      ∧ is_shift_touch touch = true).
Proof.
  destruct (run (mkWorld demo ∅) two_shifts) as [w|] eqn:Hrun;
    [|vm_compute in Hrun; discriminate Hrun].
  assert (quiet (demo (F := float))) as Hq
    by (repeat split; vm_compute; reflexivity).
  exists w. split; [exact Hq|]. split; [reflexivity|].
  exact (proj1 (C5_have_shift_follows_last_shift_event float _ demo two_shifts
                  w Hq Hrun)).
Defined.

(** shift_L and shift_R are held together and shift_L is released:
    [have_shift] is false while the touch on shift_R is still down. *)
Lemma C5_counterexample :
  ∃ w, run (mkWorld (demo (F := float)) ∅) (two_shifts ++ [TouchUp 1])
       = Some w
       ∧ have_shift (keyboard w) = false
       ∧ (is_shift_touch <$> touches w !! 2%Z) = Some true.
Proof.
  eexists. split; [vm_compute; reflexivity|].
  split; vm_compute; reflexivity.
Qed.











(** * Further properties of the code *)

(** ** KeyStateMachine: one touch *)

Section Key_cycle.
Context {F : Type} `{PyFloat F}.
Implicit Types (self : @VKeyboard F) (touch : @Touch F) (w : @World F).


Lemma process_key_on_run touch self key :
  get_key_at_pos self (pos touch).1 (pos touch).2 = Ok (Some key) →
  let self1 :=
    if special_in (special_char key.1)
         ["shift_L"; "shift_R"; "capslock"; "layout"]
    then self else add_sent key.1 self in
  if special_is (special_char key.1) "capslock" then
    (process_key_on touch self).1
    = set_active_keys (<[(-1)%Z := key.2]> (active_keys self))
        (set_have_capslock (negb (have_capslock self)) self1)
  else if special_in (special_char key.1) ["shift_L"; "shift_R"] then
    (process_key_on touch self).1
    = set_active_keys (<[uid touch := key.2]> (active_keys self))
        (set_have_shift true self1)
  else if special_is (special_char key.1) "layout" then
    process_key_on touch self = (self1, Raise AssertionError)
  else
    (process_key_on touch self).1
    = set_active_keys (<[uid touch := key.2]> (active_keys self)) self1.
Proof.
  intros Hk self1. subst self1. destruct key as [key_data place].
  cbn [fst snd].
  destruct (special_in (special_char key_data)
              ["shift_L"; "shift_R"; "capslock"; "layout"]) eqn:H4;
    destruct (special_is (special_char key_data) "capslock") eqn:Hc;
    destruct (special_in (special_char key_data) ["shift_L"; "shift_R"])
      eqn:Hs;
    destruct (special_is (special_char key_data) "layout") eqn:Hl;
    unfold process_key_on; destruct (pos touch) as [x y]; simpl in Hk;
    unfold bind at 1, lift at 1; rewrite Hk; cbn [fst snd];
    rewrite ?H4, ?Hc, ?Hs, ?Hl;
    unfold send, change_layout, bind, modify, gets, ret, raise; simpl;
    try done;
    match goal with
    | |- context [refresh_active_keys_layer ?s] =>
        destruct (refresh_active_keys_layer_cases s) as [-> | ->]
    end; by destruct self.
Qed.

Lemma special_is_Some (special_char : option string) (name : string) :
  special_char = Some name → special_is special_char name = true.
Proof. intros ->. unfold special_is. by apply bool_decide_eq_true_2. Qed.

Lemma released_fields touch key self :
  keys_only self (released touch key self)
  ∧ sent (released touch key self) = sent self.
Proof.
  unfold released, keys_only.
  destruct (bool_decide _); [|done].
  destruct (special_in _ _); simpl; destruct (_ && _); by simpl.
Qed.

(** What [process_key_up] leaves of the state of a pressed key. *)
Lemma released_after_press touch key self :
  ∀ self1,
    active_keys self1 = <[active_id touch key.1 := key.2]> (active_keys self) →
    active_keys (released touch key self1)
    = (if special_is (special_char key.1) "capslock" && have_capslock self1
       then <[(-1)%Z := key.2]> (delete (-1)%Z (active_keys self))
       else delete (active_id touch key.1) (active_keys self))
    ∧ have_capslock (released touch key self1) = have_capslock self1
    ∧ have_shift (released touch key self1)
      = (if special_in (special_char key.1) ["shift_L"; "shift_R"]
         then false else have_shift self1).
Proof.
  intros self1 Ha. unfold released.
  rewrite bool_decide_eq_true_2
    by (rewrite Ha; apply elem_of_dom; by rewrite lookup_insert_eq).
  rewrite Ha, delete_insert_eq.
  unfold active_id.
  destruct (special_is (special_char key.1) "capslock") eqn:Hc.
  - rewrite (capslock_is_no_shift _ Hc). simpl.
    by destruct (have_capslock self1) eqn:E; simpl; rewrite ?E.
  - simpl. by destruct (special_in _ _); simpl.
Qed.

Lemma process_key_on_state_Some touch self key self' touch' :
  get_key_at_pos self (pos touch).1 (pos touch).2 = Ok (Some key) →
  process_key_on touch self = (self', Ok touch') →
  let self1 :=
    if special_in (special_char key.1)
         ["shift_L"; "shift_R"; "capslock"; "layout"]
    then self else add_sent key.1 self in
  self' = set_active_keys
            (<[active_id touch key.1 := key.2]> (active_keys self))
            (if special_is (special_char key.1) "capslock"
             then set_have_capslock (negb (have_capslock self)) self1
             else if special_in (special_char key.1) ["shift_L"; "shift_R"]
                  then set_have_shift true self1 else self1).
Proof.
  intros Hk Hon. pose proof (process_key_on_run touch self key Hk) as Hrun.
  cbv zeta in Hrun. unfold active_id. cbv zeta.
  destruct (special_is (special_char key.1) "capslock");
    [|destruct (special_in (special_char key.1) ["shift_L"; "shift_R"]);
      [|destruct (special_is (special_char key.1) "layout")]];
    rewrite Hon in Hrun; simpl in Hrun; done.
Qed.

Lemma process_key_on_keys_only touch self :
  keys_only self (process_key_on touch self).1.
Proof.
  destruct (get_key_at_pos self (pos touch).1 (pos touch).2)
    as [[key|]|e] eqn:Hk.
  - pose proof (process_key_on_run touch self key Hk) as Hrun.
    cbv zeta in Hrun.
    destruct (special_is (special_char key.1) "capslock");
      [|destruct (special_in (special_char key.1) ["shift_L"; "shift_R"]);
        [|destruct (special_is (special_char key.1) "layout")]];
      rewrite Hrun; unfold keys_only; simpl;
      by destruct (special_in (special_char key.1)
                     ["shift_L"; "shift_R"; "capslock"; "layout"]).
  - by rewrite (process_key_on_None _ _ Hk).
  - by rewrite (process_key_on_Raise _ _ _ Hk).
Qed.

End Key_cycle.

(** X1: a touch-down on a key whose action is "layout" raises
    AssertionError ([change_layout] is [assert(0)]); the keyboard state is
    left as it was: no key is sent and no active key is recorded. *)
Theorem X1_layout_key_raises :
  ∀ F (HF : PyFloat F) (self : @VKeyboard F) (touch : @Touch F)
    (key : @KeyHit F),
    get_key_at_pos self (pos touch).1 (pos touch).2 = Ok (Some key) →
    special_char key.1 = Some "layout" →
    process_key_on touch self = (self, Raise AssertionError)
    ∧ (collides touch = true →
       touch_is_in_margin self (pos touch).1 (pos touch).2 = Ok false →
       on_touch_down touch self = (self, Raise AssertionError)).
Proof.
  intros F HF self touch key Hk Hl.
  pose proof (process_key_on_run touch self key Hk) as Hrun.
  cbv zeta in Hrun. rewrite Hl in Hrun.
  change (process_key_on touch self = (self, Raise AssertionError)) in Hrun.
  split; [exact Hrun|].
  intros Hc Hm. unfold on_touch_down.
  destruct (pos touch) as [x y]. simpl in Hm.
  rewrite Hc. simpl. unfold bind at 1, lift. rewrite Hm. simpl.
  unfold bind. by rewrite Hrun.
Qed.

(** X2: a touch-down that records a key hands it to [send] exactly when
    its action is none of shift_L, shift_R, capslock and layout (so
    backspace, enter and escape keys are sent like character keys); a
    touch-up never sends anything. *)
Theorem X2_keys_are_sent_on_touch_down :
  ∀ F (HF : PyFloat F) (self self' : @VKeyboard F) (touch touch' : @Touch F)
    (key : @KeyHit F),
    get_key_at_pos self (pos touch).1 (pos touch).2 = Ok (Some key) →
    process_key_on touch self = (self', Ok touch') →
    sent self'
    = (if special_in (special_char key.1)
            ["shift_L"; "shift_R"; "capslock"; "layout"]
       then sent self else sent self ++ [key.1])
    ∧ ∀ touch2, sent (process_key_up touch2 self').1 = sent self'.
Proof.
  intros F HF self self' touch touch' key Hk Hon.
  split.
  - rewrite (process_key_on_state_Some _ _ _ _ _ Hk Hon). simpl.
    destruct (special_is (special_char key.1) "capslock");
      [|destruct (special_in (special_char key.1) ["shift_L"; "shift_R"])];
      simpl;
      by destruct (special_in (special_char key.1)
                     ["shift_L"; "shift_R"; "capslock"; "layout"]).
  - intros touch2. rewrite process_key_up_state.
    destruct (ud touch2) as [key2|]; [|done].
    apply released_fields.
Qed.


(** X4: pressing and releasing a capslock key toggles [have_capslock];
    after the release the reserved id -1 is a key of [active_keys] exactly
    when capslock is now on, every other entry of [active_keys] is as
    before the press, and [have_shift] too. *)
Theorem X4_capslock_press_release_toggles :
  ∀ F (HF : PyFloat F) (self self1 : @VKeyboard F) (touch touch1 : @Touch F)
    (key : @KeyHit F),
    get_key_at_pos self (pos touch).1 (pos touch).2 = Ok (Some key) →
    special_char key.1 = Some "capslock" →
    process_key_on touch self = (self1, Ok touch1) →
    let self2 := (process_key_up touch1 self1).1 in
    have_capslock self2 = negb (have_capslock self)
    ∧ active_keys self2 !! (-1)%Z
      = (if have_capslock self then None else Some key.2)
    ∧ (∀ id, id ≠ (-1)%Z →
             active_keys self2 !! id = active_keys self !! id)
    ∧ have_shift self2 = have_shift self.
Proof.
  intros F HF self self1 touch touch1 key Hk Hcaps Hon self2.
  destruct (process_key_on_Some _ _ _ _ _ Hk Hon) as (-> & Ha & Hc & Hs).
  apply special_is_Some in Hcaps. rewrite Hcaps in Hc, Hs.
  subst self2. rewrite process_key_up_state. simpl.
  assert (active_id (set_ud key touch) key.1 = active_id touch key.1) as Hid
    by done.
  destruct (released_after_press (set_ud key touch) key self self1)
    as (Ha2 & Hc2 & Hs2); [by rewrite Hid|].
  rewrite Hid in Ha2. unfold active_id in Ha2. rewrite Hcaps in Ha2.
  rewrite (capslock_is_no_shift _ Hcaps) in Hs2.
  rewrite Ha2, Hc2, Hs2, Hc, Hs. simpl.
  split; [done|].
  destruct (have_capslock self); simpl.
  - split; [by rewrite lookup_delete_eq|]. split; [|done].
    intros id Hne. by rewrite lookup_delete_ne.
  - split; [by rewrite lookup_insert_eq|]. split; [|done].
    intros id Hne. by rewrite lookup_insert_ne, lookup_delete_ne.
Qed.

(** X5: pressing and releasing any other key with a touch whose id has no
    entry yet leaves [active_keys] and [have_capslock] as they were before
    the press; [have_shift] is false after a shift key and unchanged after
    another key. *)
Theorem X5_key_press_release_restores_active_keys :
  ∀ F (HF : PyFloat F) (self self1 : @VKeyboard F) (touch touch1 : @Touch F)
    (key : @KeyHit F),
    get_key_at_pos self (pos touch).1 (pos touch).2 = Ok (Some key) →
    special_char key.1 ≠ Some "capslock" →
    active_keys self !! uid touch = None →
    process_key_on touch self = (self1, Ok touch1) →
    let self2 := (process_key_up touch1 self1).1 in
    active_keys self1 = <[uid touch := key.2]> (active_keys self)
    ∧ active_keys self2 = active_keys self
    ∧ have_capslock self2 = have_capslock self
    ∧ have_shift self2
      = (if special_in (special_char key.1) ["shift_L"; "shift_R"]
         then false else have_shift self).
Proof.
  intros F HF self self1 touch touch1 key Hk Hcaps Hfresh Hon self2.
  destruct (process_key_on_Some _ _ _ _ _ Hk Hon) as (-> & Ha & Hc & Hs).
  assert (special_is (special_char key.1) "capslock" = false) as Hno.
  { unfold special_is. by apply bool_decide_eq_false_2. }
  rewrite Hno in Hc, Hs. unfold active_id in Ha. rewrite Hno in Ha.
  subst self2. rewrite process_key_up_state. simpl.
  assert (active_id (set_ud key touch) key.1 = uid touch) as Hid
    by (unfold active_id; by rewrite Hno).
  destruct (released_after_press (set_ud key touch) key self self1)
    as (Ha2 & Hc2 & Hs2); [by rewrite Hid|].
  rewrite Hid, Hno in Ha2. simpl in Ha2.
  rewrite Ha2, Hc2, Hs2, Hc, Hs, delete_id by done.
  do 3 (split; [done|]). by destruct (special_in _ _).
Qed.


Lemma X1_witness :
  let touch := mkTouch 1 (at_point 6 4) true None false false true in
  process_key_on touch menu_keyboard = (menu_keyboard, Raise AssertionError).
Proof.
  intros touch.
  edestruct (X1_layout_key_raises float _ menu_keyboard touch) as [Hr _];
    [vm_compute; reflexivity | reflexivity | exact Hr].
Defined.

Lemma X2_witness :
  let touch := mkTouch 1 (at_point 3 1) true None false false true in
  ∃ self' touch',
    process_key_on touch (demo (F := float)) = (self', Ok touch')
    ∧ sent self' = [key "c" None 2].
Proof.
  intros touch.
  edestruct (X2_keys_are_sent_on_touch_down float _) with
    (self := demo (F := float)) (touch := touch) as [Hs _];
    [vm_compute; reflexivity | vm_compute; reflexivity |].
  eexists _, _. split; [vm_compute; reflexivity | exact Hs].
Defined.

Lemma X4_witness :
  let touch := mkTouch 1 (at_point 5 6) true None false false true in
  ∃ self1 touch1,
    process_key_on touch (demo (F := float)) = (self1, Ok touch1)
    ∧ have_capslock (process_key_up touch1 self1).1 = true
    ∧ active_keys (process_key_up touch1 self1).1 !! (-1)%Z
      = Some (1%Z, 2%nat).
Proof.
  intros touch.
  edestruct (X4_capslock_press_release_toggles float _) with
    (self := demo (F := float)) (touch := touch) as (Hc & Ha & _);
    [vm_compute; reflexivity | reflexivity | vm_compute; reflexivity |].
  eexists _, _. split; [vm_compute; reflexivity|].
  split; [exact Hc | exact Ha].
Defined.

Lemma X5_witness :
  let touch := mkTouch 1 (at_point 3 1) true None false false true in
  ∃ self1 touch1,
    process_key_on touch (demo (F := float)) = (self1, Ok touch1)
    ∧ active_keys (process_key_up touch1 self1).1 = active_keys demo.
Proof.
  intros touch.
  edestruct (X5_key_press_release_restores_active_keys float _) with
    (self := demo (F := float)) (touch := touch) as (_ & Ha & _);
    [vm_compute; reflexivity | discriminate | reflexivity
    | vm_compute; reflexivity |].
  eexists _, _. split; [vm_compute; reflexivity | exact Ha].
Defined.

(** ** KeyStateMachine: two touches *)

Section Two_touches.
Context {F : Type} `{PyFloat F}.
Implicit Types (self : @VKeyboard F) (touch : @Touch F).

Lemma keys_only_eq self self1 self2 :
  keys_only self self1 → keys_only self self2 →
  sent self1 = sent self2 →
  active_keys self1 = active_keys self2 →
  have_capslock self1 = have_capslock self2 →
  have_shift self1 = have_shift self2 →
  self1 = self2.
Proof.
  unfold keys_only. destruct self1, self2. simpl.
  intros (-> & -> & -> & -> & -> & -> & -> & ->)
         (-> & -> & -> & -> & -> & -> & -> & ->). by intros -> -> -> ->.
Qed.

Lemma keys_only_trans self self1 self2 :
  keys_only self self1 → keys_only self1 self2 → keys_only self self2.
Proof.
  unfold keys_only.
  intros (-> & -> & -> & -> & -> & -> & -> & ->)
         (-> & -> & -> & -> & -> & -> & -> & ->). done.
Qed.

(** [released] on the three fields it writes. *)
Lemma released_key_state touch key self :
  let a := active_id touch key.1 in
  have_capslock (released touch key self) = have_capslock self
  ∧ have_shift (released touch key self)
    = (if bool_decide (a ∈ dom (active_keys self))
          && special_in (special_char key.1) ["shift_L"; "shift_R"]
       then false else have_shift self)
  ∧ active_keys (released touch key self)
    = (if bool_decide (a ∈ dom (active_keys self))
       then if special_is (special_char key.1) "capslock"
               && have_capslock self
            then <[(-1)%Z := key.2]> (delete a (active_keys self))
            else delete a (active_keys self)
       else active_keys self).
Proof.
  unfold released. destruct (bool_decide _); [|done].
  destruct (special_in _ _); simpl; by destruct (_ && _).
Qed.

Lemma released_commute touch1 key1 touch2 key2 self :
  active_id touch1 key1.1 ≠ active_id touch2 key2.1 →
  released touch2 key2 (released touch1 key1 self)
  = released touch1 key1 (released touch2 key2 self).
Proof.
  intros Hne.
  assert (special_is (special_char key1.1) "capslock" = true →
          active_id touch1 key1.1 = (-1)%Z) as Hc1
    by (unfold active_id; by intros ->).
  assert (special_is (special_char key2.1) "capslock" = true →
          active_id touch2 key2.1 = (-1)%Z) as Hc2
    by (unfold active_id; by intros ->).
  set (a1 := active_id touch1 key1.1) in *.
  set (a2 := active_id touch2 key2.1) in *.
  destruct (released_key_state touch1 key1 self) as (Hcap1 & Hs1 & Ha1).
  destruct (released_key_state touch2 key2 self) as (Hcap2 & Hs2 & Ha2).
  destruct (released_key_state touch2 key2 (released touch1 key1 self))
    as (Hcap21 & Hs21 & Ha21).
  destruct (released_key_state touch1 key1 (released touch2 key2 self))
    as (Hcap12 & Hs12 & Ha12).
  fold a1 in Hs1, Ha1, Hs12, Ha12. fold a2 in Hs2, Ha2, Hs21, Ha21.
  (* an entry of one touch is present or absent whatever the other did *)
  assert (bool_decide (a2 ∈ dom (active_keys (released touch1 key1 self)))
          = bool_decide (a2 ∈ dom (active_keys self))) as Hd2.
  { apply bool_decide_ext. rewrite !elem_of_dom, Ha1.
    destruct (bool_decide (a1 ∈ _)); [|done].
    destruct (special_is (special_char key1.1) "capslock") eqn:E1; simpl.
    - specialize (Hc1 eq_refl).
      destruct (have_capslock self);
        by rewrite ?lookup_insert_ne, lookup_delete_ne by congruence.
    - by rewrite lookup_delete_ne. }
  assert (bool_decide (a1 ∈ dom (active_keys (released touch2 key2 self)))
          = bool_decide (a1 ∈ dom (active_keys self))) as Hd1.
  { apply bool_decide_ext. rewrite !elem_of_dom, Ha2.
    destruct (bool_decide (a2 ∈ _)); [|done].
    destruct (special_is (special_char key2.1) "capslock") eqn:E2; simpl.
    - specialize (Hc2 eq_refl).
      destruct (have_capslock self);
        by rewrite ?lookup_insert_ne, lookup_delete_ne by congruence.
    - by rewrite lookup_delete_ne. }
  rewrite Hd2, Hcap1 in *. rewrite Hd1, Hcap2 in *.
  apply (keys_only_eq self).
  - eapply keys_only_trans; apply released_fields.
  - eapply keys_only_trans; apply released_fields.
  - by rewrite !(proj2 (released_fields _ _ _)).
  - rewrite Ha21, Ha12, Ha1, Ha2.
    destruct (bool_decide (a1 ∈ _)), (bool_decide (a2 ∈ _)); try done.
    destruct (special_is (special_char key1.1) "capslock" && have_capslock self)
      eqn:E1;
      destruct (special_is (special_char key2.1) "capslock"
                && have_capslock self) eqn:E2.
    + apply andb_true_iff in E1 as [E1 _], E2 as [E2 _].
      specialize (Hc1 E1). specialize (Hc2 E2). congruence.
    + apply andb_true_iff in E1 as [E1 _]. specialize (Hc1 E1).
      rewrite delete_insert_ne by congruence. by rewrite delete_delete.
    + apply andb_true_iff in E2 as [E2 _]. specialize (Hc2 E2).
      rewrite delete_insert_ne by congruence. by rewrite delete_delete.
    + apply delete_delete.
  - by rewrite Hcap21, Hcap12.
  - rewrite Hs21, Hs12, Hs1, Hs2.
    destruct (bool_decide (a1 ∈ _)), (bool_decide (a2 ∈ _)); simpl; try done;
      by destruct (special_in (special_char key1.1) _),
                  (special_in (special_char key2.1) _).
Qed.

End Two_touches.

(** X6: two touches are released independently: for touches with different
    ids (neither the reserved id -1) that did not both go down on a
    capslock key, the two releases leave the same keyboard state in either
    order. *)
Theorem X6_releases_commute :
  ∀ F (HF : PyFloat F) (self : @VKeyboard F) (touch1 touch2 : @Touch F),
    uid touch1 ≠ uid touch2 →
    uid touch1 ≠ (-1)%Z → uid touch2 ≠ (-1)%Z →
    is_capslock_touch touch1 && is_capslock_touch touch2 = false →
    (process_key_up touch2 (process_key_up touch1 self).1).1
    = (process_key_up touch1 (process_key_up touch2 self).1).1.
Proof.
  intros F HF self touch1 touch2 Hne H1 H2 Hcaps.
  rewrite !process_key_up_state.
  unfold is_capslock_touch in Hcaps.
  destruct (ud touch1) as [key1|], (ud touch2) as [key2|]; try done.
  apply released_commute. unfold active_id.
  destruct (special_is (special_char key1.1) "capslock"),
           (special_is (special_char key2.1) "capslock"); try done; congruence.
Qed.

Lemma X6_witness :
  let touch1 : @Touch float :=
    mkTouch 1 (at_point 1 1) true
      (Some (key "shift" (Some "shift_L") 1, (2%Z, 0%nat))) true true true in
  let touch2 : @Touch float :=
    mkTouch 2 (at_point 3 1) true
      (Some (key "c" None 2, (2%Z, 1%nat))) true true true in
  let self :=
    set_active_keys {[ 1%Z := (2%Z, 0%nat); 2%Z := (2%Z, 1%nat) ]}
      (set_have_shift true demo) in
  (process_key_up touch2 (process_key_up touch1 self).1).1
  = (process_key_up touch1 (process_key_up touch2 self).1).1.
Proof.
  intros touch1 touch2 self.
  apply (X6_releases_commute float _ self touch1 touch2);
    [discriminate | discriminate | discriminate | reflexivity].
Defined.

(** ** HitTester: what a result of [get_key_at_pos] means *)

Section Hit.
Context {F : Type} `{PyFloat F}.
Implicit Types (self : @VKeyboard F) (layout : @Layout F).


Lemma find_key_Some x_hint keys : ∀ c j,
  find_key x_hint keys c = Some j →
  ∃ i hint, j = (c + i)%nat ∧ keys !! i = Some hint
            ∧ holds_x x_hint hint = true
            ∧ ∀ i' hint', (i' < i)%nat → keys !! i' = Some hint' →
                          holds_x x_hint hint' = false.
Proof.
  induction keys as [|k keys IH]; intros c j; simpl; [done|].
  fold (holds_x x_hint k). destruct (holds_x x_hint k) eqn:Hk.
  - intros [= <-]. exists 0%nat, k. split; [lia|]. split; [done|].
    split; [done|]. intros ?? Hlt. lia.
  - intros Hf. destruct (IH _ _ Hf) as (i & hint & -> & Hl & Hh & Hfirst).
    exists (S i), hint. split; [lia|]. split; [done|]. split; [done|].
    intros [|i'] hint' Hlt; simpl.
    + by intros [= <-].
    + apply Hfirst. lia.
Qed.

Lemma find_key_None x_hint keys : ∀ c,
  find_key x_hint keys c = None ↔ Forall (λ k, holds_x x_hint k = false) keys.
Proof.
  induction keys as [|k keys IH]; intros c; simpl.
  - split; [constructor|done].
  - fold (holds_x x_hint k). destruct (holds_x x_hint k) eqn:Hk.
    + split; [done|]. intros Hall. apply Forall_cons in Hall as [? _].
      congruence.
    + rewrite IH. split; [by constructor|].
      by intros [_ ?]%Forall_cons.
Qed.

Lemma get_key_at_pos_Ok self x y r
    mtop mright mbottom mleft w h :
  margin_hint self = (mtop, mright, mbottom, mleft) →
  widget_size self = (w, h) →
  get_key_at_pos self x y = Ok r →
  ∃ layout x_hint n hints,
    current_layout self = Ok layout
    ∧ x ⊘ w = Ok x_hint
    ∧ line_at (rows layout) mtop mbottom h y = Ok n
    ∧ LINE_HINT (layout_geometry self) !! n = Some hints
    ∧ match r with
      | None => Forall (λ k, holds_x x_hint k = false) hints
      | Some (key, (n', i)) =>
          n' = n
          ∧ (∃ hint, hints !! i = Some hint ∧ holds_x x_hint hint = true)
          ∧ (∀ i' hint', (i' < i)%nat → hints !! i' = Some hint' →
                         holds_x x_hint hint' = false)
          ∧ ∃ line, lines layout !! (layout_mode self, n) = Some line
                    ∧ line !! i = Some key
      end.
Proof.
  intros Hm Hs. unfold get_key_at_pos. rewrite Hm, Hs.
  destruct (x ⊘ w) as [x_hint|e] eqn:Hx; [|done]. cbn [res_bind].
  destruct (current_layout self) as [layout|e] eqn:Hcur; [|done].
  cbn [res_bind].
  destruct (line_at (rows layout) mtop mbottom h y) as [n|e] eqn:Hn; [|done].
  cbn [res_bind]. unfold getitem.
  destruct (LINE_HINT (layout_geometry self) !! n) as [hints|] eqn:Hh;
    [|done].
  cbn [res_bind].
  destruct (find_key x_hint hints 0) as [j|] eqn:Hf.
  - destruct (lines layout !! (layout_mode self, n)) as [line|] eqn:Hl;
      [|done].
    cbn [res_bind]. unfold getindex.
    destruct (line !! j) as [key|] eqn:Hk; [|done]. cbn [res_bind].
    intros [= <-]. exists layout, x_hint, n, hints. do 4 (split; [done|]).
    destruct (find_key_Some _ _ _ _ Hf) as (i & hint & -> & Hi & Hh' & Hfirst).
    simpl. split; [done|]. split; [by exists hint|]. split; [done|].
    by exists line.
  - intros [= <-]. exists layout, x_hint, n, hints. do 4 (split; [done|]).
    by apply (find_key_None _ _ 0%nat).
Qed.

Lemma line_at_range (layout_rows n : Z) (mtop mbottom h y : F) :
  (1 ≤ layout_rows)%Z →
  line_at layout_rows mtop mbottom h y = Ok n → (1 ≤ n ≤ layout_rows)%Z.
Proof.
  intros Hrows. unfold line_at, res_bind.
  destruct (_ ⊘ of_int layout_rows) as [line_height|e]; [|done].
  destruct (_ ⊘ line_height) as [q|e]; [|done].
  destruct (int q) as [t|e]; [|done].
  intros [= <-].
  destruct (Z.ltb_spec layout_rows (layout_rows - t));
    match goal with
    | |- context [(?a <? 1)%Z] => destruct (Z.ltb_spec a 1)
    end; lia.
Qed.

End Hit.

(** X7: when [get_key_at_pos] returns a key with [(line_nb, key_index)],
    [line_nb] is the line that lines 343-351 compute for [y] (between 1 and
    [rows] when the layout has a line), the key is the first one of that
    line's hints whose interval [x_hint, x_hint + w_hint) holds x / w, and
    the key data is entry [key_index] of that line in the current mode;
    when it returns None, no key of that line holds x / w. *)
Theorem X7_get_key_at_pos_result :
  ∀ F (HF : PyFloat F) (self : @VKeyboard F) (x y : F)
    (r : option (@KeyHit F)) (mtop mright mbottom mleft w h : F),
    margin_hint self = (mtop, mright, mbottom, mleft) →
    widget_size self = (w, h) →
    get_key_at_pos self x y = Ok r →
    ∃ layout x_hint n hints,
      current_layout self = Ok layout
      ∧ x ⊘ w = Ok x_hint
      ∧ line_at (rows layout) mtop mbottom h y = Ok n
      ∧ ((1 ≤ rows layout)%Z → (1 ≤ n ≤ rows layout)%Z)
      ∧ LINE_HINT (layout_geometry self) !! n = Some hints
      ∧ match r with
        | None => Forall (λ k, holds_x x_hint k = false) hints
        | Some (key, (n', i)) =>
            n' = n
            ∧ (∃ hint, hints !! i = Some hint ∧ holds_x x_hint hint = true)
            ∧ (∀ i' hint', (i' < i)%nat → hints !! i' = Some hint' →
                           holds_x x_hint hint' = false)
            ∧ ∃ line, lines layout !! (layout_mode self, n) = Some line
                      ∧ line !! i = Some key
        end.
Proof.
  intros F HF self x y r mtop mright mbottom mleft w h Hm Hs Hget.
  destruct (get_key_at_pos_Ok _ _ _ _ _ _ _ _ _ _ Hm Hs Hget)
    as (layout & x_hint & n & hints & Hl & Hx & Hn & Hh & Hr).
  exists layout, x_hint, n, hints. do 3 (split; [done|]).
  split; [|by split]. intros Hrows. by eapply line_at_range.
Qed.

Lemma X7_witness :
  ∃ layout x_hint n hints,
    current_layout (demo (F := float)) = Ok layout
    ∧ (3 ⊘ 8 = Ok x_hint)%float
    ∧ line_at (rows layout) 0%float 0%float 8%float 1%float = Ok n
    ∧ ((1 ≤ rows layout)%Z → (1 ≤ n ≤ rows layout)%Z)
    ∧ LINE_HINT (layout_geometry demo) !! n = Some hints
    ∧ n = 2%Z
    ∧ (∃ hint, hints !! 1%nat = Some hint ∧ holds_x x_hint hint = true)
    ∧ (∀ i' hint', (i' < 1)%nat → hints !! i' = Some hint' →
                   holds_x x_hint hint' = false)
    ∧ ∃ line, lines layout !! (layout_mode demo, n) = Some line
              ∧ line !! 1%nat = Some (key "c" None 2).
Proof.
  destruct (X7_get_key_at_pos_result float _ demo 3%float 1%float
              (Some (key "c" None 2, (2%Z, 1%nat)))
              0%float 0%float 0%float 0%float 8%float 8%float)
    as (layout & x_hint & n & hints & H1 & H2 & H3 & H4 & H5 & H6);
    [reflexivity | reflexivity | vm_compute; reflexivity|].
  destruct H6 as (Hn & H6).
  exists layout, x_hint, n, hints. by repeat (split; [done|]).
Defined.

(** ** LayoutCatalog: reading the layout directory *)

Section Catalog.
Context {F : Type} `{PyFloat F}.
Implicit Types (self : @VKeyboard F) (layout : @Layout F)
  (listdir : list (string * res (@Layout F))).

Lemma set_available_layouts_id self :
  set_available_layouts (available_layouts self) self = self.
Proof. by destruct self. Qed.

Lemma _load_layouts_nil splitext self :
  _load_layouts splitext [] self = (self, Ok tt).
Proof. done. Qed.

Lemma _load_layouts_cons splitext fname r listdir self :
  _load_layouts splitext ((fname, r) :: listdir) self
  = if bool_decide ((splitext fname).2 ≠ ".json")
    then _load_layouts splitext listdir self
    else match r with
         | Ok layout =>
             _load_layouts splitext listdir
               (set_available_layouts
                  (<[(splitext fname).1 := layout]> (available_layouts self))
                  self)
         | Raise e => (self, Raise e)
         end.
Proof.
  unfold _load_layouts. simpl. destruct (splitext fname) as [b ext]. simpl.
  unfold bind at 1. case_bool_decide; [done|].
  unfold bind, lift, modify. by destruct r.
Qed.

Lemma _load_layouts_app splitext l1 l2 self s1 :
  _load_layouts splitext l1 self = (s1, Ok tt) →
  _load_layouts splitext (l1 ++ l2) self = _load_layouts splitext l2 s1.
Proof.
  revert self. induction l1 as [|[fname r] l1 IH]; intros self; simpl.
  - rewrite _load_layouts_nil. by intros [= <-].
  - rewrite !_load_layouts_cons. case_bool_decide; [apply IH|].
    destruct r as [layout|e]; [apply IH | discriminate].
Qed.

Lemma _load_layouts_Ok splitext listdir : ∀ self self',
  _load_layouts splitext listdir self = (self', Ok tt) →
  self' = set_available_layouts (available_layouts self') self
  ∧ (∀ name,
       (∀ fname r, (fname, r) ∈ listdir → splitext fname ≠ (name, ".json")) →
       available_layouts self' !! name = available_layouts self !! name)
  ∧ (∀ i fname r name,
       listdir !! i = Some (fname, r) →
       splitext fname = (name, ".json") →
       (∀ j fname' r', (i < j)%nat → listdir !! j = Some (fname', r') →
                       splitext fname' ≠ (name, ".json")) →
       ∃ layout, r = Ok layout ∧ available_layouts self' !! name = Some layout).
Proof.
  induction listdir as [|[fname0 r0] listdir IH]; intros self self'.
  - rewrite _load_layouts_nil. intros [= <-].
    split; [by rewrite set_available_layouts_id|]. split; [done|].
    intros i ??? Hi. by rewrite lookup_nil in Hi.
  - rewrite _load_layouts_cons. case_bool_decide as Hext.
    + intros Hrest. destruct (IH _ _ Hrest) as (Hst & Hout & Hin).
      split; [done|]. split.
      * intros name Hno. apply Hout. intros fname r Hel.
        apply (Hno fname r). by right.
      * intros [|i] fname r name; simpl.
        -- intros [= <- <-] Hsp. rewrite Hsp in Hext. by destruct Hext.
        -- intros Hi Hsp Hlast. apply (Hin i fname r name Hi Hsp).
           intros j fname' r' Hlt Hj. apply (Hlast (S j) fname' r'); [lia|done].
    + destruct r0 as [layout0|e]; [|discriminate].
      intros Hrest. destruct (IH _ _ Hrest) as (Hst & Hout & Hin).
      split; [|split].
      * rewrite Hst at 1. by destruct self.
      * intros name Hno. rewrite Hout.
        -- simpl. apply lookup_insert_ne. intros Heq.
           apply (Hno fname0 (Ok layout0)); [by left|].
           destruct (splitext fname0) as [b ext]. simpl in *. subst b.
           by f_equal.
        -- intros fname r Hel. apply (Hno fname r). by right.
      * intros [|i] fname r name; simpl.
        -- intros [= <- <-] Hsp Hlast. exists layout0. split; [done|].
           rewrite Hout.
           ++ simpl. rewrite Hsp. simpl. by rewrite lookup_insert_eq.
           ++ intros fname' r' [j Hj]%list_elem_of_lookup.
              apply (Hlast (S j) fname' r'); [lia|done].
        -- intros Hi Hsp Hlast. apply (Hin i fname r name Hi Hsp).
           intros j fname' r' Hlt Hj. apply (Hlast (S j) fname' r'); [lia|done].
Qed.

End Catalog.

(** X8: when [_load_layouts] returns, it has changed [available_layouts]
    only; a name that is the basename of no [.json] file of the directory
    keeps the entry it had (files with another extension are skipped), and
    the name of a [.json] file is bound to the content of the last file of
    the listing with that basename, replacing an older entry. *)
Theorem X8_load_layouts_registers_json_files :
  ∀ F (HF : PyFloat F) (splitext : string → string * string)
    (listdir : list (string * res (@Layout F))) (self self' : @VKeyboard F),
    _load_layouts splitext listdir self = (self', Ok tt) →
    self' = set_available_layouts (available_layouts self') self
    ∧ (∀ name,
         (∀ fname r, (fname, r) ∈ listdir →
                     splitext fname ≠ (name, ".json")) →
         available_layouts self' !! name = available_layouts self !! name)
    ∧ (∀ i fname r name,
         listdir !! i = Some (fname, r) →
         splitext fname = (name, ".json") →
         (∀ j fname' r', (i < j)%nat → listdir !! j = Some (fname', r') →
                         splitext fname' ≠ (name, ".json")) →
         ∃ layout,
           r = Ok layout ∧ available_layouts self' !! name = Some layout).
Proof. intros F HF splitext listdir self self'. apply _load_layouts_Ok. Qed.

(** X9: a [.json] file that cannot be opened or parsed stops
    [_load_layouts]: the exception leaves the function, the files listed
    before it are registered and the files listed after it are not read. *)
Theorem X9_load_layouts_stops_at_bad_file :
  ∀ F (HF : PyFloat F) (splitext : string → string * string)
    (before after : list (string * res (@Layout F))) (fname : string)
    (e : exn) (self s1 : @VKeyboard F),
    (splitext fname).2 = ".json" →
    _load_layouts splitext before self = (s1, Ok tt) →
    _load_layouts splitext (before ++ (fname, Raise e) :: after) self
    = (s1, Raise e).
Proof.
  intros F HF splitext before after fname e self s1 Hext Hbefore.
  rewrite (_load_layouts_app _ _ _ _ _ Hbefore), _load_layouts_cons.
  by rewrite bool_decide_eq_false_2 by (by intros Hne).
Qed.

Lemma X8_witness :
  let self := new_keyboard (F := float) "azerty" {[ "old" := demo_layout ]}
                no_margin no_margin (at_point 8 8) in
  let self' := set_available_layouts
                 {[ "old" := demo_layout; "azerty" := demo_layout;
                    "qwerty" := four_keys_layout ]}
                 self in
  self' = set_available_layouts (available_layouts self') self
  ∧ available_layouts self' !! "old" = available_layouts self !! "old"
  ∧ ∃ layout, Ok four_keys_layout = Ok layout
              ∧ available_layouts self' !! "qwerty" = Some layout.
Proof.
  intros self self'.
  destruct (X8_load_layouts_registers_json_files float _ sample_splitext
              sample_listdir self self') as (H1 & H2 & H3);
    [vm_compute; reflexivity|].
  split; [exact H1|]. split.
  - apply H2. intros fname r Hel.
    repeat (apply elem_of_cons in Hel as [[= -> ->]|Hel]);
      [discriminate..|by apply elem_of_nil in Hel].
  - apply (H3 2%nat "qwerty.json" (Ok four_keys_layout) "qwerty");
      [reflexivity..|].
    intros [|[|[|[|j]]]] fname' r' Hlt; try lia; simpl.
    + intros [= <- <-]. discriminate.
    + by rewrite lookup_nil.
Defined.

Lemma X9_witness :
  let self := new_keyboard (F := float) "azerty" ∅
                no_margin no_margin (at_point 8 8) in
  _load_layouts sample_splitext
    ([("README", Raise LookupError); ("qwerty.json", Ok demo_layout)]
       ++ ("broken.json", Raise ValueError)
       :: [("azerty.json", Ok four_keys_layout)]) self
  = (set_available_layouts {[ "qwerty" := demo_layout ]} self,
     Raise ValueError).
Proof.
  intros self.
  apply (X9_load_layouts_stops_at_bad_file float _ sample_splitext);
    vm_compute; reflexivity.
Defined.

(** ** GeometryCompiler: the exceptions of [refresh_keys_hint] *)

Section Transformers_more.
Context {S : Type}.

Lemma for_each_app {A B} (l1 l2 : list A) (body : A → B → M S B) acc s :
  for_each (l1 ++ l2) body acc s
  = match for_each l1 body acc s with
    | (s1, Ok acc1) => for_each l2 body acc1 s1
    | (s1, Raise e) => (s1, Raise e)
    end.
Proof.
  revert acc s. induction l1 as [|a l1 IH]; intros acc s; simpl; [done|].
  unfold bind. destruct (body a acc s) as [s1 [acc1|e]]; [|done].
  apply IH.
Qed.

End Transformers_more.

Section Compiled_errors.
Context {F : Type} `{PyFloat F}.
Implicit Types (self : @VKeyboard F) (layout : @Layout F).

Lemma refresh_keys_hint_no_layout self e :
  current_layout self = Raise e → refresh_keys_hint self = (self, Raise e).
Proof.
  intros Hl. unfold refresh_keys_hint, bind at 1, lift at 1. by rewrite Hl.
Qed.

Lemma refresh_keys_hint_division self layout e :
  current_layout self = Ok layout →
  of_int 1 ⊘ of_int (cols layout) = Raise e
  ∨ (∃ uw, of_int 1 ⊘ of_int (cols layout) = Ok uw)
    ∧ of_int 1 ⊘ of_int (rows layout) = Raise e →
  refresh_keys_hint self = (self, Raise e).
Proof.
  intros Hl Hdiv. unfold refresh_keys_hint, bind at 1, lift at 1.
  rewrite Hl. unfold bind at 1, gets at 1.
  destruct (efficient_surface (margin_hint self)) as [[[el eh] ex] ey].
  unfold bind at 1, lift at 1.
  destruct Hdiv as [->|[[uw ->] Hr]]; [done|].
  unfold bind at 1, lift at 1. by rewrite Hr.
Qed.

Lemma refresh_keys_hint_unfold self layout uw uh :
  current_layout self = Ok layout →
  of_int 1 ⊘ of_int (cols layout) = Ok uw →
  of_int 1 ⊘ of_int (rows layout) = Ok uh →
  refresh_keys_hint self
  = let '(el, eh, ex, ey) := efficient_surface (margin_hint self) in
    match for_each (line_numbers (rows layout))
            (refresh_keys_hint_line layout ex (uw ⊗ el) (uh ⊗ eh))
            (ey ⊕ eh) (set_U_HINT (uw ⊗ el, uh ⊗ eh) self) with
    | (s, Ok _) => (s, Ok tt)
    | (s, Raise e) => (s, Raise e)
    end.
Proof.
  intros Hlay Huw Huh. unfold refresh_keys_hint.
  unfold bind at 1, lift at 1. rewrite Hlay.
  unfold bind at 1, gets at 1.
  destruct (efficient_surface (margin_hint self)) as [[[el eh] ex] ey].
  unfold bind at 1, lift at 1. rewrite Huw.
  unfold bind at 1, lift at 1. rewrite Huh.
  unfold bind at 1, modify at 1. unfold bind at 1.
  by destruct (for_each _ _ _ _) as [s [y|e]].
Qed.

Lemma refresh_keys_hint_line_missing layout ex uw uh n y self :
  lines layout !! (layout_mode self, n) = None →
  refresh_keys_hint_line layout ex uw uh n y self
  = (set_LINE_HINT n [] self, Raise LookupError).
Proof.
  intros Hl.
  unfold refresh_keys_hint_line, bind, gets, modify, lift, getitem. simpl.
  by rewrite Hl.
Qed.

Lemma refresh_keys_hint_lines_mode layout ex uw uh l : ∀ y self,
  layout_mode (for_each l (refresh_keys_hint_line layout ex uw uh) y self).1
  = layout_mode self.
Proof.
  intros y self.
  pose proof (preserves_for_each (geometry_only (F := F)) l
                (refresh_keys_hint_line layout ex uw uh) y) as Hp.
  assert (geometry_only self
            (for_each l (refresh_keys_hint_line layout ex uw uh) y self).1)
    as Hfr.
  { apply Hp. intros a b s. unfold refresh_keys_hint_line.
    unfold bind, gets, modify, lift. simpl.
    destruct (getitem _ _); simpl;
      [etrans; apply set_LINE_HINT_frame | apply set_LINE_HINT_frame]. }
  by apply geometry_only_fields in Hfr as (_ & _ & -> & _).
Qed.

End Compiled_errors.

(** X10: [refresh_keys_hint] raises KeyError when the selected layout is
    not registered, and ZeroDivisionError when the layout has 0 columns or
    0 rows; in all three cases it leaves the keyboard, its geometry
    included, as it was. *)
Theorem X10_refresh_keys_hint_bad_layout :
  ∀ F (HF : PyFloat F) (self : @VKeyboard F),
    (∀ a : F, a ⊘ of_int 0 = Raise ZeroDivisionError) →
    (∀ (a b : F) e, a ⊘ b = Raise e → e = ZeroDivisionError) →
    (layout self ∉ dom (available_layouts self) →
     refresh_keys_hint self = (self, Raise LookupError))
    ∧ (∀ layout,
         current_layout self = Ok layout →
         cols layout = 0%Z ∨ rows layout = 0%Z →
         refresh_keys_hint self = (self, Raise ZeroDivisionError)).
Proof.
  intros F HF self Hzero Honly. split.
  - intros Hout. apply refresh_keys_hint_no_layout.
    unfold current_layout, getitem.
    by apply not_elem_of_dom in Hout as ->.
  - intros layout Hl Hz. apply (refresh_keys_hint_division _ layout); [done|].
    destruct (of_int 1 ⊘ of_int (cols layout)) as [uw|e] eqn:Hc.
    + right. split; [by exists uw|].
      destruct Hz as [Hz|Hz]; rewrite Hz in *; [|apply Hzero].
      by rewrite Hzero in Hc.
    + left. by rewrite (Honly _ _ _ Hc).
Qed.

(** X11: when the layout lacks the line [n0] of the current mode (and has
    the lines before it), [refresh_keys_hint] raises KeyError half way:
    [U_HINT] and the lines before [n0] are already rewritten, line [n0] is
    left with an empty list of hints, and the lines after [n0] keep the
    hints they had. *)
Theorem X11_refresh_keys_hint_missing_line :
  ∀ F (HF : PyFloat F) (self : @VKeyboard F) (layout : @Layout F)
    (uw uh : F) (n0 : Z),
    current_layout self = Ok layout →
    of_int 1 ⊘ of_int (cols layout) = Ok uw →
    of_int 1 ⊘ of_int (rows layout) = Ok uh →
    (1 ≤ n0 ≤ rows layout)%Z →
    (∀ n, (1 ≤ n < n0)%Z →
          is_Some (lines layout !! (layout_mode self, n))) →
    lines layout !! (layout_mode self, n0) = None →
    let self' := (refresh_keys_hint self).1 in
    (refresh_keys_hint self).2 = Raise LookupError
    ∧ geometry_only self self'
    ∧ is_Some (U_HINT (layout_geometry self'))
    ∧ LINE_HINT (layout_geometry self') !! n0 = Some []
    ∧ (∀ n, (n0 < n)%Z →
         LINE_HINT (layout_geometry self') !! n
         = LINE_HINT (layout_geometry self) !! n)
    ∧ LINE (layout_geometry self') = LINE (layout_geometry self).
Proof.
  intros F HF self layout uw uh n0 Hl Huw Huh Hn0 Hbefore Hmissing self'.
  subst self'.
  pose proof (refresh_keys_hint_unfold _ _ _ _ Hl Huw Huh) as Heq.
  destruct (efficient_surface (margin_hint self)) as [[[el eh] ex] ey].
  set (s0 := set_U_HINT (uw ⊗ el, uh ⊗ eh) self) in *.
  assert (line_numbers (rows layout)
          = seqZ 1 (n0 - 1) ++ n0 :: seqZ (n0 + 1) (rows layout - n0))
    as Hsplit.
  { clear Heq. unfold line_numbers.
    replace (rows layout) with ((n0 - 1) + (1 + (rows layout - n0)))%Z at 1
      by lia.
    rewrite seqZ_app by lia. f_equal.
    replace (1 + (n0 - 1))%Z with n0 by lia.
    rewrite (seqZ_cons n0) by lia. f_equal. f_equal; lia. }
  destruct (refresh_keys_hint_lines_total layout ex (uw ⊗ el) (uh ⊗ eh)
              (seqZ 1 (n0 - 1)) (ey ⊕ eh) s0) as (s1 & y1 & Hpre).
  { intros n Hn%elem_of_seqZ. apply Hbefore. lia. }
  pose proof (refresh_keys_hint_lines_mode layout ex (uw ⊗ el) (uh ⊗ eh)
                (seqZ 1 (n0 - 1)) (ey ⊕ eh) s0) as Hmode.
  rewrite Hpre in Hmode. simpl in Hmode.
  destruct (refresh_keys_hint_lines_Ok _ _ _ _ _ (NoDup_seqZ _ _) _ _ _ _ Hpre)
    as (Hfr & HU & HL & Hout & _).
  rewrite Hsplit, for_each_app, Hpre in Heq. simpl in Heq.
  unfold bind at 1 in Heq.
  rewrite refresh_keys_hint_line_missing in Heq by (by rewrite Hmode).
  rewrite Heq. simpl. split; [done|]. split; [|split; [|split; [|split]]].
  - transitivity s0; [unfold s0, set_U_HINT; apply geometry_only_set|].
    transitivity s1; [exact Hfr | apply set_LINE_HINT_frame].
  - rewrite HU. by eexists.
  - by rewrite lookup_insert_eq.
  - intros n Hn. rewrite lookup_insert_ne by lia.
    rewrite Hout; [done|]. rewrite elem_of_seqZ. lia.
  - by rewrite HL.
Qed.

Lemma binary64_div_zero (a : float) :
  a ⊘ of_int 0 = Raise ZeroDivisionError.
Proof. reflexivity. Qed.

Lemma binary64_div_raises (a b : float) e :
  a ⊘ b = Raise e → e = ZeroDivisionError.
Proof.
  simpl. unfold float_div_py. destruct (PrimFloat.eqb b PrimFloat.zero);
    congruence.
Qed.

Lemma X10_witness :
  refresh_keys_hint no_layout_keyboard
  = (no_layout_keyboard, Raise LookupError)
  ∧ refresh_keys_hint zero_cols_keyboard
    = (zero_cols_keyboard, Raise ZeroDivisionError).
Proof.
  split.
  - apply (X10_refresh_keys_hint_bad_layout float _ no_layout_keyboard
             binary64_div_zero binary64_div_raises).
    simpl. rewrite dom_empty_L. apply not_elem_of_empty.
  - apply (proj2 (X10_refresh_keys_hint_bad_layout float _ zero_cols_keyboard
                    binary64_div_zero binary64_div_raises)
             (mkLayout 0 1 ∅)); [reflexivity | by left].
Defined.

Lemma X11_witness :
  (refresh_keys_hint missing_line_keyboard).2 = Raise LookupError
  ∧ LINE_HINT (layout_geometry (refresh_keys_hint missing_line_keyboard).1)
      !! 2%Z = Some [].
Proof.
  edestruct (X11_refresh_keys_hint_missing_line float _ missing_line_keyboard)
    with (n0 := 2%Z) as (H1 & _ & _ & H4 & _);
    [reflexivity | vm_compute; reflexivity | vm_compute; reflexivity
    | simpl; lia | | reflexivity | by split].
  intros n Hn. assert (n = 1%Z) as -> by lia. by eexists.
Defined.

(** ** GeometryCompiler: the shape of a line of hints *)

Section Lines_more.
Context {F : Type} `{PyFloat F}.
Implicit Types (self : @VKeyboard F) (layout : @Layout F).

Lemma line_hints_head (uw uh y : F) keys x0 a :
  line_hints uw uh y keys x0 !! 0%nat = Some a → a.1.1 = x0.
Proof. destruct keys; simpl; [done|]. by intros [= <-]. Qed.

Lemma line_hints_next (uw uh y : F) keys : ∀ x0 i a b,
  line_hints uw uh y keys x0 !! i = Some a →
  line_hints uw uh y keys x0 !! S i = Some b →
  b.1.1 = a.1.1 ⊕ a.2.1.
Proof.
  induction keys as [|k keys IH]; intros x0 [|i] a b; simpl; try done.
  - intros [= <-] Hb. simpl. by apply line_hints_head in Hb.
  - apply IH.
Qed.

Lemma line_hints_size (uw uh y : F) keys : ∀ x0 i a,
  line_hints uw uh y keys x0 !! i = Some a →
  ∃ key, keys !! i = Some key ∧ a.2 = (key_size key ⊗ uw, uh) ∧ a.1.2 = y.
Proof.
  induction keys as [|k keys IH]; intros x0 [|i] a; simpl; try done.
  - intros [= <-]. by exists k.
  - apply IH.
Qed.

(** The hit tester on a keyboard whose hints are those of its layout. *)
Lemma get_key_at_pos_lookups self layout x y w h
    mtop mright mbottom mleft x_hint n :
  widget_size self = (w, h) →
  margin_hint self = (mtop, mright, mbottom, mleft) →
  current_layout self = Ok layout →
  (∀ n, (1 ≤ n ≤ rows layout)%Z →
        ∃ keys hints, lines layout !! (layout_mode self, n) = Some keys
                      ∧ LINE_HINT (layout_geometry self) !! n = Some hints
                      ∧ length hints = length keys) →
  (1 ≤ rows layout)%Z →
  x ⊘ w = Ok x_hint →
  line_at (rows layout) mtop mbottom h y = Ok n →
  ∃ r, get_key_at_pos self x y = Ok r.
Proof.
  intros Hs Hm Hl Hgeo Hrows Hx Hn.
  unfold get_key_at_pos. rewrite Hs, Hx, Hl, Hm. cbn [res_bind].
  rewrite Hn. cbn [res_bind].
  destruct (Hgeo n (line_at_range _ _ _ _ _ _ Hrows Hn))
    as (keys & hints & Hk & Hh & Hlen).
  unfold getitem. rewrite Hh. cbn [res_bind].
  destruct (find_key x_hint hints 0) as [j|] eqn:Hf; [|by eexists].
  rewrite Hk. cbn [res_bind].
  destruct (find_key_Some _ _ _ _ Hf) as (i & hint & -> & Hi & _).
  apply lookup_lt_Some in Hi. rewrite Hlen in Hi.
  apply lookup_lt_is_Some_2 in Hi as [key Hkey].
  unfold getindex. simpl. rewrite Hkey. by eexists.
Qed.

Lemma refresh_keys_hint_lengths self self' layout :
  refresh_keys_hint self = (self', Ok tt) →
  current_layout self = Ok layout →
  ∀ n, (1 ≤ n ≤ rows layout)%Z →
       ∃ keys hints, lines layout !! (layout_mode self', n) = Some keys
                     ∧ LINE_HINT (layout_geometry self') !! n = Some hints
                     ∧ length hints = length keys.
Proof.
  intros Hok Hl n Hn.
  destruct (refresh_keys_hint_Ok _ _ Hok) as (layout' & uw & uh & Hspec).
  destruct (efficient_surface (margin_hint self)) as [[[el eh] ex] ey].
  destruct Hspec as (Hl' & _ & _ & Hfr & _ & _ & _ & Hin).
  rewrite Hl in Hl'. injection Hl' as <-.
  apply geometry_only_fields in Hfr as (_ & _ & Hmode & _).
  destruct (Hin n Hn) as (keys & Hk & Hh).
  eexists keys, _. rewrite Hmode. split; [done|]. split; [exact Hh|].
  apply length_line_hints.
Qed.

End Lines_more.

(** X12: in every line that [refresh_keys_hint] has rewritten, there is one
    hint per key of the layout's line in the current mode; the first key
    starts at the left margin ([0 + mleft]), every next key starts at the
    sum of the previous key's x and width, and key [i] is [key[3]] unit
    widths wide and one unit height high, the unit being [U_HINT]. *)
Theorem X12_hints_of_a_line_are_contiguous :
  ∀ F (HF : PyFloat F) (self self' : @VKeyboard F) (mtop mright mbottom mleft : F),
    refresh_keys_hint self = (self', Ok tt) →
    margin_hint self = (mtop, mright, mbottom, mleft) →
    ∃ layout uw_hint uh_hint,
      current_layout self = Ok layout
      ∧ U_HINT (layout_geometry self') = Some (uw_hint, uh_hint)
      ∧ ∀ n, (1 ≤ n ≤ rows layout)%Z →
          ∃ keys hints,
            lines layout !! (layout_mode self, n) = Some keys
            ∧ LINE_HINT (layout_geometry self') !! n = Some hints
            ∧ length hints = length keys
            ∧ (∀ a, hints !! 0%nat = Some a → a.1.1 = of_int 0 ⊕ mleft)
            ∧ (∀ i a b, hints !! i = Some a → hints !! S i = Some b →
                        b.1.1 = a.1.1 ⊕ a.2.1 ∧ b.1.2 = a.1.2)
            ∧ (∀ i a, hints !! i = Some a →
                 ∃ key, keys !! i = Some key
                        ∧ a.2 = (key_size key ⊗ uw_hint, uh_hint)).
Proof.
  intros F HF self self' mtop mright mbottom mleft Hok Hm.
  destruct (refresh_keys_hint_Ok _ _ Hok) as (layout & uw & uh & Hspec).
  rewrite Hm in Hspec. cbn [efficient_surface] in Hspec.
  destruct Hspec as (Hl & _ & _ & _ & HU & _ & _ & Hin).
  eexists layout, _, _. split; [done|]. split; [exact HU|].
  intros n Hn. destruct (Hin n Hn) as (keys & Hk & Hh).
  eexists keys, _. split; [done|]. split; [exact Hh|].
  split; [apply length_line_hints|]. split; [|split].
  - intros a Ha. by apply line_hints_head in Ha.
  - intros i a b Ha Hb. split; [by eapply line_hints_next|].
    apply line_hints_size in Ha as (_ & _ & _ & ->).
    by apply line_hints_size in Hb as (_ & _ & _ & ->).
  - intros i a Ha. apply line_hints_size in Ha as (key & Hkey & Hsz & _).
    by exists key.
Qed.

(** X13: after [refresh_keys_hint] has returned, and until the layout, its
    mode or the hints change, no lookup of [get_key_at_pos] fails: for a
    layout of at least one row it returns (a key or None) whenever its
    arithmetic does, that is whenever [x / w] and the computation of the
    line number raise no exception. *)
Theorem X13_hit_test_lookups_never_fail :
  ∀ F (HF : PyFloat F) (self self' : @VKeyboard F) (layout : @Layout F)
    (x y w h mtop mright mbottom mleft x_hint : F) (n : Z),
    refresh_keys_hint self = (self', Ok tt) →
    current_layout self = Ok layout →
    widget_size self = (w, h) →
    margin_hint self = (mtop, mright, mbottom, mleft) →
    (1 ≤ rows layout)%Z →
    x ⊘ w = Ok x_hint →
    line_at (rows layout) mtop mbottom h y = Ok n →
    ∃ r, get_key_at_pos self' x y = Ok r.
Proof.
  intros F HF self self' layout x y w h mtop mright mbottom mleft x_hint n
    Hok Hl Hs Hm Hrows Hx Hn.
  pose proof (refresh_keys_hint_frame self) as Hfr.
  rewrite Hok in Hfr. simpl in Hfr.
  apply geometry_only_fields in Hfr
    as (Hlay & Hav & _ & _ & _ & _ & Hmh & _ & Hws & _).
  apply (get_key_at_pos_lookups self' layout x y w h
           mtop mright mbottom mleft x_hint n); try done.
  - by rewrite Hws.
  - by rewrite Hmh.
  - unfold current_layout in *. by rewrite Hlay, Hav.
  - by apply (refresh_keys_hint_lengths self).
Qed.

Lemma X12_witness :
  let self := new_keyboard (F := float) "qwerty" {[ "qwerty" := demo_layout ]}
                no_margin no_margin (at_point 8 8) in
  let self' := (refresh_keys_hint self).1 in
  ∃ layout uw_hint uh_hint,
    current_layout self = Ok layout
    ∧ U_HINT (layout_geometry self') = Some (uw_hint, uh_hint)
    ∧ ∀ n, (1 ≤ n ≤ rows layout)%Z →
        ∃ keys hints,
          lines layout !! (layout_mode self, n) = Some keys
          ∧ LINE_HINT (layout_geometry self') !! n = Some hints
          ∧ length hints = length keys
          ∧ (∀ a, hints !! 0%nat = Some a → a.1.1 = of_int 0 ⊕ of_int 0)
          ∧ (∀ i a b, hints !! i = Some a → hints !! S i = Some b →
                      b.1.1 = a.1.1 ⊕ a.2.1 ∧ b.1.2 = a.1.2)
          ∧ (∀ i a, hints !! i = Some a →
               ∃ key, keys !! i = Some key
                      ∧ a.2 = (key_size key ⊗ uw_hint, uh_hint)).
Proof.
  intros self self'.
  apply (X12_hints_of_a_line_are_contiguous float _ self self'
           (of_int 0) (of_int 0) (of_int 0) (of_int 0));
    [vm_compute; reflexivity | reflexivity].
Defined.

Lemma X13_witness :
  let self := new_keyboard (F := float) "qwerty" {[ "qwerty" := demo_layout ]}
                no_margin no_margin (at_point 8 8) in
  ∃ r, get_key_at_pos (refresh_keys_hint self).1 3%float 1%float = Ok r.
Proof.
  intros self.
  eapply (X13_hit_test_lookups_never_fail float _ self _ demo_layout
            3%float 1%float 8%float 8%float
            (of_int 0) (of_int 0) (of_int 0) (of_int 0));
    [vm_compute; reflexivity | reflexivity | reflexivity | reflexivity
    | simpl; lia | vm_compute; reflexivity | vm_compute; reflexivity].
Defined.

(** ** Exact arithmetic: the rows, and when the hit tester returns *)

Section Rows_exact.
Implicit Types (self : @VKeyboard Q) (layout : @Layout Q).
Open Scope Q_scope.

Lemma Q_fdiv_zero (a b : Q) : b == 0 → a ⊘ b = Raise ZeroDivisionError.
Proof.
  intros Hb. simpl. unfold Qdiv_py.
  by apply Qeq_bool_iff in Hb as ->.
Qed.

Lemma line_at_Q (layout_rows : Z) (mtop mbottom h y : Q) :
  layout_rows ≠ 0%Z →
  (¬ h == 0 → ¬ mtop + mbottom == 1 →
   ∃ n, line_at layout_rows mtop mbottom h y = Ok n)
  ∧ (h == 0 ∨ mtop + mbottom == 1 →
     line_at layout_rows mtop mbottom h y = Raise ZeroDivisionError).
Proof.
  intros Hrows. apply Q_of_int_nonzero in Hrows.
  unfold line_at. rewrite (Q_fdiv _ (of_int layout_rows)) by done.
  cbn [res_bind].
  cbn [fdiv fsub fadd fmul of_int int Q_float] in *.
  set (r := inject_Z layout_rows) in *.
  assert ((h - (mbottom + mtop) * h) / r == h * (1 - (mtop + mbottom)) / r)
    as Hline by (field; done).
  split.
  - intros Hh Hm.
    assert (¬ (h - (mbottom + mtop) * h) / r == 0) as Hnz.
    { rewrite Hline. intros Hz.
      apply (Qmult_inj_r _ _ r) in Hz; [|done].
      rewrite Qmult_0_l in Hz.
      assert (h * (1 - (mtop + mbottom)) / r * r == h * (1 - (mtop + mbottom)))
        as Heq by (field; done).
      rewrite Heq in Hz. apply Qmult_integral in Hz as [Hz|Hz]; [done|].
      apply Hm. lra. }
    change (Qdiv_py ?a ?b) with (a ⊘ b).
    rewrite Q_fdiv by done. cbn [res_bind]. by eexists.
  - intros Hz. change (Qdiv_py ?a ?b) with (a ⊘ b).
    rewrite Q_fdiv_zero; [done|]. rewrite Hline.
    destruct Hz as [Hz|Hz]; [rewrite Hz|].
    + field. done.
    + assert (1 - (mtop + mbottom) == 0) as -> by lra. field. done.
Qed.

End Rows_exact.





(** ** GeometryCompiler: a second refresh changes nothing *)

Section Idempotent.
Context {F : Type} `{PyFloat F}.
Implicit Types (self : @VKeyboard F) (layout : @Layout F).

Lemma Geometry_eq (g1 g2 : @Geometry F) :
  U_HINT g1 = U_HINT g2 → LINE_HINT g1 = LINE_HINT g2 → LINE g1 = LINE g2 →
  g1 = g2.
Proof. destruct g1, g2. simpl. by intros -> -> ->. Qed.

Lemma geometry_only_eq self self' :
  geometry_only self self' →
  layout_geometry self' = layout_geometry self → self' = self.
Proof.
  unfold geometry_only. intros Hg Heq. rewrite Hg, Heq. by destruct self.
Qed.

Lemma set_LINE_twice n (v1 v2 : list PixKey) self :
  set_LINE n v2 (set_LINE n v1 self) = set_LINE n v2 self.
Proof.
  unfold set_LINE, set_layout_geometry. simpl. by rewrite insert_insert_eq.
Qed.

Lemma set_LINE_same n (v : list PixKey) self :
  LINE (layout_geometry self) !! n = Some v → set_LINE n v self = self.
Proof.
  intros Hl. unfold set_LINE, set_layout_geometry.
  rewrite insert_id by done. by destruct self as [? ? ? [] ? ? ? ? ? ? ? ?].
Qed.

Lemma draw_keys_keeps self : (draw_keys self).1 = self.
Proof.
  symmetry. revert self.
  change (preserves eq (draw_keys (F := F))).
  unfold draw_keys.
  repeat first
    [ progress intros
    | apply preserves_bind
    | apply preserves_for_each
    | apply preserves_ret
    | apply preserves_lift
    | apply preserves_gets
    | apply (preserves_read eq)
    | apply _
    | match goal with |- preserves _ (let '(_, _) := ?p in _) =>
        destruct p end ].
Qed.

(** The inner loop of [refresh_keys], when no [int] raises. *)
Lemma pixel_line_Ok w h kt kr kb kl n keys : ∀ llg self self',
  LINE (layout_geometry self) !! n = Some llg →
  pixel_line w h kt kr kb kl n llg keys self = (self', Ok tt) →
  ∃ pix, Forall2 (λ key p, pixel_key w h kt kr kb kl key = Ok p) keys pix
         ∧ self' = set_LINE n (llg ++ pix) self.
Proof.
  induction keys as [|key keys IH]; intros llg self self' Hl; simpl.
  - intros [= <-]. exists []. split; [constructor|].
    rewrite app_nil_r. by rewrite set_LINE_same.
  - unfold bind at 1, lift.
    destruct (pixel_key w h kt kr kb kl key) as [p|e] eqn:Hp; [|done].
    unfold bind, modify. intros Hrest.
    apply IH in Hrest as (pix & Hpix & ->);
      [|simpl; by rewrite lookup_insert_eq].
    exists (p :: pix). split; [by constructor|].
    rewrite set_LINE_twice. by rewrite <- app_assoc.
Qed.

Lemma pixel_line_run w h kt kr kb kl n keys : ∀ llg pix self,
  LINE (layout_geometry self) !! n = Some llg →
  Forall2 (λ key p, pixel_key w h kt kr kb kl key = Ok p) keys pix →
  pixel_line w h kt kr kb kl n llg keys self
  = (set_LINE n (llg ++ pix) self, Ok tt).
Proof.
  induction keys as [|key keys IH]; intros llg pix self Hl Hpix; simpl.
  - apply Forall2_nil_inv_l in Hpix as ->.
    rewrite app_nil_r. by rewrite set_LINE_same.
  - apply Forall2_cons_inv_l in Hpix as (p & pix' & Hp & Hpix & ->).
    unfold bind at 1, lift. rewrite Hp. unfold bind, modify.
    rewrite (IH _ pix') by (simpl; by rewrite ?lookup_insert_eq).
    rewrite set_LINE_twice. by rewrite <- app_assoc.
Qed.

Lemma refresh_keys_line_inv w h kt kr kb kl n self self' :
  refresh_keys_line w h kt kr kb kl n tt self = (self', Ok tt) →
  ∃ hints pix,
    LINE_HINT (layout_geometry self) !! n = Some hints
    ∧ Forall2 (λ key p, pixel_key w h kt kr kb kl key = Ok p) hints pix
    ∧ self' = set_LINE n pix self.
Proof.
  unfold refresh_keys_line, bind at 1, modify at 1.
  unfold bind at 1, lift, getitem. simpl.
  destruct (LINE_HINT (layout_geometry self) !! n) as [hints|]; [|done].
  intros Hrun. apply pixel_line_Ok in Hrun as (pix & Hpix & ->);
    [|simpl; by rewrite lookup_insert_eq].
  exists hints, pix. split; [done|]. split; [done|].
  by rewrite set_LINE_twice.
Qed.

Lemma refresh_keys_line_run w h kt kr kb kl n hints pix self :
  LINE_HINT (layout_geometry self) !! n = Some hints →
  Forall2 (λ key p, pixel_key w h kt kr kb kl key = Ok p) hints pix →
  refresh_keys_line w h kt kr kb kl n tt self = (set_LINE n pix self, Ok tt).
Proof.
  intros Hh Hpix.
  unfold refresh_keys_line, bind at 1, modify at 1.
  unfold bind at 1, lift, getitem. simpl. rewrite Hh.
  rewrite (pixel_line_run _ _ _ _ _ _ _ _ [] pix)
    by (simpl; by rewrite ?lookup_insert_eq).
  by rewrite set_LINE_twice.
Qed.


Lemma refresh_keys_lines_inv w h kt kr kb kl l : ∀ self self',
  for_each l (refresh_keys_line w h kt kr kb kl) tt self = (self', Ok tt) →
  geometry_only self self'
  ∧ U_HINT (layout_geometry self') = U_HINT (layout_geometry self)
  ∧ LINE_HINT (layout_geometry self') = LINE_HINT (layout_geometry self)
  ∧ converted w h kt kr kb kl l self'.
Proof.
  induction l as [|a l IH]; intros self self'; simpl.
  - intros [= <-]. split; [reflexivity|]. do 2 (split; [done|]).
    by intros n ?%elem_of_nil.
  - intros (s1 & [] & Hline & Hrest)%bind_Ok.
    apply refresh_keys_line_inv in Hline as (hints & pix & Hh & Hpix & ->).
    destruct (IH _ _ Hrest) as (Hfr & HU & HLH & Hconv).
    split; [|split; [|split]].
    + etrans; [|exact Hfr]. apply geometry_only_set.
    + by rewrite HU.
    + by rewrite HLH.
    + intros n [->|Hn]%elem_of_cons; [|by apply Hconv].
      destruct (decide (a ∈ l)) as [Hin|Hout]; [by apply Hconv|].
      exists hints, pix. split; [by rewrite HLH|]. split; [done|].
      assert (∀ l' self1 self2,
                a ∉ l' →
                for_each l' (refresh_keys_line w h kt kr kb kl) tt self1
                = (self2, Ok tt) →
                LINE (layout_geometry self2) !! a
                = LINE (layout_geometry self1) !! a) as Hkeep.
      { clear. induction l' as [|b l' IHl]; intros self1 self2 Hnot; simpl.
        - by intros [= <-].
        - intros (s1 & [] & Hline & Hrest)%bind_Ok.
          apply refresh_keys_line_inv in Hline as (hints & pix & Hh & _ & ->).
          apply not_elem_of_cons in Hnot as [Hne Hnot].
          rewrite (IHl _ _ Hnot Hrest). simpl.
          by rewrite lookup_insert_ne. }
      rewrite (Hkeep _ _ _ Hout Hrest). simpl. by rewrite lookup_insert_eq.
Qed.

Lemma refresh_keys_lines_again w h kt kr kb kl l : ∀ self,
  converted w h kt kr kb kl l self →
  for_each l (refresh_keys_line w h kt kr kb kl) tt self = (self, Ok tt).
Proof.
  induction l as [|a l IH]; intros self Hconv; simpl; [done|].
  destruct (Hconv a) as (hints & pix & Hh & Hpix & Hl); [by left|].
  unfold bind. rewrite (refresh_keys_line_run _ _ _ _ _ _ _ _ _ _ Hh Hpix).
  rewrite (set_LINE_same _ _ _ Hl). apply IH.
  intros n Hn. apply Hconv. by right.
Qed.

Lemma refresh_keys_unfold self layout w h kt kr kb kl u :
  current_layout self = Ok layout →
  widget_size self = (w, h) →
  key_margin self = (kt, kr, kb, kl) →
  U_HINT (layout_geometry self) = Some u →
  refresh_keys self
  = match for_each (line_numbers (rows layout))
            (refresh_keys_line w h kt kr kb kl) tt self with
    | (s, Ok _) => draw_keys s
    | (s, Raise e) => (s, Raise e)
    end.
Proof.
  intros Hl Hs Hk HU. unfold refresh_keys.
  unfold bind at 1, lift at 1. rewrite Hl.
  unfold bind at 1, gets at 1. rewrite Hs.
  unfold bind at 1, gets at 1. rewrite Hk.
  unfold bind at 1, lift at 1. rewrite HU. destruct u as [uw uh].
  unfold bind at 1. by destruct (for_each _ _ _ _) as [s [[]|e]].
Qed.

Lemma refresh_keys_inv self self' :
  refresh_keys self = (self', Ok tt) →
  ∃ layout w h kt kr kb kl u,
    current_layout self = Ok layout
    ∧ widget_size self = (w, h)
    ∧ key_margin self = (kt, kr, kb, kl)
    ∧ U_HINT (layout_geometry self) = Some u
    ∧ for_each (line_numbers (rows layout))
        (refresh_keys_line w h kt kr kb kl) tt self = (self', Ok tt)
    ∧ draw_keys self' = (self', Ok tt).
Proof.
  intros Hok.
  destruct (current_layout self) as [layout|e] eqn:Hl;
    [|unfold refresh_keys, bind at 1, lift at 1 in Hok; by rewrite Hl in Hok].
  destruct (widget_size self) as [w h] eqn:Hs.
  destruct (key_margin self) as [[[kt kr] kb] kl] eqn:Hk.
  destruct (U_HINT (layout_geometry self)) as [u|] eqn:HU.
  - rewrite (refresh_keys_unfold _ _ _ _ _ _ _ _ _ Hl Hs Hk HU) in Hok.
    destruct (for_each _ _ _ _) as [s [[]|e]] eqn:Hloop; [|done].
    pose proof (draw_keys_keeps s) as Hst. rewrite Hok in Hst.
    simpl in Hst. subst s.
    by exists layout, w, h, kt, kr, kb, kl, u.
  - unfold refresh_keys in Hok.
    unfold bind at 1, lift at 1 in Hok. rewrite Hl in Hok.
    unfold bind at 1, gets at 1 in Hok. rewrite Hs in Hok.
    unfold bind at 1, gets at 1 in Hok. rewrite Hk in Hok.
    unfold bind at 1, lift at 1 in Hok. by rewrite HU in Hok.
Qed.

Lemma refresh_keys_again self self' :
  refresh_keys self = (self', Ok tt) →
  geometry_only self self'
  ∧ U_HINT (layout_geometry self') = U_HINT (layout_geometry self)
  ∧ LINE_HINT (layout_geometry self') = LINE_HINT (layout_geometry self)
  ∧ refresh_keys self' = (self', Ok tt).
Proof.
  intros (layout & w & h & kt & kr & kb & kl & u
          & Hl & Hs & Hk & HU & Hloop & Hdraw)%refresh_keys_inv.
  destruct (refresh_keys_lines_inv _ _ _ _ _ _ _ _ _ Hloop)
    as (Hfr & HU' & HLH & Hconv).
  do 3 (split; [done|]).
  apply geometry_only_fields in Hfr as Hf.
  destruct Hf as (Hlay & Hav & _ & _ & _ & _ & _ & Hkm & Hws & _).
  rewrite (refresh_keys_unfold self' layout w h kt kr kb kl u).
  - by rewrite (refresh_keys_lines_again _ _ _ _ _ _ _ _ Hconv).
  - unfold current_layout in *. by rewrite Hlay, Hav.
  - by rewrite Hws.
  - by rewrite Hkm.
  - by rewrite HU'.
Qed.

(** [refresh_keys_hint] on a keyboard that holds the hints of an earlier
    call. *)
Lemma refresh_keys_hint_again self s1 s :
  refresh_keys_hint self = (s1, Ok tt) →
  geometry_only s1 s →
  U_HINT (layout_geometry s) = U_HINT (layout_geometry s1) →
  LINE_HINT (layout_geometry s) = LINE_HINT (layout_geometry s1) →
  refresh_keys_hint s = (s, Ok tt).
Proof.
  intros Hok Hfr HU HLH.
  destruct (refresh_keys_hint_Ok _ _ Hok) as (layout & uw & uh & Hspec).
  destruct (efficient_surface (margin_hint self)) as [[[el eh] ex] ey] eqn:He.
  destruct Hspec as (Hl & Huw & Huh & Hfr1 & HU1 & _ & _ & Hin1).
  assert (geometry_only self s) as Hfr2 by by etrans.
  apply geometry_only_fields in Hfr2
    as (Hlay & Hav & Hmode & _ & _ & _ & Hmh & _).
  assert (current_layout s = Ok layout) as Hl'.
  { unfold current_layout in *. by rewrite Hlay, Hav. }
  destruct (refresh_keys_hint_total s layout uw uh Hl' Huw Huh) as [s2 Hok2].
  { intros n Hn. destruct (Hin1 n Hn) as (keys & Hk & _).
    rewrite Hmode. by eexists. }
  rewrite Hok2. f_equal.
  destruct (refresh_keys_hint_Ok _ _ Hok2) as (layout2 & uw2 & uh2 & Hspec).
  rewrite Hmh, He in Hspec.
  destruct Hspec as (Hl2 & Huw2 & Huh2 & Hfr3 & HU3 & HL3 & Hout3 & Hin3).
  rewrite Hl' in Hl2. injection Hl2 as <-.
  rewrite Huw in Huw2. injection Huw2 as <-.
  rewrite Huh in Huh2. injection Huh2 as <-.
  apply geometry_only_eq; [done|].
  apply Geometry_eq; [by rewrite HU3, HU, HU1 | | done].
  apply map_eq. intros n.
  destruct (decide (1 ≤ n ≤ rows layout)%Z) as [Hn|Hn].
  - destruct (Hin3 n Hn) as (keys & Hk & ->).
    destruct (Hin1 n Hn) as (keys1 & Hk1 & Hh1).
    rewrite Hmode, Hk1 in Hk. injection Hk as <-.
    by rewrite HLH, Hh1.
  - by apply Hout3.
Qed.

Lemma refresh_again force self self' :
  refresh force self = (self', Ok tt) →
  refresh force self' = (self', Ok tt).
Proof.
  unfold refresh.
  intros (s1 & [] & Hhint & Hrest)%bind_Ok.
  apply bind_Ok in Hrest as (s2 & [] & Hkeys & Hlayer).
  pose proof (refresh_active_keys_layer_state s2) as Hst.
  rewrite Hlayer in Hst. simpl in Hst. subst s2.
  destruct (refresh_keys_again _ _ Hkeys) as (Hfr & HU & HLH & Hkeys').
  assert ((if force then refresh_keys_hint else ret tt) self' = (self', Ok tt))
    as Hhint'.
  { destruct force; [|done]. by apply (refresh_keys_hint_again self s1). }
  unfold bind. by rewrite Hhint', Hkeys'.
Qed.

End Idempotent.



(** ** ModeResolver: a change of mode keeps the hints *)

Section Mode_switch.
Context {F : Type} `{PyFloat F}.
Implicit Types (self : @VKeyboard F) (layout : @Layout F).

#[export] Instance hints_kept_refl : Reflexive (hints_kept (F := F)).
Proof. intros self. by split; [reflexivity|]. Qed.

#[export] Instance hints_kept_trans : Transitive (hints_kept (F := F)).
Proof.
  intros s1 s2 s3 (Hfr1 & HU1 & HL1) (Hfr2 & HU2 & HL2).
  split; [by etrans|]. split; congruence.
Qed.

Lemma hints_kept_set_LINE n v self : hints_kept self (set_LINE n v self).
Proof. split; [apply geometry_only_set | done]. Qed.

Lemma pixel_line_hints w h kt kr kb kl n llg keys :
  preserves hints_kept (pixel_line w h kt kr kb kl n llg keys).
Proof.
  revert llg. induction keys as [|k keys IH]; intros llg; simpl.
  - apply preserves_ret; apply _.
  - apply preserves_bind; [apply _ | apply preserves_lift; apply _ |].
    intros p. apply preserves_bind; [apply _ | | intros _; apply IH].
    apply preserves_modify. intros s. apply hints_kept_set_LINE.
Qed.

Lemma refresh_keys_hints : preserves hints_kept refresh_keys.
Proof.
  unfold refresh_keys.
  apply preserves_bind; [apply _ | apply (preserves_read hints_kept) |].
  intros layout.
  apply preserves_bind; [apply _ | apply preserves_gets; apply _ |].
  intros [w h].
  apply preserves_bind; [apply _ | apply preserves_gets; apply _ |].
  intros [[[kt kr] kb] kl].
  apply preserves_bind; [apply _ | apply (preserves_read hints_kept) |].
  intros [uw uh].
  apply preserves_bind; [apply _ | |].
  - apply preserves_for_each; [apply _ | apply _ |].
    intros n []. unfold refresh_keys_line.
    apply preserves_bind; [apply _ | |].
    + apply preserves_modify. intros s. apply hints_kept_set_LINE.
    + intros _.
      apply preserves_bind; [apply _ | apply (preserves_read hints_kept) |].
      intros keys. apply pixel_line_hints.
  - intros _ s. rewrite draw_keys_keeps. reflexivity.
Qed.

Lemma refresh_false_hints : preserves hints_kept (refresh false).
Proof.
  unfold refresh.
  apply preserves_bind; [apply _ | apply preserves_ret; apply _ |].
  intros _. apply preserves_bind; [apply _ | apply refresh_keys_hints |].
  intros _ s. rewrite refresh_active_keys_layer_state. reflexivity.
Qed.

Lemma _update_layout_mode_same self :
  layout_mode self = layout_mode_of (have_shift self) (have_capslock self) →
  _update_layout_mode self = (self, Ok tt).
Proof.
  intros Hm. unfold _update_layout_mode, bind, gets. simpl.
  by rewrite bool_decide_eq_false_2 by (by intros Hne; apply Hne).
Qed.

Lemma _update_layout_mode_hints self :
  hints_kept
    (set_layout_mode (layout_mode_of (have_shift self) (have_capslock self))
       self)
    (_update_layout_mode self).1.
Proof.
  unfold _update_layout_mode, bind, gets. simpl.
  case_bool_decide as Hne; simpl.
  - unfold modify.
    pose proof (refresh_false_hints
      (set_layout_mode
         (layout_mode_of (have_shift self) (have_capslock self)) self)) as Hk.
    by destruct (refresh false _) as [s' [[]|e]].
  - rewrite Hne.
    assert (set_layout_mode (layout_mode self) self = self) as ->
      by by destruct self.
    reflexivity.
Qed.

End Mode_switch.



(** ** The event loop: a touch-up never raises *)

Section Drawable_loop.
Context {F : Type} `{PyFloat F}.
Implicit Types (self : @VKeyboard F) (touch : @Touch F) (w : @World F).

Lemma refresh_active_keys_layer_Ok self :
  refresh_active_keys_layer self = (self, Ok tt)
  ↔ ∀ id k, active_keys self !! id = Some k →
            active_key_drawable (layout_geometry self) k = true.
Proof.
  unfold refresh_active_keys_layer.
  destruct (forallb _ _) eqn:Hall.
  - split; [|done]. intros _ id k Hk.
    rewrite forallb_forall in Hall. apply Hall.
    apply list_elem_of_In, list_elem_of_fmap. exists (id, k).
    split; [done|]. by apply elem_of_map_to_list.
  - split; [done|]. intros Hdraw. exfalso.
    apply not_true_iff_false in Hall. apply Hall.
    apply forallb_forall. intros k Hin.
    apply list_elem_of_In, list_elem_of_fmap in Hin as ([id k'] & -> & Hin).
    apply elem_of_map_to_list in Hin. by apply (Hdraw id).
Qed.

Lemma process_key_on_layer touch self key self' touch' :
  get_key_at_pos self (pos touch).1 (pos touch).2 = Ok (Some key) →
  process_key_on touch self = (self', Ok touch') →
  refresh_active_keys_layer self' = (self', Ok tt).
Proof.
  intros Hk. unfold process_key_on.
  destruct (pos touch) as [x y]. simpl in Hk.
  unfold bind at 1, lift at 1. rewrite Hk.
  destruct key as [key_data place]. simpl.
  unfold send, change_layout, bind, modify, gets, ret, raise.
  destruct (negb (special_in _ _)); simpl;
    destruct (special_is (special_char key_data) "capslock"); simpl;
    try destruct (special_in (special_char key_data) ["shift_L"; "shift_R"]);
    simpl;
    try destruct (special_is (special_char key_data) "layout"); simpl;
    try discriminate;
    match goal with
    | |- context [refresh_active_keys_layer ?s] =>
        destruct (refresh_active_keys_layer_cases s) as [Heq | Heq];
        rewrite Heq
    end;
    try discriminate; by intros [= <- <-].
Qed.

Lemma process_key_up_result touch self :
  (process_key_up touch self).2
  = match ud touch with
    | Some key =>
        if bool_decide (active_id touch key.1 ∈ dom (active_keys self))
        then (refresh_active_keys_layer (released touch key self)).2
        else Ok tt
    | None => Ok tt
    end.
Proof.
  unfold process_key_up, released, active_id.
  destruct (ud touch) as [[key_data place]|]; [|done]. simpl.
  unfold bind, modify, gets, ret. simpl.
  case_bool_decide; [|done]. simpl.
  destruct (special_in _ _); simpl;
    by destruct (special_is _ _ && _).
Qed.

Lemma released_active touch key self id k :
  active_keys (released touch key self) !! id = Some k →
  active_keys self !! id = Some k ∨ k = key.2.
Proof.
  unfold released. case_bool_decide; [|by left].
  destruct (special_in _ _); simpl;
    (destruct (_ && _); simpl;
     [destruct (decide (id = (-1)%Z)) as [->|Hne];
      [rewrite lookup_insert_eq; intros [= <-]; by right
      |rewrite lookup_insert_ne by done]|]);
    intros Hl%lookup_delete_Some; left; apply Hl.
Qed.

Lemma refresh_keys_lines_keep (w h kt kr kb kl : F) (a : Z) l : ∀ self self',
  a ∉ l →
  for_each l (refresh_keys_line w h kt kr kb kl) tt self = (self', Ok tt) →
  LINE (layout_geometry self') !! a = LINE (layout_geometry self) !! a.
Proof.
  induction l as [|b l IH]; intros self self' Hnot; simpl.
  - by intros [= <-].
  - intros (s1 & [] & Hline & Hrest)%bind_Ok.
    apply refresh_keys_line_inv in Hline as (hints & pix & Hh & _ & ->).
    apply not_elem_of_cons in Hnot as [Hne Hnot].
    rewrite (IH _ _ Hnot Hrest). simpl. by rewrite lookup_insert_ne.
Qed.

(** The rectangles that [refresh_keys] writes are as many as the ones it
    replaces, on a keyboard whose pixel lines match its hint lines. *)
Lemma refresh_keys_aligned self self' :
  refresh_keys self = (self', Ok tt) →
  aligned (layout_geometry self) →
  aligned (layout_geometry self')
  ∧ ∀ k, active_key_drawable (layout_geometry self) k = true →
         active_key_drawable (layout_geometry self') k = true.
Proof.
  intros (layout & w & h & kt & kr & kb & kl & u
          & Hl & Hs & Hk & HU & Hloop & Hdraw)%refresh_keys_inv Hal.
  destruct (refresh_keys_lines_inv _ _ _ _ _ _ _ _ _ Hloop)
    as (_ & _ & HLH & Hconv).
  assert (∀ n llg', LINE (layout_geometry self') !! n = Some llg' →
            ∃ hints, LINE_HINT (layout_geometry self') !! n = Some hints
                     ∧ length hints = length llg') as Hal'.
  { intros n llg' Hn.
    destruct (decide (n ∈ line_numbers (rows layout))) as [Hin|Hout].
    - destruct (Hconv n Hin) as (hints & pix & Hh & Hpix & Hp).
      rewrite Hn in Hp. injection Hp as <-.
      exists hints. split; [done|]. by apply Forall2_length in Hpix.
    - rewrite (refresh_keys_lines_keep _ _ _ _ _ _ _ _ _ _ Hout Hloop) in Hn.
      rewrite HLH. by apply Hal. }
  split; [exact Hal'|].
  intros [n i]. unfold active_key_drawable. simpl.
  destruct (LINE (layout_geometry self) !! n) as [llg|] eqn:Hn; [|done].
  intros Hi. apply bool_decide_eq_true_1 in Hi.
  destruct (Hal n llg Hn) as (hints & Hh & Hlen).
  destruct (decide (n ∈ line_numbers (rows layout))) as [Hin|Hout].
  - destruct (Hconv n Hin) as (hints' & pix & Hh' & Hpix & ->).
    rewrite HLH, Hh in Hh'. injection Hh' as <-.
    apply Forall2_length in Hpix. apply bool_decide_eq_true_2. lia.
  - rewrite (refresh_keys_lines_keep _ _ _ _ _ _ _ _ _ _ Hout Hloop), Hn.
    by apply bool_decide_eq_true_2.
Qed.

Lemma _update_layout_mode_Ok self self' :
  _update_layout_mode self = (self', Ok tt) →
  self' = self
  ∨ ∃ mode, refresh_keys (set_layout_mode mode self) = (self', Ok tt).
Proof.
  unfold _update_layout_mode, bind at 1, gets at 1.
  unfold bind at 1, gets at 1. unfold bind at 1, gets at 1.
  case_bool_decide; [|intros [= <-]; by left].
  unfold bind at 1, modify. unfold refresh.
  intros (s1 & [] & Hret & Hrest)%bind_Ok.
  injection Hret as <-.
  apply bind_Ok in Hrest as (s2 & [] & Hkeys & Hlayer).
  pose proof (refresh_active_keys_layer_state s2) as Hst.
  rewrite Hlayer in Hst. simpl in Hst. subst s2.
  right. by eexists.
Qed.

Lemma drawable_inv_TouchDown w id p inside grabbed w' :
  drawable_inv w → step w (TouchDown id p inside grabbed) = Some w' →
  drawable_inv w'.
Proof.
  intros [Hal Hact Hrec]. unfold step.
  destruct (bool_decide (id ≠ (-1)%Z)); simpl; [|discriminate].
  destruct (bool_decide (touches w !! id = None)); simpl; [|discriminate].
  destruct (on_touch_down _ _) as [self' [[touch' b]|e]] eqn:Hdown;
    [|discriminate].
  intros [= <-].
  apply on_touch_down_cases in Hdown
    as [(-> & Hud & _)
       | [(-> & Hud & _) | (key & s1 & t1 & Hk & Hon & -> & ->)]].
  - split; simpl; [done | done |].
    intros id' touch key. rewrite lookup_insert.
    case_decide; [intros [= <-]; by rewrite Hud | apply Hrec].
  - split; simpl; [done | done |].
    intros id' touch key. rewrite lookup_insert.
    case_decide; [intros [= <-]; by rewrite Hud | apply Hrec].
  - pose proof (process_key_on_keys_only
                  (mkTouch id p inside None false false grabbed)
                  (keyboard w)) as Hko.
    rewrite Hon in Hko. destruct Hko as (_ & _ & _ & Hg & _).
    simpl in Hg.
    pose proof (process_key_on_layer _ _ _ _ _ Hk Hon) as Hlayer.
    rewrite refresh_active_keys_layer_Ok in Hlayer.
    destruct (process_key_on_Some _ _ _ _ _ Hk Hon) as (-> & Ha & _).
    split; simpl; [by rewrite Hg | exact Hlayer |].
    intros id' touch key'. rewrite lookup_insert.
    case_decide.
    + intros [= <-]. simpl. intros [= <-].
      apply (Hlayer (active_id
                       (mkTouch id p inside None false false grabbed) key.1)).
      by rewrite Ha, lookup_insert_eq.
    + rewrite Hg. apply Hrec.
Qed.

Lemma drawable_inv_released w touch key :
  drawable_inv w →
  active_key_drawable (layout_geometry (keyboard w)) key.2 = true →
  ∀ id k, active_keys (released touch key (keyboard w)) !! id = Some k →
          active_key_drawable
            (layout_geometry (released touch key (keyboard w))) k = true.
Proof.
  intros [Hal Hact Hrec] Hkey id k Hl.
  destruct (released_fields touch key (keyboard w))
    as [(_ & _ & _ & -> & _) _].
  apply released_active in Hl as [Hl| ->]; [by apply (Hact id) | done].
Qed.

Lemma drawable_inv_TouchUp w id touch :
  drawable_inv w → touches w !! id = Some touch →
  ∃ w', step w (TouchUp id) = Some w' ∧ drawable_inv w'.
Proof.
  intros Hinv Hl. pose proof Hinv as [Hal Hact Hrec].
  unfold step. rewrite Hl.
  set (touch_up := mkTouch _ _ _ _ _ _ _).
  assert (∀ id' t key, delete id (touches w) !! id' = Some t →
            ud t = Some key →
            active_key_drawable (layout_geometry (keyboard w)) key.2 = true)
    as Hrec'.
  { intros id' t key [_ Ht]%lookup_delete_Some. by apply (Hrec id'). }
  unfold on_touch_up. simpl.
  destruct (grab_list touch); [|eexists; split; [done|by split]].
  pose proof (process_key_up_state touch_up (keyboard w)) as Hst.
  pose proof (process_key_up_result touch_up (keyboard w)) as Hres.
  destruct (process_key_up touch_up (keyboard w)) as [self' r].
  simpl in Hst, Hres. subst self' r. unfold touch_up. simpl.
  destruct (ud touch) as [key|] eqn:Hud; [|eexists; split; [done|by split]].
  pose proof (Hrec _ _ _ Hl Hud) as Hkey.
  pose proof (drawable_inv_released w touch_up key Hinv Hkey) as Hdraw.
  destruct (released_fields touch_up key (keyboard w))
    as [(_ & _ & _ & Hg & _) _].
  assert (drawable_inv
            (mkWorld (released touch_up key (keyboard w))
               (delete id (touches w)))) as Hinv'.
  { split; simpl; [by rewrite Hg | exact Hdraw |].
    intros id' t key'. rewrite Hg. apply Hrec'. }
  subst touch_up. case_bool_decide.
  - apply refresh_active_keys_layer_Ok in Hdraw. rewrite Hdraw. simpl.
    by eexists.
  - by eexists.
Qed.

Lemma drawable_inv_Frame w w' :
  drawable_inv w → step w Frame = Some w' → drawable_inv w'.
Proof.
  intros [Hal Hact Hrec]. unfold step.
  pose proof (_update_layout_mode_key_state (keyboard w)) as Hks.
  destruct (_update_layout_mode (keyboard w)) as [self' [[]|e]] eqn:Hup;
    [|discriminate].
  intros [= <-]. simpl in Hks. destruct Hks as (Ha & _).
  apply _update_layout_mode_Ok in Hup as [->|[mode Hkeys]]; [by split|].
  apply refresh_keys_aligned in Hkeys as [Hal' Hkeep];
    [|by destruct (keyboard w)].
  assert (∀ k, active_key_drawable (layout_geometry (keyboard w)) k = true →
               active_key_drawable (layout_geometry self') k = true)
    as Hkeep'.
  { intros k Hk. apply Hkeep. by destruct (keyboard w). }
  split; simpl; [done | |].
  - intros id k. rewrite Ha. intros Hl. apply Hkeep'. by apply (Hact id).
  - intros id touch key Hl Hud. apply Hkeep'. by apply (Hrec id touch).
Qed.

Lemma drawable_inv_run evs : ∀ w w',
  drawable_inv w → run w evs = Some w' → drawable_inv w'.
Proof.
  induction evs as [|ev evs IH]; intros w w' Hinv; simpl.
  - by intros [= <-].
  - destruct (step w ev) as [w1|] eqn:Hstep; [|discriminate].
    apply IH. destruct ev as [id p inside grabbed|id|].
    + by eapply drawable_inv_TouchDown.
    + destruct (touches w !! id) as [touch|] eqn:Hl;
        [|unfold step in Hstep; by rewrite Hl in Hstep].
      destruct (drawable_inv_TouchUp w id touch Hinv Hl) as (w2 & Hs & Hi).
      rewrite Hstep in Hs. by injection Hs as <-.
    + by eapply drawable_inv_Frame.
Qed.

Lemma drawable_inv_init self :
  aligned (layout_geometry self) → active_keys self = ∅ →
  drawable_inv (mkWorld self ∅).
Proof.
  intros Hal Ha. split; simpl; [done | |].
  - intros id k. by rewrite Ha, lookup_empty.
  - intros id touch key. by rewrite lookup_empty.
Qed.

End Drawable_loop.

(** X18: a touch-up never raises.  Start from a keyboard with no active
    key and no touch whose every pixel line has a hint line of the same
    length (a new keyboard, or one that [refresh] has laid out); after any
    sequence of touch-downs, touch-ups and mode updates whose handlers
    returned, the touch-up of every touch that is still down returns: the
    rectangles of the keys that stay active, and of a capslock key that is
    stored again, are all found.  Every active key can be drawn at every
    point of such a run. *)
Theorem X18_touch_up_never_raises :
  ∀ F (HF : PyFloat F) (self : @VKeyboard F) (evs : list (@Event F))
    (w : @World F) (id : Z) (touch : @Touch F),
    aligned (layout_geometry self) →
    active_keys self = ∅ →
    run (mkWorld self ∅) evs = Some w →
    touches w !! id = Some touch →
    (∃ w', step w (TouchUp id) = Some w')
    ∧ refresh_active_keys_layer (keyboard w) = (keyboard w, Ok tt).
Proof.
  intros F HF self evs w id touch Hal Ha Hrun Hl.
  pose proof (drawable_inv_run evs _ _ (drawable_inv_init self Hal Ha) Hrun)
    as Hinv.
  split.
  - destruct (drawable_inv_TouchUp w id touch Hinv Hl) as (w' & Hs & _).
    by exists w'.
  - apply refresh_active_keys_layer_Ok. apply (inv_active _ Hinv).
Qed.

Lemma aligned_check_true {F} (g : @Geometry F) :
  aligned_check g = true → aligned g.
Proof.
  unfold aligned_check. rewrite forallb_forall. intros Hall n llg Hl.
  specialize (Hall (n, llg)). simpl in Hall.
  destruct (LINE_HINT g !! n) as [hints|].
  - exists hints. split; [done|]. eapply bool_decide_eq_true_1. apply Hall.
    apply list_elem_of_In. by apply elem_of_map_to_list.
  - discriminate Hall. apply list_elem_of_In. by apply elem_of_map_to_list.
Qed.

Lemma X18_witness :
  let evs := [TouchDown 1 (at_point 5 6) true true; Frame;
              TouchDown 2 (at_point 1 1) true true] in
  ∃ w, run (mkWorld (demo (F := float)) ∅) evs = Some w
       ∧ (∃ w', step w (TouchUp 1) = Some w')
       ∧ refresh_active_keys_layer (keyboard w) = (keyboard w, Ok tt).
Proof.
  intros evs. eexists. split; [vm_compute; reflexivity|].
  eapply (X18_touch_up_never_raises float _ demo evs _ 1%Z);
    [apply aligned_check_true; vm_compute; reflexivity
    | vm_compute; reflexivity
    | vm_compute; reflexivity
    | vm_compute; reflexivity].
Defined.

(** ** LayoutCatalog: what [_load_layout] ends with *)

Section Load_layout.
Context {F : Type} `{PyFloat F}.
Implicit Types (self : @VKeyboard F) (layout : @Layout F).

Lemma current_layout_Ok self :
  (∃ layout, current_layout self = Ok layout)
  ↔ layout self ∈ dom (available_layouts self).
Proof.
  unfold current_layout, getitem. rewrite elem_of_dom.
  destruct (available_layouts self !! layout self) as [layout|].
  - split; [by eexists | by exists layout].
  - split; [by intros [? ?] | by intros [? ?]].
Qed.

Lemma refresh_true_no_layout self :
  layout self ∉ dom (available_layouts self) →
  refresh true self = (self, Raise LookupError).
Proof.
  intros Hout. unfold refresh, bind at 1.
  rewrite (refresh_keys_hint_no_layout self LookupError); [done|].
  unfold current_layout, getitem.
  by apply not_elem_of_dom in Hout as ->.
Qed.

Lemma refresh_true_registered self self' :
  refresh true self = (self', Ok tt) →
  layout self' ∈ dom (available_layouts self').
Proof.
  intros Hok. pose proof (refresh_frame true self) as Hfr.
  rewrite Hok in Hfr. simpl in Hfr.
  apply geometry_only_fields in Hfr as (-> & -> & _).
  unfold refresh in Hok.
  apply bind_Ok in Hok as (s1 & [] & Hhint & _).
  apply refresh_keys_hint_Ok in Hhint as (layout & uw & uh & Hspec).
  destruct (efficient_surface (margin_hint self)) as [[[el eh] ex] ey].
  destruct Hspec as (Hl & _). apply current_layout_Ok. by exists layout.
Qed.

Lemma _load_layout_unfold self :
  available_layouts self ≠ ∅ →
  _load_layout self
  = refresh true
      (if bool_decide (layout self ∉ dom (available_layouts self))
          && bool_decide (layout self ≠ "qwerty")
       then set_layout "qwerty" (add_log (not_found_message (layout self)) self)
       else self).
Proof.
  intros Hne. unfold _load_layout, bind at 1, gets at 1.
  rewrite (bool_decide_eq_false_2 (available_layouts self = ∅)) by done.
  unfold bind at 1, gets at 1.
  by destruct (_ && _).
Qed.

End Load_layout.

(** X19: with at least one layout registered, [_load_layout] returns only
    with a registered layout selected.  When neither the selected name nor
    ["qwerty"] is registered it raises KeyError, from [refresh_keys_hint],
    after the fallback: the error is logged and [layout] is ["qwerty"];
    when the selected name is ["qwerty"] itself nothing is logged.  The
    geometry is as it was. *)
Theorem X19_load_layout_needs_qwerty :
  ∀ F (HF : PyFloat F) (self : @VKeyboard F),
    available_layouts self ≠ ∅ →
    (∀ self', _load_layout self = (self', Ok tt) →
              layout self' ∈ dom (available_layouts self'))
    ∧ ("qwerty" ∉ dom (available_layouts self) →
       layout self ∉ dom (available_layouts self) →
       _load_layout self
       = (if bool_decide (layout self = "qwerty") then self
          else set_layout "qwerty"
                 (add_log (not_found_message (layout self)) self),
          Raise LookupError)).
Proof.
  intros F HF self Hne. rewrite (_load_layout_unfold self Hne). split.
  - intros self'. apply refresh_true_registered.
  - intros Hq Hout.
    rewrite (bool_decide_eq_true_2 (layout self ∉ _)) by done. simpl.
    case_bool_decide as Hl.
    + rewrite bool_decide_eq_false_2 by (by intros Hn).
      by apply refresh_true_no_layout.
    + rewrite bool_decide_eq_true_2 by done.
      by apply refresh_true_no_layout.
Qed.

Lemma X19_witness :
  let self := new_keyboard (F := float) "azerty" {[ "dvorak" := demo_layout ]}
                no_margin no_margin (at_point 8 8) in
  _load_layout self
  = (set_layout "qwerty" (add_log (not_found_message "azerty") self),
     Raise LookupError).
Proof.
  intros self.
  apply (X19_load_layout_needs_qwerty float _ self).
  - apply insert_non_empty.
  - simpl. rewrite dom_singleton_L. intros Hin%elem_of_singleton.
    discriminate Hin.
  - simpl. rewrite dom_singleton_L. intros Hin%elem_of_singleton.
    discriminate Hin.
Defined.

(** ** Exact arithmetic: neighbouring rectangles *)

Section Neighbours_exact.
Implicit Types (self : @VKeyboard Q) (layout : @Layout Q).
Open Scope Q_scope.

Lemma Qtrunc_add_le (a b c : Q) :
  0 <= a → a <= c → a + b <= c →
  (Qtrunc a + Qtrunc b ≤ Qtrunc c)%Z.
Proof.
  intros Ha Hac Habc.
  rewrite (Qtrunc_nonneg a) by done.
  rewrite (Qtrunc_nonneg c) by lra.
  destruct (Z_le_gt_dec (Qtrunc b) 0) as [Hb|Hb].
  - pose proof (Qfloor_resp_le _ _ Hac). lia.
  - pose proof (Qtrunc_upper b ltac:(lia)) as Hub.
    pose proof (Qfloor_le a) as Hfa.
    rewrite <- (Qfloor_Z (Qfloor a + Qtrunc b)).
    apply Qfloor_resp_le. rewrite inject_Z_plus. lra.
Qed.

Lemma pixel_of_neighbours w h kt kr kb kl (a b : @HintKey Q) :
  0 <= w → 0 <= kl → 0 <= kr → 0 <= a.1.1 → 0 <= a.2.1 →
  b.1.1 == a.1.1 + a.2.1 →
  ((pixel_of w h kt kr kb kl a).1.1 + (pixel_of w h kt kr kb kl a).2.1
   ≤ (pixel_of w h kt kr kb kl b).1.1)%Z.
Proof.
  intros Hw Hkl Hkr Hx Hlen Hnext. unfold pixel_of. simpl.
  assert (0 <= a.1.1 * w) by (apply Qmult_le_0_compat; lra).
  assert (0 <= a.2.1 * w) by (apply Qmult_le_0_compat; lra).
  assert (b.1.1 * w == a.1.1 * w + a.2.1 * w) as Hb
    by (rewrite Hnext; ring).
  apply Qtrunc_add_le; lra.
Qed.

End Neighbours_exact.


